(** * VirtualXT: the CGA adapter and the debugger overlay

    A shallow embedding of two peripherals of the emulator, package [cga]
    (the Color Graphics Adapter) and package [debug] (the interactive
    debugger), together with the parts of packages [memory] and
    [processor] they rely on.

    Conventions.  Go's fixed-width integers are integers of [Z] with the
    wrap-around written out ([uint16], [uint32], [uint64], [int32],
    [int64]); [int] is taken to be 64 bits wide, as on the amd64 and arm64
    targets.  The arrays of the adapter are lists whose length is a
    well-formedness condition of the state.  The methods of the adapter
    take the receiver and return its new value; the methods of the
    debugger, which also reach the package variables, the registers of the
    processor, the other devices and the log, live in a state monad whose
    failure stands for a Go program that does not return. *)

From Stdlib Require Import ZArith Lia Bool.
From stdpp Require Import base numbers list strings.

Local Open Scope Z_scope.

(** ** Machine integers *)

Definition wrap_unsigned (bits x : Z) : Z := x mod 2 ^ bits.

Definition wrap_signed (bits x : Z) : Z :=
  (x + 2 ^ (bits - 1)) mod 2 ^ bits - 2 ^ (bits - 1).

Definition uint16 : Z -> Z := wrap_unsigned 16.
Definition uint32 : Z -> Z := wrap_unsigned 32.
Definition uint64 : Z -> Z := wrap_unsigned 64.
Definition int32 : Z -> Z := wrap_signed 32.
Definition int64 : Z -> Z := wrap_signed 64.

(** Go's [int]. *)
Definition int : Z -> Z := wrap_signed 64.

Definition is_byte (d : Z) : Prop := 0 <= d < 256.
Definition is_int64 (x : Z) : Prop := - 2 ^ 63 <= x < 2 ^ 63.

(** ** Package [memory] *)

Module memory.

(** Modelled from the spec: the type [memory.Pointer], declared in package
    [memory].  A pointer is a linear address held in an unsigned 32-bit
    integer; [Pointer x] is the conversion of an integer to it. *)
Definition Pointer : Z -> Z := uint32.

(** Modelled from the spec: the constructor [memory.NewPointer], declared
    in package [memory].  A (segment, offset) pair of two [uint16] maps to
    [(segment << 4) + offset], wrapped at 2^20. *)
Definition NewPointer (seg offset : Z) : Z :=
  Z.land (Z.shiftl (uint16 seg) 4 + uint16 offset) 0xFFFFF.

(** The interface [memory.Memory].  A value of the interface is a
    reference to a device; [D] is the type of such references and [W] the
    store holding the state of the devices they refer to. *)
Class Memory (D W : Type) := {
  ReadByte : D -> Z -> W -> Z * W;
  WriteByte : D -> Z -> Z -> W -> W
}.

End memory.

(** ** Package [processor] *)

Module processor.

(** Modelled from the spec: the errors an installation can report,
    declared in package [processor]. *)
Inductive error := AddressOverlap | PortOverlap.

(** The part of the interface [processor.Processor] used by the two
    peripherals.  [P] is the state of the processor and its buses, [D]
    the type of device references. *)
Class Processor (P D : Type) := {
  InstallMemoryDevice : D -> Z -> Z -> P -> option error * P;
  InstallIODevice : D -> Z -> Z -> P -> option error * P;
  GetMappedMemoryDevice : Z -> P -> D
}.

(** What the memory bus promises: a successful installation makes the
    device the owner of every address of the inclusive range it asked
    for, and installing ports leaves the memory map alone. *)
Class ProcessorLaws (P D : Type) `{Processor P D} := {
  install_memory_claims :
    forall dev from to p p' a,
      InstallMemoryDevice dev from to p = (None, p') ->
      from <= a <= to ->
      GetMappedMemoryDevice a p' = dev;
  install_io_keeps_memory :
    forall dev from to p p' a,
      InstallIODevice dev from to p = (None, p') ->
      GetMappedMemoryDevice a p' = GetMappedMemoryDevice a p
}.

(** The registers the debugger looks at.  The general registers and the
    flags are only ever printed. *)
Record Registers := mkRegisters {
  CS : Z;
  IP : Z;
  Debug : bool
}.

Definition set_Debug (v : bool) (r : Registers) : Registers :=
  mkRegisters (CS r) (IP r) v.

End processor.

(** ** Package [cga] *)

Module cga.

Definition memorySize : Z := 0x4000.
Definition memoryBase : Z := 0xB8000.
Definition scanlineTiming : Z := 31469.

(** The fields [lock], [quitChan], [windowTitleTicker] and [p] are
    synchronisation objects and handles; they carry no state of the
    adapter. *)
Record Device := mkDevice {
  dirtyMemory : Z;
  mem : list Z;
  crtReg : list Z;
  crtAddr : Z;
  modeCtrlReg : Z;
  colorCtrlReg : Z;
  statusReg : Z;
  lastScanline : Z;
  currentScanline : Z;
  cursorVisible : bool;
  prevCursorState : bool;
  cursorPosition : Z;
  surface : list Z;
  atomicCycleCounter : Z
}.

Definition set_dirtyMemory (v : Z) (m : Device) : Device :=
  mkDevice v (mem m) (crtReg m) (crtAddr m) (modeCtrlReg m) (colorCtrlReg m)
    (statusReg m) (lastScanline m) (currentScanline m) (cursorVisible m)
    (prevCursorState m) (cursorPosition m) (surface m) (atomicCycleCounter m).

Definition set_mem (v : list Z) (m : Device) : Device :=
  mkDevice (dirtyMemory m) v (crtReg m) (crtAddr m) (modeCtrlReg m)
    (colorCtrlReg m) (statusReg m) (lastScanline m) (currentScanline m)
    (cursorVisible m) (prevCursorState m) (cursorPosition m) (surface m)
    (atomicCycleCounter m).

Definition set_crtReg (v : list Z) (m : Device) : Device :=
  mkDevice (dirtyMemory m) (mem m) v (crtAddr m) (modeCtrlReg m)
    (colorCtrlReg m) (statusReg m) (lastScanline m) (currentScanline m)
    (cursorVisible m) (prevCursorState m) (cursorPosition m) (surface m)
    (atomicCycleCounter m).

Definition set_crtAddr (v : Z) (m : Device) : Device :=
  mkDevice (dirtyMemory m) (mem m) (crtReg m) v (modeCtrlReg m)
    (colorCtrlReg m) (statusReg m) (lastScanline m) (currentScanline m)
    (cursorVisible m) (prevCursorState m) (cursorPosition m) (surface m)
    (atomicCycleCounter m).

Definition set_modeCtrlReg (v : Z) (m : Device) : Device :=
  mkDevice (dirtyMemory m) (mem m) (crtReg m) (crtAddr m) v (colorCtrlReg m)
    (statusReg m) (lastScanline m) (currentScanline m) (cursorVisible m)
    (prevCursorState m) (cursorPosition m) (surface m) (atomicCycleCounter m).

Definition set_colorCtrlReg (v : Z) (m : Device) : Device :=
  mkDevice (dirtyMemory m) (mem m) (crtReg m) (crtAddr m) (modeCtrlReg m) v
    (statusReg m) (lastScanline m) (currentScanline m) (cursorVisible m)
    (prevCursorState m) (cursorPosition m) (surface m) (atomicCycleCounter m).

Definition set_statusReg (v : Z) (m : Device) : Device :=
  mkDevice (dirtyMemory m) (mem m) (crtReg m) (crtAddr m) (modeCtrlReg m)
    (colorCtrlReg m) v (lastScanline m) (currentScanline m) (cursorVisible m)
    (prevCursorState m) (cursorPosition m) (surface m) (atomicCycleCounter m).

Definition set_lastScanline (v : Z) (m : Device) : Device :=
  mkDevice (dirtyMemory m) (mem m) (crtReg m) (crtAddr m) (modeCtrlReg m)
    (colorCtrlReg m) (statusReg m) v (currentScanline m) (cursorVisible m)
    (prevCursorState m) (cursorPosition m) (surface m) (atomicCycleCounter m).

Definition set_currentScanline (v : Z) (m : Device) : Device :=
  mkDevice (dirtyMemory m) (mem m) (crtReg m) (crtAddr m) (modeCtrlReg m)
    (colorCtrlReg m) (statusReg m) (lastScanline m) v (cursorVisible m)
    (prevCursorState m) (cursorPosition m) (surface m) (atomicCycleCounter m).

Definition set_cursorVisible (v : bool) (m : Device) : Device :=
  mkDevice (dirtyMemory m) (mem m) (crtReg m) (crtAddr m) (modeCtrlReg m)
    (colorCtrlReg m) (statusReg m) (lastScanline m) (currentScanline m) v
    (prevCursorState m) (cursorPosition m) (surface m) (atomicCycleCounter m).

Definition set_prevCursorState (v : bool) (m : Device) : Device :=
  mkDevice (dirtyMemory m) (mem m) (crtReg m) (crtAddr m) (modeCtrlReg m)
    (colorCtrlReg m) (statusReg m) (lastScanline m) (currentScanline m)
    (cursorVisible m) v (cursorPosition m) (surface m) (atomicCycleCounter m).

Definition set_cursorPosition (v : Z) (m : Device) : Device :=
  mkDevice (dirtyMemory m) (mem m) (crtReg m) (crtAddr m) (modeCtrlReg m)
    (colorCtrlReg m) (statusReg m) (lastScanline m) (currentScanline m)
    (cursorVisible m) (prevCursorState m) v (surface m) (atomicCycleCounter m).

Definition set_surface (v : list Z) (m : Device) : Device :=
  mkDevice (dirtyMemory m) (mem m) (crtReg m) (crtAddr m) (modeCtrlReg m)
    (colorCtrlReg m) (statusReg m) (lastScanline m) (currentScanline m)
    (cursorVisible m) (prevCursorState m) (cursorPosition m) v
    (atomicCycleCounter m).

Definition set_atomicCycleCounter (v : Z) (m : Device) : Device :=
  mkDevice (dirtyMemory m) (mem m) (crtReg m) (crtAddr m) (modeCtrlReg m)
    (colorCtrlReg m) (statusReg m) (lastScanline m) (currentScanline m)
    (cursorVisible m) (prevCursorState m) (cursorPosition m) (surface m) v.

(** The zero value of [Device], before [Install]. *)
Definition zero : Device :=
  mkDevice 0 (replicate (Z.to_nat memorySize) 0) (replicate 256 0)
    0 0 0 0 0 0 false false 0 [] 0.

(** [Install].  [rnd] is what [rand.Read] delivers, one byte for every
    cell of the frame buffer; [self] is the reference under which the
    adapter registers itself.  The render task started at the end runs
    concurrently and is not part of this function. *)
Definition Install {P D : Type} `{processor.Processor P D}
    (self : D) (rnd : list Z) (m : Device) (p : P)
    : option processor.error * Device * P :=
  let m := set_mem rnd m in
  match processor.InstallMemoryDevice self memoryBase
          (memoryBase + memorySize * 2) p with
  | (Some err, p) => (Some err, m, p)
  | (None, p) =>
      match processor.InstallIODevice self 0x3D0 0x3DF p with
      | (Some err, p) => (Some err, m, p)
      | (None, p) =>
          (None, set_surface (replicate (Z.to_nat (640 * 200 * 4)) 0) m, p)
      end
  end.

(** [Reset].  [now] is the reading of [time.Now().UnixNano()]. *)
Definition Reset (now : Z) (m : Device) : Device :=
  let m := set_lastScanline now m in
  let m := set_currentScanline 0 m in
  let m := set_colorCtrlReg 0x20 m in
  let m := set_modeCtrlReg 1 m in
  let m := set_statusReg 0 m in
  let m := set_cursorVisible true m in
  set_cursorPosition 0 m.

(** The number of whole scanline periods between the last recorded
    scanline and [now], as [Step] computes it. *)
Definition elapsed_scanlines (now : Z) (m : Device) : Z :=
  Z.quot (int64 (now - lastScanline m)) scanlineTiming.

(** [Step].  The error returned is always [nil]. *)
Definition Step (now cycles : Z) (m : Device) : Device :=
  let m :=
    set_atomicCycleCounter (int32 (atomicCycleCounter m + int32 cycles)) m in
  let t := now in
  let d := int64 (t - lastScanline m) in
  let scanlines := Z.quot d scanlineTiming in
  if 0 <? scanlines then
    let offset := Z.rem d scanlineTiming in
    let m := set_lastScanline (int64 (t - offset)) m in
    let m :=
      set_currentScanline
        (Z.rem (int (currentScanline m + int scanlines)) 525) m in
    let m :=
      if 479 <? currentScanline m then set_statusReg 8 m
      else set_statusReg 0 m in
    set_statusReg (Z.lor (statusReg m) 1) m
  else m.

Definition is_crt_data_port (port : Z) : bool :=
  (port =? 0x3D1) || (port =? 0x3D3) || (port =? 0x3D5) || (port =? 0x3D7).

Definition is_crt_index_port (port : Z) : bool :=
  (port =? 0x3D0) || (port =? 0x3D2) || (port =? 0x3D4) || (port =? 0x3D6).

(** [In]: the byte read and the state the read leaves behind. *)
Definition In (port : Z) (m : Device) : Z * Device :=
  if is_crt_data_port port then
    (crtReg m !!! Z.to_nat (crtAddr m), m)
  else if port =? 0x3DA then
    let status := statusReg m in
    (status, set_statusReg (Z.land (statusReg m) 0xFE) m)
  else if port =? 0x3D9 then
    (colorCtrlReg m, m)
  else (0, m).

Definition Out (port data : Z) (m : Device) : Device :=
  let m := set_dirtyMemory 1 m in
  if is_crt_index_port port then set_crtAddr data m
  else if is_crt_data_port port then
    let m := set_crtReg (<[Z.to_nat (crtAddr m) := data]> (crtReg m)) m in
    if crtAddr m =? 0xA then
      set_cursorVisible (Z.land data 0x20 =? 0) m
    else if crtAddr m =? 0xE then
      set_cursorPosition
        (Z.lor (Z.land (cursorPosition m) 0x00FF)
               (uint16 (Z.shiftl (uint16 data) 8))) m
    else if crtAddr m =? 0xF then
      set_cursorPosition
        (Z.lor (Z.land (cursorPosition m) 0xFF00) (uint16 data)) m
    else m
  else if port =? 0x3D8 then set_modeCtrlReg data m
  else if port =? 0x3D9 then set_colorCtrlReg data m
  else m.

(** The cell of the frame buffer an address decodes to. *)
Definition decode (addr : Z) : nat :=
  Z.to_nat (Z.land (memory.Pointer (addr - memoryBase)) (memorySize - 1)).

Definition ReadByte (addr : Z) (m : Device) : Z :=
  mem m !!! decode addr.

Definition WriteByte (addr data : Z) (m : Device) : Device :=
  let m := set_dirtyMemory 1 m in
  set_mem (<[decode addr := data]> (mem m)) m.

(** The adapter as a memory device: the store is the adapter itself. *)
#[export] Instance Device_Memory : memory.Memory unit Device := {|
  memory.ReadByte := fun _ addr m => (ReadByte addr m, m);
  memory.WriteByte := fun _ addr data m => WriteByte addr data m
|}.

(** The range of the scanline counter. *)
Definition scanline_ok (m : Device) : Prop := 0 <= currentScanline m < 525.

(** The states of the adapter: the zero value, then any sequence of its
    methods.  The render task, which runs beside them, stores to
    [dirtyMemory], [prevCursorState], [atomicCycleCounter] and the
    surface. *)
Inductive reachable : Device -> Prop :=
| reach_zero : reachable zero
| reach_Install {P D : Type} `{processor.Processor P D}
    (self : D) (rnd : list Z) (p : P) (m : Device) :
    reachable m -> reachable (Install self rnd m p).1.2
| reach_Reset (now : Z) (m : Device) :
    reachable m -> reachable (Reset now m)
| reach_Step (now cycles : Z) (m : Device) :
    reachable m -> reachable (Step now cycles m)
| reach_In (port : Z) (m : Device) :
    reachable m -> reachable (In port m).2
| reach_Out (port data : Z) (m : Device) :
    reachable m -> reachable (Out port data m)
| reach_WriteByte (addr data : Z) (m : Device) :
    reachable m -> reachable (WriteByte addr data m)
| reach_render (dirty cycles : Z) (blink : bool) (surf : list Z)
    (m : Device) :
    reachable m ->
    reachable
      (set_surface surf
         (set_prevCursorState blink
            (set_atomicCycleCounter cycles (set_dirtyMemory dirty m)))).

(** *** The render task

    [renderLoop] runs beside the methods above and wakes up thirty times
    a second.  What it does on one tick is the function [render] below;
    a tick is taken to run without a method of the adapter in between.
    Indexing a slice or an array out of its range is a panic, here
    [None]. *)

Definition uint8 : Z -> Z := wrap_unsigned 8.

Definition cgaColor : list Z :=
  [0x000000; 0x0000AA; 0x00AA00; 0x00AAAA; 0xAA0000; 0xAA00AA; 0xAA5500;
   0xAAAAAA; 0x555555; 0x5555FF; 0x55FF55; 0x55FFFF; 0xFF5555; 0xFF55FF;
   0xFFFF55; 0xFFFFFF].

(** [l[i]], read. *)
Definition at_ (l : list Z) (i : Z) : option Z :=
  if 0 <=? i then l !! Z.to_nat i else None.

(** [l[i] = v]. *)
Definition put (l : list Z) (i v : Z) : option (list Z) :=
  if (0 <=? i) && (i <? Z.of_nat (length l))
  then Some (<[Z.to_nat i := v]> l)
  else None.

Notation "'let?' x ':=' c 'in' k" :=
  (match c with Some x => k | None => None end)
  (at level 10, x pattern, c at level 200, k at level 200).

(** [for i := from; i < from + n * step; i += step { body }]. *)
Fixpoint loop {S : Type} (n : nat) (i step : Z)
    (body : Z -> S -> option S) (s : S) : option S :=
  match n with
  | O => Some s
  | Datatypes.S n =>
      let? s := body i s in loop n (i + step) step body s
  end.

Definition blit32 (pixels : list Z) (offset color : Z)
    : option (list Z) :=
  let? pixels :=
    put pixels offset (uint8 (Z.shiftr (Z.land color 0xFF0000) 16)) in
  let? pixels :=
    put pixels (int (offset + 1))
      (uint8 (Z.shiftr (Z.land color 0x00FF00) 8)) in
  let? pixels :=
    put pixels (int (offset + 2)) (uint8 (Z.land color 0x0000FF)) in
  put pixels (int (offset + 3)) 0xFF.

(** What the render task hands to the platform. *)
Inductive call :=
| SetTitle (numCycles : Z) (hlp : string)
| RenderGraphics (pixels : list Z) (r g b : Z)
| RenderText (text : list Z) (blink : bool) (bg cx cy : Z).

Section Font.

(** The table of glyphs, eight bytes a character; it is declared in a
    file of the package that holds nothing else. *)
Variable cgaFont : list Z.

(** [blitChar].  [blink] is the reading of [blinkTick], taken for a
    blinking character only. *)
Definition blitChar (blink : bool) (ch attrib x y : Z) (m : Device)
    : option Device :=
  let pixels := surface m in
  let bgColorIndex := Z.shiftr (Z.land attrib 0x70) 4 in
  let fgColorIndex := Z.land attrib 0xF in
  let '(bgColorIndex, fgColorIndex) :=
    if negb (Z.land attrib 0x80 =? 0) then
      if negb (Z.land (modeCtrlReg m) 0x20 =? 0) then
        if blink then (bgColorIndex, bgColorIndex)
        else (bgColorIndex, fgColorIndex)
      else (uint8 (bgColorIndex + 8), fgColorIndex)
    else (bgColorIndex, fgColorIndex) in
  let? bgColor := at_ cgaColor bgColorIndex in
  let? fgColor := at_ cgaColor fgColorIndex in
  let charWidth := if Z.land (modeCtrlReg m) 1 =? 0 then 2 else 1 in
  let? pixels :=
    loop 8 0 1
      (fun i pixels =>
         let? glyphLine := at_ cgaFont (ch * 8 + i) in
         loop 8 0 1
           (fun j pixels =>
              let mask := uint8 (Z.shiftr 0x80 j) in
              let col :=
                if Z.land glyphLine mask =? 0 then bgColor else fgColor in
              let offset :=
                (640 * (y + i) + x * charWidth + j * charWidth) * 4 in
              let? pixels := blit32 pixels offset col in
              if charWidth =? 2 then blit32 pixels (offset + 4) col
              else Some pixels)
           pixels)
      pixels in
  Some (set_surface pixels m).

(** The 640 by 200 picture of the high-resolution graphics mode. *)
Definition render_high (m : Device) (dst : list Z) : option (list Z) :=
  loop 200 0 1
    (fun y dst =>
       loop 640 0 1
         (fun x dst =>
            let addr :=
              Z.shiftr y 1 * 80 + Z.land y 1 * 8192 + Z.shiftr x 3 in
            let? b := at_ (mem m) addr in
            let pixel := Z.land (Z.shiftr b (7 - Z.land x 7)) 1 in
            let? col := at_ cgaColor (uint8 (pixel * 15)) in
            let offset := (y * 640 + x) * 4 in
            blit32 dst offset col)
         dst)
    dst.

(** The 320 by 200 picture of the four-colour graphics mode. *)
Definition render_low (backgroundColor : Z) (m : Device) (dst : list Z)
    : option (list Z) :=
  let palette := Z.land (Z.shiftr (colorCtrlReg m) 5) 1 in
  let intensity :=
    uint8 (Z.shiftl (Z.land (Z.shiftr (colorCtrlReg m) 4) 1) 3) in
  loop 200 0 1
    (fun y dst =>
       loop 320 0 1
         (fun x dst =>
            let addr :=
              Z.shiftr y 1 * 80 + Z.land y 1 * 8192 + Z.shiftr x 2 in
            let? pixel := at_ (mem m) addr in
            let pixel :=
              match Z.land x 3 with
              | 0 => Z.land (Z.shiftr pixel 6) 3
              | 1 => Z.land (Z.shiftr pixel 4) 3
              | 2 => Z.land (Z.shiftr pixel 2) 3
              | 3 => Z.land pixel 3
              | _ => pixel
              end in
            let? col :=
              if negb (pixel =? 0) then
                at_ cgaColor
                  (uint8 (uint8 (uint8 (pixel * 2) + palette) + intensity))
              else Some backgroundColor in
            let offset := (y * 640 + x * 2) * 4 in
            let? dst := blit32 dst offset col in
            blit32 dst (offset + 4) col)
         dst)
    dst.

(** The start of the text page, as the text mode computes it from the
    CRT registers: the shift is a shift of a [byte]. *)
Definition videoPage (m : Device) : Z :=
  uint8 (Z.shiftl (crtReg m !!! 0xC%nat) 8) + crtReg m !!! 0xD%nat.

(** The characters of the text mode, then the cursor.  [blinks i] is the
    reading of [blinkTick] for the character at offset [i]. *)
Definition render_text (blink : bool) (blinks : Z -> bool) (numCol : Z)
    (m : Device) : option Device :=
  let videoPage := videoPage m in
  let numChar := numCol * 25 in
  let? m :=
    loop (Z.to_nat numChar) 0 2
      (fun i m =>
         let? ch := at_ (mem m) (videoPage + i) in
         let idx := Z.quot i 2 in
         let? attrib := at_ (mem m) (videoPage + i + 1) in
         blitChar (blinks i) ch attrib
           (Z.rem idx numCol * 8) (Z.quot idx numCol * 8) m)
      m in
  if blink && cursorVisible m then
    let x := Z.rem (cursorPosition m) numCol in
    let y := Z.quot (cursorPosition m) numCol in
    if (x <? 80) && (y <? 25) then
      let? a := at_ (mem m) (videoPage + (numCol * 2 * y + x * 2 + 1)) in
      let attr := Z.lor (Z.land a 0x70) 0xF in
      blitChar false 95 attr (x * 8) (y * 8) m
    else Some m
  else Some m.

(** One tick of [renderLoop].  [title] tells whether the ticker of the
    window title has fired, and then whether the hint for the menu has
    run out; [blink] is the reading of [blinkTick] at the top of the
    tick; [cliMode] is the flag [text] of the command line.  The result
    is the calls made to the platform, in order, and the adapter after
    the tick. *)
Definition render (title : option bool) (blink : bool)
    (blinks : Z -> bool) (cliMode : bool) (m : Device)
    : option (list call * Device) :=
  let '(calls, m) :=
    match title with
    | Some expired =>
        ([SetTitle (atomicCycleCounter m)
            (if expired then EmptyString else " (Press F12 for menu)")],
         set_atomicCycleCounter 0 m)
    | None => ([], m)
    end in
  let dirtyMemory := negb (dirtyMemory m =? 0) in
  if dirtyMemory || negb (eqb (prevCursorState m) blink) then
    let m := set_dirtyMemory 0 m in
    let m := set_prevCursorState blink m in
    let numCol := if Z.land (modeCtrlReg m) 1 =? 0 then 40 else 80 in
    let backgroundColorIndex := Z.land (colorCtrlReg m) 0xF in
    let? backgroundColor := at_ cgaColor backgroundColorIndex in
    let bgRComponent := uint8 (Z.land backgroundColor 0xFF0000) in
    let bgGComponent := uint8 (Z.land backgroundColor 0x00FF00) in
    let bgBComponent := uint8 (Z.land backgroundColor 0x0000FF) in
    if negb (Z.land (modeCtrlReg m) 2 =? 0) then
      let? dst :=
        if negb (Z.land (modeCtrlReg m) 0x10 =? 0)
        then render_high m (surface m)
        else render_low backgroundColor m (surface m) in
      Some (calls ++ [RenderGraphics dst bgRComponent bgGComponent
                        bgBComponent],
            set_surface dst m)
    else if cliMode then
      if dirtyMemory then
        let '(cx, cy) :=
          if cursorVisible m
          then (Z.rem (cursorPosition m) numCol,
                Z.quot (cursorPosition m) numCol)
          else (-1, -1) in
        if numCol * 25 * 2 <=? Z.of_nat (length (mem m)) then
          Some (calls ++ [RenderText
                            (take (Z.to_nat (numCol * 25 * 2)) (mem m))
                            (negb (Z.land (modeCtrlReg m) 0x20 =? 0))
                            backgroundColorIndex cx cy],
                m)
        else None
      else Some (calls, m)
    else
      let? m := render_text blink blinks numCol m in
      Some (calls ++ [RenderGraphics (surface m) bgRComponent bgGComponent
                        bgBComponent],
            m)
  else Some (calls, m).

End Font.

(** *** The picture on the surface *)

(** The four bytes of a pixel of the surface: red, green, blue and an
    opaque alpha. *)
Definition rgba (color : Z) : list Z :=
  [Z.land (Z.shiftr color 16) 0xFF; Z.land (Z.shiftr color 8) 0xFF;
   Z.land color 0xFF; 0xFF].

(** The colour of the pixel in column [x] of line [y] in the
    high-resolution mode: even lines lie in the first half of the frame
    buffer, odd lines in the second, eight pixels to a byte, the leftmost
    in bit 7. *)
Definition high_color (m : Device) (x y : Z) : Z :=
  if Z.testbit (mem m !!! Z.to_nat (y / 2 * 80 + y mod 2 * 8192 + x / 8))
       (7 - x mod 8)
  then 0xFFFFFF else 0x000000.

(** The colour of the pixel in column [x] of line [y] in the four-colour
    mode: four pixels to a byte, the leftmost in the two high bits; the
    value zero shows the background. *)
Definition low_color (m : Device) (x y : Z) : Z :=
  let b := mem m !!! Z.to_nat (y / 2 * 80 + y mod 2 * 8192 + x / 4) in
  let pixel := (b / 4 ^ (3 - x mod 4)) mod 4 in
  if pixel =? 0 then cgaColor !!! Z.to_nat (colorCtrlReg m mod 16)
  else
    cgaColor !!! Z.to_nat (2 * pixel + colorCtrlReg m / 32 mod 2
                           + 8 * (colorCtrlReg m / 16 mod 2)).

(** The sizes the arrays of the adapter have by their types, and the
    size [Install] gives the surface. *)
Record sized (m : Device) : Prop := {
  sized_mem : length (mem m) = Z.to_nat memorySize;
  sized_surface : length (surface m) = Z.to_nat (640 * 200 * 4)
}.

(** An adapter with a blank frame buffer and a blank surface, in the
    mode [mode], with a write to the frame buffer not yet shown. *)
Definition blank (mode : Z) : Device :=
  set_surface (replicate (Z.to_nat (640 * 200 * 4)) 0)
    (set_modeCtrlReg mode (set_dirtyMemory 1 zero)).

(** What the types of the fields say about their values: the cells of
    the frame buffer and the CRT registers are bytes, the cursor position
    is a [uint16]. *)
Record typed (m : Device) : Prop := {
  typed_mem : Forall is_byte (mem m);
  typed_crtReg : Forall is_byte (crtReg m);
  typed_crtReg_length : length (crtReg m) = 256%nat;
  typed_cursorPosition : 0 <= cursorPosition m < 2 ^ 16
}.

(** The adapter after a step of drawing: as before but for the surface,
    which has kept its size. *)
Definition redrawn (m m' : Device) : Prop :=
  exists pixels,
    m' = set_surface pixels m /\ length pixels = length (surface m).

(** The four bytes of the surface that hold its pixel number [n], the
    pixels counted line by line. *)
Definition pixel (pixels : list Z) (n : Z) : list Z :=
  take 4 (drop (Z.to_nat (4 * n)) pixels).

(** The colour of the dot in line [i], column [j] of the glyph of the
    character [ch] shown with the attribute [attrib]: the foreground
    colour where the bit of the glyph is set, the background colour
    elsewhere.  The attribute holds the foreground in its low four bits
    and the background in the three bits above; its bit 7 makes the
    character blink where the mode register asks for blinking (the
    foreground is then the background while [blink] holds), and selects
    the eight bright backgrounds where it does not. *)
Definition glyph_color (font : list Z) (blink : bool) (mode ch attrib : Z)
    (i j : Z) : Z :=
  let bright := Z.testbit attrib 7 && negb (Z.testbit mode 5) in
  let hidden := Z.testbit attrib 7 && Z.testbit mode 5 && blink in
  let bg := attrib / 16 mod 8 + (if bright then 8 else 0) in
  let fg := if hidden then attrib / 16 mod 8 else attrib mod 16 in
  if Z.testbit (font !!! Z.to_nat (ch * 8 + i)) (7 - j)
  then cgaColor !!! Z.to_nat fg
  else cgaColor !!! Z.to_nat bg.

(** The colour of the pixel in column [x] of line [y] in the text mode,
    the cursor aside: the screen is 25 rows of 40 or 80 characters, each
    8 lines high and 8 dots wide, a dot two pixels wide with 40
    columns; a character and its attribute lie side by side in the frame
    buffer, from the start of the page on. *)
Definition text_color (font : list Z) (blinks : Z -> bool) (m : Device)
    (x y : Z) : Z :=
  let wide := Z.land (modeCtrlReg m) 1 =? 0 in
  let numCol := if wide then 40 else 80 in
  let width := if wide then 16 else 8 in
  let k := y / 8 * numCol + x / width in
  let page := crtReg m !!! 0xD%nat in
  glyph_color font (blinks (2 * k)) (modeCtrlReg m)
    (mem m !!! Z.to_nat (page + 2 * k))
    (mem m !!! Z.to_nat (page + 2 * k + 1))
    (y mod 8) (x mod width / (width / 8)).

(** The colour of the pixel in column [x] of line [y] of the cell the
    cursor is drawn in: an underscore in bright white on the background
    of the cell. *)
Definition cursor_color (font : list Z) (m : Device) (x y : Z) : Z :=
  let wide := Z.land (modeCtrlReg m) 1 =? 0 in
  let width := if wide then 16 else 8 in
  let page := crtReg m !!! 0xD%nat in
  let attrib := mem m !!! Z.to_nat (page + 2 * cursorPosition m + 1) in
  glyph_color font false (modeCtrlReg m) 95
    (Z.lor (Z.land attrib 0x70) 0xF)
    (y mod 8) (x mod width / (width / 8)).

(** The picture of the text mode.  The cursor is drawn while [blink]
    holds, where it is visible and lies in one of the 25 rows. *)
Definition screen_color (font : list Z) (blink : bool) (blinks : Z -> bool)
    (m : Device) (x y : Z) : Z :=
  let wide := Z.land (modeCtrlReg m) 1 =? 0 in
  let numCol := if wide then 40 else 80 in
  let width := if wide then 16 else 8 in
  if blink && cursorVisible m && (cursorPosition m / numCol <? 25)
     && (y / 8 * numCol + x / width =? cursorPosition m)
  then cursor_color font m x y
  else text_color font blinks m x y.

(** The layout of the text screen in the mode of the adapter: the number
    of columns, the width of a character cell in pixels and the width of
    a dot. *)
Definition layout (m : Device) (numCol width cw : Z) : Prop :=
  (Z.land (modeCtrlReg m) 1 =? 0) = true
  /\ numCol = 40 /\ width = 16 /\ cw = 2
  \/ (Z.land (modeCtrlReg m) 1 =? 0) = false
     /\ numCol = 80 /\ width = 8 /\ cw = 1.

End cga.

(** ** Package [debug] *)

Module debug.

Local Open Scope string_scope.
Local Open Scope Z_scope.

(** The error [ErrQuit]. *)
Inductive error := ErrQuit.

(** *** Buffered channels

    A channel is its capacity and the values waiting in it, oldest first.
    The zero value (a nil channel) has capacity 0 and is never ready. *)
Record chan (A : Type) := mkChan {
  chan_cap : nat;
  chan_buf : list A
}.
Arguments mkChan {A} _ _.
Arguments chan_cap {A} _.
Arguments chan_buf {A} _.

Definition make_chan {A : Type} (cap : nat) : chan A := mkChan cap [].

Definition chan_len {A : Type} (c : chan A) : Z :=
  Z.of_nat (length (chan_buf c)).

(** A send that is ready, or [None] where it would have to wait. *)
Definition chan_send {A : Type} (v : A) (c : chan A) : option (chan A) :=
  if (length (chan_buf c) <? chan_cap c)%nat
  then Some (mkChan (chan_cap c) (chan_buf c ++ [v]))
  else None.

(** A receive that is ready, or [None] where it would have to wait. *)
Definition chan_recv {A : Type} (c : chan A) : option (A * chan A) :=
  match chan_buf c with
  | [] => None
  | v :: rest => Some (v, mkChan (chan_cap c) rest)
  end.

(** *** Formatting *)

Definition hex_digit (d : Z) : Ascii.ascii :=
  if d <? 10 then Ascii.ascii_of_N (Z.to_N (48 + d))
  else Ascii.ascii_of_N (Z.to_N (55 + d)).

Fixpoint fmt_X_digits (fuel : nat) (n : Z) (acc : string) : string :=
  match fuel with
  | O => acc
  | S fuel =>
      let acc := String (hex_digit (n mod 16)) acc in
      if n / 16 =? 0 then acc else fmt_X_digits fuel (n / 16) acc
  end.

(** The verb [%X] on an unsigned integer of at most 64 bits. *)
Definition fmt_X (n : Z) : string := fmt_X_digits 16 n EmptyString.

(** An argument of a call to the logger, and the call itself.  What is
    printed is recorded as the call, not as the text it formats to. *)
Inductive arg :=
| AInt (n : Z)
| AStr (s : string)
| ARegisters (r : processor.Registers)
| AFlags (r : processor.Registers)
| ADump (bytes : list Z).

Inductive LogEntry :=
| Print (args : list arg)
| Println (args : list arg)
| Printf (format : string) (args : list arg).

Definition toASCII (b : Z) : string :=
  if b =? 0 then "."
  else if b <? 0x20 then "?"
  else if 0x7E <? b then "#"
  else String (Ascii.ascii_of_N (Z.to_N b)) EmptyString.

(** What the debugger takes from outside this file, for device
    references [D] and a store [W]:
    - [OpcodeName], a table of the package that is declared in another
      file;
    - [Name], the name a device reports when it is a
      [peripheral.Peripheral];
    - [p_ReadByte], the method [m.p.ReadByte]: a read the processor routes
      through its bus;
    - [fmt.Sscanf] with the formats ["%x"] (into a [uint16]), ["%d"] (into
      an [int]) and ["%x,%x"] (into two [int]s; the values scanned before
      the first failure are returned). *)
Class Host (D W : Type) := {
  OpcodeName : Z -> string;
  Name : D -> option string;
  p_ReadByte : Z -> W -> Z * W;
  Sscanf_x : string -> option Z;
  Sscanf_d : string -> option Z;
  Sscanf_x_x : string -> list Z
}.

Section Debugger.

(** [D] and [W]: references to memory devices and the store behind
    them; [P]: the processor. *)
Context {D W P : Type}.
Context `{HMem : memory.Memory D W} `{HProc : processor.Processor P D}.
Context `{HHost : Host D W}.

(** The fields [mips], [stats] and [updateStats] hold wall-clock
    statistics that only the unreachable second [t] command prints;
    [r] and [p] are references, see [State]. *)
Record Device := mkDevice {
  signChan : chan unit;
  historyChan : chan string;
  numInstructionsLost : Z;
  lastInstruction : Z;
  breakOnIRET : bool;
  breakpoints : list Z;
  codeOffset : Z;
  memPeripherals : Z -> option D
}.

Definition set_signChan v (m : Device) : Device :=
  mkDevice v (historyChan m) (numInstructionsLost m) (lastInstruction m)
    (breakOnIRET m) (breakpoints m) (codeOffset m) (memPeripherals m).

Definition set_historyChan v (m : Device) : Device :=
  mkDevice (signChan m) v (numInstructionsLost m) (lastInstruction m)
    (breakOnIRET m) (breakpoints m) (codeOffset m) (memPeripherals m).

Definition set_numInstructionsLost v (m : Device) : Device :=
  mkDevice (signChan m) (historyChan m) v (lastInstruction m)
    (breakOnIRET m) (breakpoints m) (codeOffset m) (memPeripherals m).

Definition set_lastInstruction v (m : Device) : Device :=
  mkDevice (signChan m) (historyChan m) (numInstructionsLost m) v
    (breakOnIRET m) (breakpoints m) (codeOffset m) (memPeripherals m).

Definition set_breakOnIRET v (m : Device) : Device :=
  mkDevice (signChan m) (historyChan m) (numInstructionsLost m)
    (lastInstruction m) v (breakpoints m) (codeOffset m) (memPeripherals m).

Definition set_breakpoints v (m : Device) : Device :=
  mkDevice (signChan m) (historyChan m) (numInstructionsLost m)
    (lastInstruction m) (breakOnIRET m) v (codeOffset m) (memPeripherals m).

Definition set_codeOffset v (m : Device) : Device :=
  mkDevice (signChan m) (historyChan m) (numInstructionsLost m)
    (lastInstruction m) (breakOnIRET m) (breakpoints m) v (memPeripherals m).

Definition set_memPeripherals v (m : Device) : Device :=
  mkDevice (signChan m) (historyChan m) (numInstructionsLost m)
    (lastInstruction m) (breakOnIRET m) (breakpoints m) (codeOffset m) v.

(** The zero value of [Device]. *)
Definition zero : Device :=
  mkDevice (mkChan 0 []) (mkChan 0 []) 0 0 false [] 0 (fun _ => None).

(** Everything a method of the debugger can read or change: the
    receiver [dev], the package variables [debugBreak] and
    [traceInstructions], the registers behind [m.r], the store of the
    other devices, and what has been written to the log. *)
Record State := mkState {
  dev : Device;
  debugBreak : bool;
  traceInstructions : bool;
  r : processor.Registers;
  world : W;
  log : list LogEntry
}.

Definition set_dev v (s : State) : State :=
  mkState v (debugBreak s) (traceInstructions s) (r s) (world s) (log s).
Definition set_debugBreak v (s : State) : State :=
  mkState (dev s) v (traceInstructions s) (r s) (world s) (log s).
Definition set_r v (s : State) : State :=
  mkState (dev s) (debugBreak s) (traceInstructions s) v (world s) (log s).
Definition set_world v (s : State) : State :=
  mkState (dev s) (debugBreak s) (traceInstructions s) (r s) v (log s).
Definition set_log v (s : State) : State :=
  mkState (dev s) (debugBreak s) (traceInstructions s) (r s) (world s) v.

(** *** The monad of the methods

    A method maps a state to its result and the state it leaves, or to
    [None] where the Go program does not return: a run-time panic or a
    channel operation that waits forever. *)
Definition M (A : Type) : Type := State -> option (A * State).

Definition ret {A : Type} (a : A) : M A := fun s => Some (a, s).

Definition bind {A B : Type} (c : M A) (k : A -> M B) : M B :=
  fun s => match c s with
           | Some (a, s') => k a s'
           | None => None
           end.

Definition stuck {A : Type} : M A := fun _ => None.

Definition gets {A : Type} (f : State -> A) : M A :=
  fun s => Some (f s, s).

Definition modify (f : State -> State) : M unit :=
  fun s => Some (tt, f s).

Definition when (b : bool) (c : M unit) : M unit :=
  if b then c else ret tt.

Notation "'let*' x ':=' c 'in' k" := (bind c (fun x => k))
  (at level 10, x pattern, c at level 100, k at level 200).

Definition modify_dev (f : Device -> Device) : M unit :=
  modify (fun s => set_dev (f (dev s)) s).

(** A call to the logger. *)
Definition Log (e : LogEntry) : M unit :=
  modify (fun s => set_log (log s ++ [e]) s).

(** A method of another device, run on the store. *)
Definition on_world {A : Type} (f : W -> A * W) : M A :=
  fun s => let (a, w) := f (world s) in Some (a, set_world w s).

(** [<-m.historyChan], waiting. *)
Definition history_recv : M string :=
  let* c := gets (fun s => historyChan (dev s)) in
  match chan_recv c with
  | Some (inst, c) =>
      let* _ := modify_dev (set_historyChan c) in ret inst
  | None => stuck
  end.

(** [m.historyChan <- inst], waiting. *)
Definition history_send (inst : string) : M unit :=
  let* c := gets (fun s => historyChan (dev s)) in
  match chan_send inst c with
  | Some c => modify_dev (set_historyChan c)
  | None => stuck
  end.

(** *** The methods *)

Definition instructionToString (op : Z) : string :=
  OpcodeName op +:+ " (0x" +:+ fmt_X op +:+ ")".

Definition printRegisters : M unit :=
  let* regs := gets r in
  let* _ := Log (Println [ARegisters regs]) in
  Log (Println [AFlags regs]).

Fixpoint read_bytes (n : nat) (from : Z) : M (list Z) :=
  match n with
  | O => ret []
  | S n =>
      let* b := on_world (p_ReadByte (memory.Pointer from)) in
      let* rest := read_bytes n (from + 1) in
      ret (b :: rest)
  end.

Definition showMemory (rng : string) : M unit :=
  match Sscanf_x_x rng with
  | [from] =>
      let* d := on_world (p_ReadByte (memory.Pointer from)) in
      Log (Printf "0x%X: 0x%X (%d)\n" [AInt from; AInt d; AInt d])
  | [from; to] =>
      let num := int (int (to + 1) - from) in
      if 0 <? num then
        let* buffer := read_bytes (Z.to_nat num) from in
        Log (Print [ADump buffer])
      else ret tt
  | _ => Log (Println [AStr "invalid memory range"])
  end.

Fixpoint renderVideo_row (cols : nat) (p : Z) : M Z :=
  match cols with
  | O => ret p
  | S cols =>
      let* b := on_world (p_ReadByte p) in
      let* _ := Log (Print [AStr (toASCII b +:+ "<<<!")]) in
      renderVideo_row cols (memory.Pointer (p + 2))
  end.

Fixpoint renderVideo_rows (rows : nat) (p : Z) : M unit :=
  match rows with
  | O => ret tt
  | S rows =>
      let* _ := Log (Print [AStr "| <<<!"]) in
      let* p := renderVideo_row 80 p in
      let* _ := Log (Print [AStr EmptyString]) in
      renderVideo_rows rows p
  end.

Definition renderVideo : M unit := renderVideo_rows 25 0xB8000.

Definition setCodeOffset (of_ : string) : M unit :=
  match Sscanf_x of_ with
  | Some o =>
      let* _ := Log (Printf "Code offset at: 0x%X\n" [AInt o]) in
      modify_dev (set_codeOffset (uint16 o))
  | None => ret tt
  end.

Fixpoint showBreakpoints_from (i : Z) (brs : list Z) : M unit :=
  match brs with
  | [] => ret tt
  | br :: brs =>
      let* _ := Log (Printf "%d:\t0x%X\n" [AInt i; AInt br]) in
      showBreakpoints_from (i + 1) brs
  end.

Definition showBreakpoints : M unit :=
  let* brs := gets (fun s => breakpoints (dev s)) in
  showBreakpoints_from 0 brs.

Definition setBreakpoint (br : string) : M unit :=
  match Sscanf_x br with
  | Some b =>
      let* _ := Log (Printf "Breakpoint set at: CS:0x%X\n" [AInt b]) in
      modify_dev (fun m => set_breakpoints (breakpoints m ++ [b]) m)
  | None => ret tt
  end.

Definition removeBreakpoint (br : string) : M unit :=
  match Sscanf_d br with
  | Some i =>
      let* brs := gets (fun s => breakpoints (dev s)) in
      if i <? Z.of_nat (length brs) then
        if i <? 0 then stuck (* index out of range *)
        else
          let* _ :=
            Log (Printf "Removed breakpoint %d at: CS:0x%X\n"
                   [AInt i; AInt (brs !!! Z.to_nat i)]) in
          modify_dev
            (set_breakpoints
               (take (Z.to_nat i) brs ++ drop (Z.to_nat (i + 1)) brs))
      else ret tt
  | None => ret tt
  end.

Fixpoint showHistory_loop (n : nat) (i : Z) : M unit :=
  match n with
  | O => ret tt
  | S n =>
      let* len := gets (fun s => chan_len (historyChan (dev s))) in
      if i <? len then
        let* inst := history_recv in
        let* _ := Log (Println [AStr inst]) in
        let* _ := history_send inst in
        showHistory_loop n (i + 1)
      else ret tt
  end.

(** [showHistory]: the loop runs while [i < len(m.historyChan)] and
    [i < num]; [showHistory_loop] counts [num - i] down. *)
Definition showHistory (num : Z) : M unit :=
  let* lost := gets (fun s => numInstructionsLost (dev s)) in
  let* _ := Log (Println [AStr "| Lost instructions:"; AInt lost]) in
  showHistory_loop (Z.to_nat num) 0.

Definition showHistoryWithLength (hl : string) : M unit :=
  match Sscanf_d hl with
  | Some num =>
      let num := if num <=? 0 then 0xFFFFF else num in
      showHistory num
  | None => Log (Println [AStr "invalid history range"])
  end.

Definition pushHistory (inst : string) : M unit :=
  let* c := gets (fun s => historyChan (dev s)) in
  match chan_send inst c with
  | Some c => modify_dev (set_historyChan c)
  | None =>
      let* _ := history_recv in
      let* _ :=
        modify_dev
          (fun m =>
             set_numInstructionsLost
               (uint64 (numInstructionsLost m + 1)) m) in
      history_send inst
  end.

(** The label [drainHistory]: receive until the channel is empty and
    count every entry as lost. *)
Fixpoint drained (buf : list string) (lost : Z) : Z :=
  match buf with
  | [] => lost
  | _ :: buf => drained buf (uint64 (lost + 1))
  end.

Definition drainHistory : M unit :=
  modify_dev
    (fun m =>
       let c := historyChan m in
       set_numInstructionsLost
         (drained (chan_buf c) (numInstructionsLost m))
         (set_historyChan (mkChan (chan_cap c) []) m)).

Definition csToString (regs : processor.Registers) : string :=
  if processor.CS regs =? 0xF000 then "BIOS"
  else if processor.CS regs =? 0x7C00 then "BOOT"
  else "0x" +:+ fmt_X (processor.CS regs).

Fixpoint showMemMap_loop (n : nat) (i startAddr : Z)
    (lastDeviceName : string) : M unit :=
  match n with
  | O => ret tt
  | S n =>
      let* p := gets (fun s => memPeripherals (dev s) i) in
      let name := default "UNNAMED DEVICE" (p ≫= Name) in
      let isLast := i =? 0xFFFFF in
      let* startAddr :=
        if (negb (String.eqb lastDeviceName name) || isLast) && (0 <? i)
        then
          let end_ := i - 1 in
          let* _ :=
            if startAddr =? end_ then
              Log (Printf "0x%X: %s"
                     [AInt startAddr; AStr lastDeviceName])
            else
              let end_ := if isLast then end_ + 1 else end_ in
              Log (Printf "0x%X-0x%X: %s"
                     [AInt startAddr; AInt end_; AStr lastDeviceName]) in
          ret i
        else ret startAddr in
      showMemMap_loop n (i + 1) startAddr name
  end.

Definition showMemMap : M unit :=
  showMemMap_loop (Z.to_nat 0x100000) 0 0 EmptyString.

(** [m.memPeripherals[addr]]: indexing beyond the table and calling a
    method of a nil interface both panic. *)
Definition owner (addr : Z) : M D :=
  if (0 <=? addr) && (addr <? 0x100000) then
    let* o := gets (fun s => memPeripherals (dev s) addr) in
    match o with
    | Some d => ret d
    | None => stuck
    end
  else stuck.

Definition Break : M unit :=
  modify (fun s =>
            set_r (processor.set_Debug true (r s)) (set_debugBreak true s)).

Definition Continue : M unit :=
  modify (fun s =>
            set_r (processor.set_Debug false (r s))
              (set_debugBreak false s)).

Definition ReadByte (addr : Z) : M Z :=
  let* d := owner addr in
  on_world (memory.ReadByte d addr).

Definition WriteByte (addr data : Z) : M unit :=
  let* d := owner addr in
  let* _ := on_world (fun w => (tt, memory.WriteByte d addr data w)) in
  if negb (data =? 0) && (addr =? memory.NewPointer 0x40 0x15) then
    let* _ := Log (Printf "BIOS Error: 0x%X" [AInt data]) in
    Break
  else ret tt.

(** [Install].  [self] is the reference under which the debugger
    registers itself. *)
Definition Install (self : D) (p : P) (m : Device)
    : option processor.error * Device * P :=
  let m := set_historyChan (make_chan 128) m in
  let m := set_signChan (make_chan 1) m in
  let m :=
    set_memPeripherals
      (fun i =>
         if (0 <=? i) && (i <? 0x100000)
         then Some (processor.GetMappedMemoryDevice (memory.Pointer i) p)
         else memPeripherals m i) m in
  match processor.InstallMemoryDevice self 0x0 0xFFFFF p with
  | (Some err, p) => (Some err, m, p)
  | (None, p) => (None, m, p)
  end.

(** *** [Step] *)

Fixpoint check_breakpoints (i : Z) (brs : list Z) : M unit :=
  match brs with
  | [] => ret tt
  | br :: brs =>
      let* ip := gets (fun s => processor.IP (r s)) in
      let* _ :=
        when (ip =? br)
          (let* _ := Log (Println [AStr "BREAK:"; AInt i]) in Break) in
      check_breakpoints (i + 1) brs
  end.

(** The top of [Step], down to the scan of the breakpoints.  It yields
    the pointer [ip] and the text [inst] the rest of [Step] uses.  The
    refresh of the statistics, which no reachable command prints, is
    left out. *)
Definition Step_checks : M (Z * string) :=
  let* dbg := gets (fun s => processor.Debug (r s)) in
  let* _ := when dbg (modify (set_debugBreak true)) in
  let* sc := gets (fun s => signChan (dev s)) in
  let* _ :=
    match chan_recv sc with
    | Some (_, sc) =>
        let* _ := modify_dev (set_signChan sc) in
        let* _ := Log (Println [AStr "BREAK!"]) in
        Break
    | None => ret tt
    end in
  let* regs := gets r in
  let ip := memory.NewPointer (processor.CS regs) (processor.IP regs) in
  let* op := on_world (p_ReadByte ip) in
  let inst := instructionToString op in
  let* last := gets (fun s => lastInstruction (dev s)) in
  let* _ :=
    when ((0 <? last) && negb (last =? ip))
      (let* _ := Break in
       let* _ := modify_dev (set_lastInstruction 0) in
       Log (Println [AStr inst])) in
  let* onIRET := gets (fun s => breakOnIRET (dev s)) in
  let* _ :=
    when (onIRET && (op =? 0xCF))
      (let* _ := Break in
       let* _ := modify_dev (set_breakOnIRET false) in
       Log (Println [AStr inst])) in
  let* brs := gets (fun s => breakpoints (dev s)) in
  let* _ := check_breakpoints 0 brs in
  ret (ip, inst).

(** The [switch] over the line read; [Some err] where [Step] returns
    from inside the loop.  The source has a second case for ["t"]
    further down, which the first one shadows. *)
Definition command (ip : Z) (inst ln : string) : M (option error) :=
  if String.eqb ln "q" then ret (Some ErrQuit)
  else
    let* _ :=
      if String.eqb ln "c" then Continue
      else if String.eqb ln EmptyString || String.eqb ln "s" then
        let* _ := Continue in
        modify_dev (set_lastInstruction ip)
      else if String.eqb ln "i" then
        let* _ := Continue in
        modify_dev (set_breakOnIRET true)
      else if String.eqb ln "r" then printRegisters
      else if String.eqb ln "v" then renderVideo
      else if String.eqb ln "t" then showHistory 16
      else if String.eqb ln "ct" then
        let* _ := Log (Print [AStr "Clear trace!"]) in
        drainHistory
      else if String.eqb ln "@" then
        let* off := gets (fun s => codeOffset (dev s)) in
        let at_ := memory.Pointer (ip - memory.Pointer off) in
        let* _ := Log (Printf "%v (%d)\n" [AInt at_; AInt at_]) in
        Log (Print [AStr inst])
      else if String.eqb ln "cb" then
        let* _ := Log (Print [AStr "Clear breakpoints!"]) in
        modify_dev (set_breakpoints [])
      else if String.eqb ln "b" then showBreakpoints
      else if String.eqb ln "p" then showMemMap
      else if String.prefix "o " ln then
        setCodeOffset (String.substring 2 (String.length ln - 2) ln)
      else if String.prefix "t " ln then
        showHistoryWithLength
          (String.substring 2 (String.length ln - 2) ln)
      else if String.prefix "b " ln then
        setBreakpoint (String.substring 2 (String.length ln - 2) ln)
      else if String.prefix "rb " ln then
        removeBreakpoint (String.substring 3 (String.length ln - 3) ln)
      else if String.prefix "m " ln then
        showMemory (String.substring 2 (String.length ln - 2) ln)
      else Log (Print [AStr "unknown command: "; AStr ln]) in
    ret None.

Definition prompt : M unit :=
  let* regs := gets r in
  let* off := gets (fun s => codeOffset (dev s)) in
  Log (Printf "[%s:0x%X] DEBUG><<<!"
         [AStr (csToString regs); AInt (uint16 (processor.IP regs - off))]).

(** The loop [for debugBreak].  [input] holds the lines still to come
    on the stream; the result carries the lines left over.  Once the
    stream is exhausted [readLine] returns the empty line, which is the
    single-step command: it clears [debugBreak] and the loop ends. *)
Fixpoint Step_repl (ip : Z) (inst : string) (input : list string)
    : M (option error * list string) :=
  let* brk := gets debugBreak in
  if brk then
    let* _ := prompt in
    match input with
    | [] =>
        let* err := command ip inst EmptyString in
        ret (err, [])
    | ln :: input =>
        let* err := command ip inst ln in
        match err with
        | Some e => ret (Some e, input)
        | None => Step_repl ip inst input
        end
    end
  else ret (None, input).

Definition Step_trace (inst : string) : M unit :=
  let* trace := gets traceInstructions in
  when trace
    (let* regs := gets r in
     let* off := gets (fun s => codeOffset (dev s)) in
     pushHistory
       ("| [" +:+ csToString regs +:+ ":0x"
        +:+ fmt_X (uint16 (processor.IP regs - off)) +:+ "] " +:+ inst)).

Definition Step (cycles : Z) (input : list string)
    : M (option error * list string) :=
  let* (ip, inst) := Step_checks in
  let* (err, input) := Step_repl ip inst input in
  match err with
  | Some e => ret (Some e, input)
  | None =>
      let* _ := Step_trace inst in
      ret (None, input)
  end.

(** *** States the debugger can be in

    The debugger starts as the zero value and is installed; from then
    on its methods run, and between them the processor executes
    instructions (which changes the registers and the store behind the
    other devices) and the operating system may deliver a signal. *)
Inductive reachable : State -> Prop :=
| reach_Install (self : D) (p : P) (s : State) :
    dev s = (Install self p zero).1.2 ->
    reachable s
| reach_Step (cycles : Z) (input : list string) (s s' : State) res :
    reachable s -> Step cycles input s = Some (res, s') -> reachable s'
| reach_ReadByte (addr : Z) (s s' : State) (v : Z) :
    reachable s -> ReadByte addr s = Some (v, s') -> reachable s'
| reach_WriteByte (addr data : Z) (s s' : State) :
    reachable s -> WriteByte addr data s = Some (tt, s') -> reachable s'
| reach_Break (s s' : State) :
    reachable s -> Break s = Some (tt, s') -> reachable s'
| reach_Continue (s s' : State) :
    reachable s -> Continue s = Some (tt, s') -> reachable s'
| reach_processor (regs : processor.Registers) (w : W) (s : State) :
    reachable s -> reachable (set_r regs (set_world w s))
| reach_signal (s : State) (c : chan unit) :
    reachable s ->
    chan_send tt (signChan (dev s)) = Some c ->
    reachable (set_dev (set_signChan c (dev s)) s).

(** The history channel is the one [Install] made and the counter of
    lost instructions is a [uint64]. *)
Record history_ok (s : State) : Prop := {
  history_cap : chan_cap (historyChan (dev s)) = 128%nat;
  history_len : (length (chan_buf (historyChan (dev s))) <= 128)%nat;
  history_lost : 0 <= numInstructionsLost (dev s) < 2 ^ 64
}.

(** A property of the state that an action keeps, whenever the action
    returns. *)
Definition preserves {A : Type} (I : State -> Prop) (c : M A) : Prop :=
  forall s a s', I s -> c s = Some (a, s') -> I s'.

(** Two states that differ at most in the history channel and the
    counter of lost instructions. *)
Definition same_outside_history (s s' : State) : Prop :=
  signChan (dev s') = signChan (dev s) /\
  lastInstruction (dev s') = lastInstruction (dev s) /\
  breakOnIRET (dev s') = breakOnIRET (dev s) /\
  breakpoints (dev s') = breakpoints (dev s) /\
  codeOffset (dev s') = codeOffset (dev s) /\
  memPeripherals (dev s') = memPeripherals (dev s) /\
  debugBreak s' = debugBreak s /\
  traceInstructions s' = traceInstructions s /\
  r s' = r s /\
  world s' = world s /\
  log s' = log s.

(** An update of the receiver that leaves the history alone. *)
Definition history_free (f : Device -> Device) : Prop :=
  forall m,
    historyChan (f m) = historyChan m /\
    numInstructionsLost (f m) = numInstructionsLost m.

(** What can be seen of a state from outside. *)
Record Outcome := mkOutcome {
  o_debugBreak : bool;
  o_Debug : bool;
  o_lastInstruction : Z;
  o_history : list string;
  o_lost : Z;
  o_log : list LogEntry
}.

Definition observe (s : State) : Outcome :=
  mkOutcome (debugBreak s) (processor.Debug (r s))
    (lastInstruction (dev s)) (chan_buf (historyChan (dev s)))
    (numInstructionsLost (dev s)) (log s).

(** The result of an action and what can be seen of the state it
    leaves. *)
Definition run {A : Type} (c : M A) (s : State) : option (A * Outcome) :=
  match c s with
  | Some (a, s') => Some (a, observe s')
  | None => None
  end.

(** [pushHistory] for each entry of a list in turn, as successive calls
    of [Step] do when tracing. *)
Fixpoint pushHistory_each (insts : list string) : M unit :=
  match insts with
  | [] => ret tt
  | inst :: insts =>
      let* _ := pushHistory inst in
      pushHistory_each insts
  end.

(** The name [showMemMap] gives the owner of an address. *)
Definition device_name (s : State) (i : Z) : string :=
  default "UNNAMED DEVICE" (memPeripherals (dev s) i ≫= Name).

(** The state an action leaves behind; the state it started from where
    it does not return. *)
Definition after {A : Type} (c : M A) (s : State) : State :=
  match c s with
  | Some (_, s') => s'
  | None => s
  end.

(** The bytes the processor reads at the addresses of a list, one after
    the other, and the store the last read leaves. *)
Fixpoint read_each (addrs : list Z) (w : W) : list Z * W :=
  match addrs with
  | [] => ([], w)
  | a :: addrs =>
      let (b, w) := p_ReadByte a w in
      let (bs, w) := read_each addrs w in
      (b :: bs, w)
  end.

(** The addresses of the characters of [n] cells of a text screen that
    starts at [p]: every second address. *)
Definition cells_from (p : Z) (n : nat) : list Z :=
  map (fun c : nat => p + 2 * Z.of_nat c) (seq 0 n).

End Debugger.

End debug.

(** ** A small machine

    A concrete set of devices, used to run the two peripherals: conventional
    memory, the CGA adapter, and the open bus. *)

Module machine.

Local Open Scope string_scope.
Local Open Scope Z_scope.

Inductive device := OpenBus | RAM | CGA | Debugger.

Record store := mkStore {
  ram : Z -> Z;
  video : cga.Device
}.

(** The open bus reads [0xFF] and ignores writes.  The debugger is a
    device of package [debug]; the store holds nothing for it. *)
Definition read (d : device) (addr : Z) (w : store) : Z * store :=
  match d with
  | RAM => (ram w addr, w)
  | CGA => (cga.ReadByte addr (video w), w)
  | OpenBus | Debugger => (0xFF, w)
  end.

Definition write (d : device) (addr data : Z) (w : store) : store :=
  match d with
  | RAM => mkStore (fun a => if a =? addr then data else ram w a) (video w)
  | CGA => mkStore (ram w) (cga.WriteByte addr data (video w))
  | OpenBus | Debugger => w
  end.

#[export] Instance store_Memory : memory.Memory device store := {|
  memory.ReadByte := read;
  memory.WriteByte := write
|}.

(** Modelled from the spec: the memory bus and the IO bus of the
    processor, implemented in package [processor].  A bus maps every
    address (every port) to its owner, the open bus by default; an
    installation fails when an address of the inclusive range already has
    an owner and makes the device the owner of the range otherwise. *)
Record bus := mkBus {
  mmap : Z -> device;
  iomap : Z -> device
}.

Definition fresh : bus := mkBus (fun _ => OpenBus) (fun _ => OpenBus).

Definition is_open (d : device) : bool :=
  match d with OpenBus => true | _ => false end.

(** None of the [n] addresses from [a] on has an owner. *)
Fixpoint free_from (n : positive) (a : Z) (owner : Z -> device) : bool :=
  match n with
  | xH => is_open (owner a)
  | xO n =>
      if free_from n a owner then free_from n (a + Zpos n) owner else false
  | xI n =>
      if is_open (owner a) then
        if free_from n (a + 1) owner
        then free_from n (a + 1 + Zpos n) owner
        else false
      else false
  end.

Definition range_free (owner : Z -> device) (from to : Z) : bool :=
  match to - from + 1 with
  | Zpos n => free_from n from owner
  | _ => true
  end.

Definition claim (d : device) (from to : Z) (owner : Z -> device)
    : Z -> device :=
  fun a => if (from <=? a) && (a <=? to) then d else owner a.

(** Modelled from the spec: [InstallMemoryDevice] of the processor, which
    claims the inclusive range and reports [AddressOverlap] when one of its
    addresses is taken. *)
Definition InstallMemoryDevice (d : device) (from to : Z) (b : bus)
    : option processor.error * bus :=
  if range_free (mmap b) from to
  then (None, mkBus (claim d from to (mmap b)) (iomap b))
  else (Some processor.AddressOverlap, b).

(** Modelled from the spec: [InstallIODevice] of the processor, which
    claims the inclusive range of ports and reports [PortOverlap] when one
    of them is taken. *)
Definition InstallIODevice (d : device) (from to : Z) (b : bus)
    : option processor.error * bus :=
  if range_free (iomap b) from to
  then (None, mkBus (mmap b) (claim d from to (iomap b)))
  else (Some processor.PortOverlap, b).

#[export] Instance bus_Processor : processor.Processor bus device := {|
  processor.InstallMemoryDevice := InstallMemoryDevice;
  processor.InstallIODevice := InstallIODevice;
  processor.GetMappedMemoryDevice := fun a b => mmap b a
|}.

(** The bus with 640 KiB of conventional memory. *)
Definition with_ram : bus := (InstallMemoryDevice RAM 0x0 0x9FFFF fresh).2.

Definition name (d : device) : option string :=
  match d with
  | RAM => Some "RAM"
  | CGA => Some "Color Graphics Adapter"
  | Debugger => Some "Debug Device"
  | OpenBus => None
  end.

(** The processor reads through the bus [b]; nothing is ever scanned
    successfully from a command line. *)
Definition host (b : bus) : debug.Host device store := {|
  debug.OpcodeName := fun _ => "NOP";
  debug.Name := name;
  debug.p_ReadByte := fun addr w => read (mmap b addr) addr w;
  debug.Sscanf_x := fun _ => None;
  debug.Sscanf_d := fun _ => None;
  debug.Sscanf_x_x := fun _ => []
|}.

#[export] Instance host_with_ram : debug.Host device store := host with_ram.

Definition blank_store : store := mkStore (fun _ => 0) cga.zero.

(** The debugger right after [Install] on the bus [with_ram]. *)
Definition installed : debug.Device :=
  (debug.Install Debugger with_ram debug.zero).1.2.

(** A state of the debugger at [cs:ip], stopped or running, with the
    history [hist] (oldest entry first) and the breakpoints [brs]. *)
Definition state_at (cs ip : Z) (stopped : bool) (hist : list string)
    (brs : list Z) : debug.State :=
  debug.mkState
    (debug.set_breakpoints brs
       (debug.set_historyChan (debug.mkChan 128 hist) installed))
    stopped true (processor.mkRegisters cs ip stopped) blank_store [].

(** Seventeen history entries, the oldest first. *)
Definition seventeen : list string :=
  ["e0"; "e1"; "e2"; "e3"; "e4"; "e5"; "e6"; "e7"; "e8"; "e9"; "e10";
   "e11"; "e12"; "e13"; "e14"; "e15"; "e16"].

(** A single step entered at [cs:ip], followed by the top of the next
    [Step] with the processor at [cs':ip']. *)
Definition step_then_checks (cs ip cs' ip' : Z)
    : debug.M (Z * string) :=
  debug.bind (debug.Step 1 ["s"])
    (fun _ =>
       debug.bind
         (debug.modify
            (debug.set_r (processor.mkRegisters cs' ip' false)))
         (fun _ => debug.Step_checks)).

(** *** Scanning numbers

    A scanner of whole numbers, to run the commands that take an
    argument: hexadecimal digits into a [uint16], and an optional minus
    sign with decimal digits into an [int]. *)

Definition digit_value (c : Ascii.ascii) : option Z :=
  let n := Z.of_N (Ascii.N_of_ascii c) in
  if (48 <=? n) && (n <=? 57) then Some (n - 48)
  else if (65 <=? n) && (n <=? 70) then Some (n - 55)
  else if (97 <=? n) && (n <=? 102) then Some (n - 87)
  else None.

Fixpoint scan_digits (base : Z) (s : string) (acc : Z) : option Z :=
  match s with
  | EmptyString => Some acc
  | String c s =>
      match digit_value c with
      | Some d =>
          if d <? base then scan_digits base s (acc * base + d) else None
      | None => None
      end
  end.

Definition scan_number (base : Z) (s : string) : option Z :=
  match s with
  | EmptyString => None
  | _ => scan_digits base s 0
  end.

Definition scan_hex16 (s : string) : option Z :=
  match scan_number 16 s with
  | Some n => if n <? 65536 then Some n else None
  | None => None
  end.

Definition scan_int (s : string) : option Z :=
  match s with
  | String c rest =>
      if Ascii.eqb c (Ascii.ascii_of_N 45) then Z.opp <$> scan_number 10 rest
      else scan_number 10 s
  | EmptyString => None
  end.

(** The host of [host], with the scanner in the place of [fmt.Sscanf]
    for one number. *)
Definition host_scanning (b : bus) : debug.Host device store := {|
  debug.OpcodeName := fun _ => "NOP";
  debug.Name := name;
  debug.p_ReadByte := fun addr w => read (mmap b addr) addr w;
  debug.Sscanf_x := scan_hex16;
  debug.Sscanf_d := scan_int;
  debug.Sscanf_x_x := fun _ => []
|}.

(** *** A traced run

    The entry [Step] pushes for the instruction at [F000:ip], which this
    machine reads as [0xFF] from the open bus. *)
Definition traced_entry (ip : Z) : string :=
  "| [BIOS:0x" +:+ debug.fmt_X ip +:+ "] NOP (0xFF)".

(** The entries pushed for the [n] instructions from [F000:0000] on, in
    the order they are pushed. *)
Definition traced (n : Z) : list string := map traced_entry (seqZ 0 n).

(** [n] instructions traced from [cs:ip] on: the processor moves to the
    next instruction and [Step] is called with no break pending. *)
Fixpoint trace_from (n : nat) (cs ip : Z) : debug.M unit :=
  match n with
  | O => debug.ret tt
  | S n =>
      debug.bind
        (debug.modify (debug.set_r (processor.mkRegisters cs ip false)))
        (fun _ =>
           debug.bind (debug.Step 1 [])
             (fun _ => trace_from n cs (ip + 1)))
  end.

(** The machine stopped by [Break] with the processor at [cs:ip], and
    the commands of [input] read from there. *)
Definition break_at (cs ip : Z) (input : list string)
    : debug.M (option debug.error * list string) :=
  debug.bind
    (debug.modify (debug.set_r (processor.mkRegisters cs ip false)))
    (fun _ => debug.bind debug.Break (fun _ => debug.Step 1 input)).

(** The machine after 128 traced instructions, from [F000:0000] on. *)
Definition full_trace : debug.State :=
  debug.after (trace_from 128 0xF000 0) (state_at 0xF000 0 false [] []).

(** *** A host that records its reads

    The store is the list of the addresses read so far, oldest first;
    every read yields the letter [A]. *)
Definition host_recording : debug.Host device (list Z) := {|
  debug.OpcodeName := fun _ => "NOP";
  debug.Name := name;
  debug.p_ReadByte := fun addr w => (0x41, (w ++ [addr])%list);
  debug.Sscanf_x := fun _ => None;
  debug.Sscanf_d := fun _ => None;
  debug.Sscanf_x_x := fun _ => []
|}.

(** The debugger stopped at [F000:0100], with nothing read yet. *)
Definition recording_start : debug.State (D := device) (W := list Z) :=
  debug.mkState installed true true
    (processor.mkRegisters 0xF000 0x100 true) [] [].

End machine.

(** * Properties *)

(** ** Machine integers *)

Lemma wrap_signed_small (bits x : Z) :
  0 < bits -> - 2 ^ (bits - 1) <= x < 2 ^ (bits - 1) -> wrap_signed bits x = x.
Proof.
  intros Hb Hx. unfold wrap_signed.
  assert (2 ^ bits = 2 * 2 ^ (bits - 1)) as E.
  { replace bits with (Z.succ (bits - 1)) at 1 by lia.
    rewrite Z.pow_succ_r by lia. reflexivity. }
  rewrite Z.mod_small by lia. lia.
Qed.

Lemma wrap_signed_range (bits x : Z) :
  0 < bits -> - 2 ^ (bits - 1) <= wrap_signed bits x < 2 ^ (bits - 1).
Proof.
  intros Hb. unfold wrap_signed.
  assert (2 ^ bits = 2 * 2 ^ (bits - 1)) as E.
  { replace bits with (Z.succ (bits - 1)) at 1 by lia.
    rewrite Z.pow_succ_r by lia. reflexivity. }
  assert (0 < 2 ^ (bits - 1)) by (apply Z.pow_pos_nonneg; lia).
  pose proof (Z.mod_pos_bound (x + 2 ^ (bits - 1)) (2 ^ bits)). lia.
Qed.

Lemma int64_small (x : Z) : is_int64 x -> int64 x = x.
Proof. intros H. apply wrap_signed_small; [lia | exact H]. Qed.

Lemma int64_range (x : Z) : is_int64 (int64 x).
Proof. apply (wrap_signed_range 64); lia. Qed.

(** ** The CGA adapter *)

Module cga_props.

Import cga.

(** The address decode keeps the low 14 bits of the offset from the
    base. *)
Lemma decode_mod (addr : Z) :
  decode addr = Z.to_nat ((addr - memoryBase) mod 0x4000).
Proof.
  unfold decode, memory.Pointer, uint32, wrap_unsigned, memorySize.
  change (0x4000 - 1) with (Z.ones 14).
  rewrite Z.land_ones by lia.
  f_equal. change (2 ^ 32) with 4294967296. change (2 ^ 14) with 16384.
  Z.div_mod_to_equations. lia.
Qed.

Lemma decode_lower (k : Z) :
  0 <= k < 0x4000 -> decode (0xB8000 + k) = Z.to_nat k.
Proof.
  intros Hk. rewrite decode_mod. unfold memoryBase. f_equal.
  Z.div_mod_to_equations. lia.
Qed.

Lemma decode_upper (k : Z) :
  0 <= k < 0x4000 -> decode (0xBC000 + k) = Z.to_nat k.
Proof.
  intros Hk. rewrite decode_mod. unfold memoryBase. f_equal.
  Z.div_mod_to_equations. lia.
Qed.

Lemma decode_in_range (addr : Z) : (decode addr < Z.to_nat memorySize)%nat.
Proof.
  rewrite decode_mod. unfold memorySize.
  pose proof (Z.mod_pos_bound (addr - memoryBase) 0x4000). lia.
Qed.

Lemma read_after_write (m : Device) (a b d : Z) :
  length (mem m) = Z.to_nat memorySize ->
  decode a = decode b ->
  ReadByte b (WriteByte a d m) = d.
Proof.
  intros Hlen Hab. unfold ReadByte, WriteByte. cbn.
  rewrite Hab. apply list_lookup_total_insert_eq.
  rewrite Hlen. apply decode_in_range.
Qed.

(** C1.  The frame buffer is seen twice: a byte written at [0xB8000 + k]
    is read back at [0xBC000 + k], and a byte written at [0xBC000 + k] is
    read back at [0xB8000 + k], for every [k] below [0x4000]. *)
Theorem framebuffer_aliasing (m : Device) (k d : Z) :
  length (mem m) = Z.to_nat memorySize ->
  0 <= k < 0x4000 ->
  is_byte d ->
  ReadByte (0xBC000 + k) (WriteByte (0xB8000 + k) d m) = d /\
  ReadByte (0xB8000 + k) (WriteByte (0xBC000 + k) d m) = d.
Proof.
  intros Hlen Hk _. split; apply read_after_write; trivial;
    rewrite decode_lower, decode_upper by lia; reflexivity.
Qed.

Lemma framebuffer_aliasing_witness :
  ReadByte (0xBC000 + 0x123) (WriteByte (0xB8000 + 0x123) 0x41 zero) = 0x41 /\
  ReadByte (0xB8000 + 0x123) (WriteByte (0xBC000 + 0x123) 0x41 zero) = 0x41.
Proof.
  apply (framebuffer_aliasing zero 0x123 0x41).
  - reflexivity.
  - lia.
  - unfold is_byte. lia.
Defined.

(** C6.  Reading port [0x3DA] returns the status register as it stands
    and leaves it with bit 0 cleared and its other bits as they were; a
    second read right after the first therefore has bit 0 clear. *)
Theorem status_latch (m : Device) :
  (In 0x3DA m).1 = statusReg m /\
  Z.testbit (statusReg (In 0x3DA m).2) 0 = false /\
  (forall i, 0 < i < 8 ->
     Z.testbit (statusReg (In 0x3DA m).2) i = Z.testbit (statusReg m) i) /\
  Z.testbit (In 0x3DA (In 0x3DA m).2).1 0 = false.
Proof.
  assert (forall m0, In 0x3DA m0 =
            (statusReg m0, set_statusReg (Z.land (statusReg m0) 0xFE) m0))
    as E by reflexivity.
  rewrite !E. cbn [fst snd statusReg set_statusReg].
  assert (Z.testbit (Z.land (statusReg m) 0xFE) 0 = false) as H0.
  { rewrite Z.land_spec. apply andb_false_r. }
  repeat split; trivial.
  intros i Hi. rewrite Z.land_spec.
  assert (i = 1 \/ i = 2 \/ i = 3 \/ i = 4 \/ i = 5 \/ i = 6 \/ i = 7)
    as Hcases by lia.
  destruct Hcases as [-> | [-> | [-> | [-> | [-> | [-> | ->]]]]]];
    apply andb_true_r.
Qed.

(** C10.  [Reset] puts the registers in their power-on values and
    touches neither the frame buffer, nor the CRT registers and their
    address latch, nor the surface. *)
Theorem Reset_frame (now : Z) (m : Device) :
  colorCtrlReg (Reset now m) = 0x20 /\
  modeCtrlReg (Reset now m) = 1 /\
  statusReg (Reset now m) = 0 /\
  cursorVisible (Reset now m) = true /\
  cursorPosition (Reset now m) = 0 /\
  currentScanline (Reset now m) = 0 /\
  mem (Reset now m) = mem m /\
  crtReg (Reset now m) = crtReg m /\
  crtAddr (Reset now m) = crtAddr m /\
  surface (Reset now m) = surface m.
Proof. unfold Reset. cbn. repeat split. Qed.

(** C2.  A successful [Install] makes the adapter the owner of address
    [0xC0000], one past the 32 KiB window that ends at [0xBFFFF], on any
    bus that hands out the inclusive range it is asked for. *)
Theorem Install_claims_0xC0000 {P D : Type} `{processor.ProcessorLaws P D}
    (self : D) (rnd : list Z) (m m' : Device) (p p' : P) :
  Install self rnd m p = (None, m', p') ->
  processor.GetMappedMemoryDevice 0xC0000 p' = self.
Proof.
  unfold Install. intros HI.
  destruct (processor.InstallMemoryDevice self memoryBase
              (memoryBase + memorySize * 2) p) as [[e1|] p1] eqn:E1;
    [discriminate|].
  destruct (processor.InstallIODevice self 0x3D0 0x3DF p1) as [[e2|] p2] eqn:E2;
    [discriminate|].
  assert (p2 = p') as <- by exact (f_equal snd HI).
  rewrite (processor.install_io_keeps_memory _ _ _ _ _ 0xC0000 E2).
  apply (processor.install_memory_claims _ _ _ _ _ 0xC0000 E1).
  unfold memoryBase, memorySize. lia.
Qed.

(** Projections of updated records. *)
Ltac fields :=
  cbn [dirtyMemory mem crtReg crtAddr modeCtrlReg colorCtrlReg statusReg
       lastScanline currentScanline cursorVisible prevCursorState
       cursorPosition surface atomicCycleCounter
       set_dirtyMemory set_mem set_crtReg set_crtAddr set_modeCtrlReg
       set_colorCtrlReg set_statusReg set_lastScanline set_currentScanline
       set_cursorVisible set_prevCursorState set_cursorPosition set_surface
       set_atomicCycleCounter fst snd] in *.

(** *** The scanline counter *)

Lemma elapsed_scanlines_bound (now : Z) (m : Device) :
  elapsed_scanlines now m < 2 ^ 62.
Proof.
  unfold elapsed_scanlines, scanlineTiming.
  pose proof (int64_range (now - lastScanline m)) as Hd.
  unfold is_int64 in Hd. change (2 ^ 63) with 9223372036854775808 in Hd.
  change (2 ^ 62) with 4611686018427387904.
  Z.quot_rem_to_equations. lia.
Qed.

(** What [Step] does to the counter and the status register when at
    least one scanline period has gone by. *)
Lemma Step_advance (now cycles : Z) (m : Device) :
  scanline_ok m ->
  0 < elapsed_scanlines now m ->
  currentScanline (Step now cycles m) =
    (currentScanline m + elapsed_scanlines now m) mod 525 /\
  statusReg (Step now cycles m) =
    Z.lor (if 479 <? currentScanline (Step now cycles m) then 8 else 0) 1.
Proof.
  intros Hm Hpos.
  pose proof (elapsed_scanlines_bound now m) as Hb.
  unfold Step. fields.
  fold (elapsed_scanlines now m).
  destruct (0 <? elapsed_scanlines now m) eqn:E; [|lia].
  set (n := elapsed_scanlines now m) in *.
  change (2 ^ 62) with 4611686018427387904 in Hb.
  assert (int n = n) as ->.
  { apply wrap_signed_small; [lia|].
    change (2 ^ (64 - 1)) with 9223372036854775808. lia. }
  assert (int (currentScanline m + n) = currentScanline m + n) as ->.
  { apply wrap_signed_small; [lia|].
    change (2 ^ (64 - 1)) with 9223372036854775808.
    unfold scanline_ok in Hm. lia. }
  assert (Z.rem (currentScanline m + n) 525 = (currentScanline m + n) mod 525)
    as ->.
  { unfold scanline_ok in Hm. apply Z.rem_mod_nonneg; lia. }
  destruct (479 <? (currentScanline m + n) mod 525) eqn:E479;
    fields; rewrite ?E479; split; reflexivity.
Qed.

Lemma Step_idle (now cycles : Z) (m : Device) :
  elapsed_scanlines now m <= 0 ->
  currentScanline (Step now cycles m) = currentScanline m /\
  statusReg (Step now cycles m) = statusReg m.
Proof.
  intros Hle. unfold Step. fields.
  fold (elapsed_scanlines now m).
  destruct (0 <? elapsed_scanlines now m) eqn:E; [lia|].
  cbn. split; reflexivity.
Qed.

Lemma Step_scanline_ok (now cycles : Z) (m : Device) :
  scanline_ok m -> scanline_ok (Step now cycles m).
Proof.
  intros Hm. unfold scanline_ok.
  destruct (Z.lt_ge_cases 0 (elapsed_scanlines now m)) as [Hpos | Hle].
  - destruct (Step_advance now cycles m Hm Hpos) as [-> _].
    apply Z.mod_pos_bound. lia.
  - destruct (Step_idle now cycles m Hle) as [-> _]. exact Hm.
Qed.

Lemma Install_currentScanline {P D : Type} `{processor.Processor P D}
    (self : D) (rnd : list Z) (m : Device) (p : P) :
  currentScanline (Install self rnd m p).1.2 = currentScanline m.
Proof.
  unfold Install.
  destruct (processor.InstallMemoryDevice _ _ _ _) as [[e1|] p1];
    [reflexivity|].
  destruct (processor.InstallIODevice _ _ _ _) as [[e2|] p2]; reflexivity.
Qed.

Lemma In_currentScanline (port : Z) (m : Device) :
  currentScanline (In port m).2 = currentScanline m.
Proof.
  unfold In.
  destruct (is_crt_data_port port); [reflexivity|].
  destruct (port =? 0x3DA); [reflexivity|].
  destruct (port =? 0x3D9); reflexivity.
Qed.

Lemma Out_currentScanline (port data : Z) (m : Device) :
  currentScanline (Out port data m) = currentScanline m.
Proof.
  unfold Out.
  destruct (is_crt_index_port port); [reflexivity|].
  destruct (is_crt_data_port port).
  - cbn [crtAddr set_crtReg set_dirtyMemory].
    destruct (crtAddr m =? 0xA); [reflexivity|].
    destruct (crtAddr m =? 0xE); [reflexivity|].
    destruct (crtAddr m =? 0xF); reflexivity.
  - destruct (port =? 0x3D8); [reflexivity|].
    destruct (port =? 0x3D9); reflexivity.
Qed.

(** The counter stays below 525 whatever the adapter goes through. *)
Lemma reachable_scanline_ok (m : Device) : reachable m -> scanline_ok m.
Proof.
  induction 1 as [ | P D HP self rnd p m _ IH | now m _ IH
                 | now cycles m _ IH | port m _ IH | port data m _ IH
                 | addr data m _ IH | dirty cycles blink surf m _ IH ];
    unfold scanline_ok in *.
  - cbn. lia.
  - rewrite Install_currentScanline. exact IH.
  - cbn. lia.
  - apply Step_scanline_ok. exact IH.
  - rewrite In_currentScanline. exact IH.
  - rewrite Out_currentScanline. exact IH.
  - exact IH.
  - exact IH.
Qed.

(** With a clock that has not run backwards and has not left the range
    of an [int64], the periods counted are those of the time gone by. *)
Lemma elapsed_scanlines_periods (now : Z) (m : Device) :
  0 <= lastScanline m <= now -> now < 2 ^ 63 ->
  elapsed_scanlines now m = (now - lastScanline m) / scanlineTiming.
Proof.
  intros Hl Hn. unfold elapsed_scanlines.
  rewrite int64_small by (unfold is_int64; lia).
  apply Z.quot_div_nonneg; unfold scanlineTiming; lia.
Qed.

(** C7.  After [Step] the scanline counter lies in [0, 525).  When at
    least one scanline period has gone by, the counter has advanced by
    the number of whole periods, modulo 525, bit 3 of the status register
    tells whether the new counter exceeds 479, and bit 0 is set;
    otherwise counter and status register are as before.  The periods
    counted are those of the time gone by on a clock that runs forward
    within the range of an [int64]. *)
Theorem scanline_invariant (now cycles : Z) (m : Device) :
  reachable m ->
  0 <= currentScanline (Step now cycles m) < 525 /\
  (0 < elapsed_scanlines now m ->
     currentScanline (Step now cycles m) =
       (currentScanline m + elapsed_scanlines now m) mod 525 /\
     Z.testbit (statusReg (Step now cycles m)) 3 =
       (479 <? currentScanline (Step now cycles m)) /\
     Z.testbit (statusReg (Step now cycles m)) 0 = true) /\
  (elapsed_scanlines now m <= 0 ->
     currentScanline (Step now cycles m) = currentScanline m /\
     statusReg (Step now cycles m) = statusReg m) /\
  (0 <= lastScanline m <= now -> now < 2 ^ 63 ->
     elapsed_scanlines now m = (now - lastScanline m) / scanlineTiming).
Proof.
  intros Hr. pose proof (reachable_scanline_ok m Hr) as Hm.
  split; [apply Step_scanline_ok; exact Hm|].
  split; [|split; [apply Step_idle | apply elapsed_scanlines_periods]].
  intros Hpos. destruct (Step_advance now cycles m Hm Hpos) as [Hc Hs].
  split; [exact Hc|]. rewrite Hs.
  destruct (479 <? currentScanline (Step now cycles m)); split; reflexivity.
Qed.

Lemma scanline_invariant_witness :
  0 <= currentScanline (Step 16000000 4 (Reset 0 zero)) < 525 /\
  (0 < elapsed_scanlines 16000000 (Reset 0 zero) ->
     currentScanline (Step 16000000 4 (Reset 0 zero)) =
       (currentScanline (Reset 0 zero)
        + elapsed_scanlines 16000000 (Reset 0 zero)) mod 525 /\
     Z.testbit (statusReg (Step 16000000 4 (Reset 0 zero))) 3 =
       (479 <? currentScanline (Step 16000000 4 (Reset 0 zero))) /\
     Z.testbit (statusReg (Step 16000000 4 (Reset 0 zero))) 0 = true) /\
  (elapsed_scanlines 16000000 (Reset 0 zero) <= 0 ->
     currentScanline (Step 16000000 4 (Reset 0 zero)) =
       currentScanline (Reset 0 zero) /\
     statusReg (Step 16000000 4 (Reset 0 zero)) = statusReg (Reset 0 zero)) /\
  (0 <= lastScanline (Reset 0 zero) <= 16000000 -> 16000000 < 2 ^ 63 ->
     elapsed_scanlines 16000000 (Reset 0 zero) =
       (16000000 - lastScanline (Reset 0 zero)) / scanlineTiming).
Proof.
  apply (scanline_invariant 16000000 4 (Reset 0 zero)).
  apply reach_Reset. apply reach_zero.
Defined.

(** *** Bytes *)

Lemma uint16_byte (x : Z) : 0 <= x < 256 -> uint16 x = x.
Proof.
  intros Hx. apply Z.mod_small. change (2 ^ 16) with 65536. lia.
Qed.

Lemma land_byte (x : Z) : 0 <= x < 256 -> Z.land x 0xFF = x.
Proof.
  intros Hx. change 0xFF with (Z.ones 8). rewrite Z.land_ones by lia.
  apply Z.mod_small. change (2 ^ 8) with 256. lia.
Qed.

(** Two bytes side by side. *)
Lemma lor_shifted_byte (hi lo : Z) :
  0 <= hi < 256 -> 0 <= lo < 256 ->
  Z.lor (Z.shiftl hi 8) lo = hi * 256 + lo.
Proof.
  intros Hhi Hlo.
  assert (Z.land (Z.shiftl hi 8) lo = 0) as Hdisjoint.
  { rewrite <- (land_byte lo) by lia.
    rewrite (Z.land_comm lo), Z.land_assoc.
    change 0xFF with (Z.ones 8). rewrite (Z.land_ones (Z.shiftl hi 8)) by lia.
    rewrite Z.shiftl_mul_pow2 by lia. rewrite Z.mod_mul by (cbn; lia).
    apply Z.land_0_l. }
  pose proof (Z.add_lor_land (Z.shiftl hi 8) lo) as Hadd.
  rewrite Hdisjoint, Z.add_0_r in Hadd. rewrite Hadd.
  rewrite Z.shiftl_mul_pow2 by lia. reflexivity.
Qed.

(** *** Ports *)

Lemma is_crt_index_not_data (port : Z) :
  is_crt_index_port port = true -> is_crt_data_port port = false.
Proof.
  unfold is_crt_index_port, is_crt_data_port. intros H.
  repeat (apply orb_true_iff in H; destruct H as [H | H]);
    apply Z.eqb_eq in H; subst port; reflexivity.
Qed.

Lemma is_crt_data_not_index (port : Z) :
  is_crt_data_port port = true -> is_crt_index_port port = false.
Proof.
  unfold is_crt_index_port, is_crt_data_port. intros H.
  repeat (apply orb_true_iff in H; destruct H as [H | H]);
    apply Z.eqb_eq in H; subst port; reflexivity.
Qed.

Lemma Out_index (port data : Z) (m : Device) :
  is_crt_index_port port = true ->
  Out port data m = set_crtAddr data (set_dirtyMemory 1 m).
Proof. intros H. unfold Out. rewrite H. reflexivity. Qed.

Lemma Out_data_crtReg (port data : Z) (m : Device) :
  is_crt_data_port port = true ->
  crtReg (Out port data m) = <[Z.to_nat (crtAddr m) := data]> (crtReg m) /\
  crtAddr (Out port data m) = crtAddr m.
Proof.
  intros H. unfold Out. rewrite (is_crt_data_not_index port H), H. fields.
  destruct (crtAddr m =? 0xA); [split; reflexivity|].
  destruct (crtAddr m =? 0xE); [split; reflexivity|].
  destruct (crtAddr m =? 0xF); split; reflexivity.
Qed.

(** X1.  The CRT registers read back: after an index port has been
    written with [idx] and a data port with [v], a data port reads [v]. *)
Theorem crt_register_round_trip (m : Device) (pi pd pd' idx v : Z) :
  length (crtReg m) = 256%nat ->
  is_crt_index_port pi = true ->
  is_crt_data_port pd = true ->
  is_crt_data_port pd' = true ->
  0 <= idx < 256 ->
  (In pd' (Out pd v (Out pi idx m))).1 = v.
Proof.
  intros Hlen Hpi Hpd Hpd' Hidx.
  unfold In. rewrite Hpd'. cbn [fst].
  destruct (Out_data_crtReg pd v (Out pi idx m) Hpd) as [-> ->].
  rewrite (Out_index pi idx m Hpi). fields.
  apply list_lookup_total_insert_eq. lia.
Qed.

Lemma crt_register_round_trip_witness :
  (In 0x3D5 (Out 0x3D5 0x4F (Out 0x3D4 0x0C zero))).1 = 0x4F.
Proof.
  apply (crt_register_round_trip zero 0x3D4 0x3D5 0x3D5 0x0C 0x4F);
    try reflexivity; lia.
Defined.

(** X2.  The cursor position is put together from the CRT registers
    [0x0E] (high byte) and [0x0F] (low byte): once both have been written
    it is [hi * 256 + lo], whatever it was before. *)
Theorem cursor_position_from_registers (m : Device) (hi lo : Z) :
  0 <= hi < 256 ->
  0 <= lo < 256 ->
  cursorPosition
    (Out 0x3D5 lo (Out 0x3D4 0xF (Out 0x3D5 hi (Out 0x3D4 0xE m)))) =
    hi * 256 + lo.
Proof.
  intros Hhi Hlo. unfold Out. cbn -[Z.land Z.lor Z.shiftl uint16].
  rewrite (uint16_byte hi), (uint16_byte lo) by lia.
  assert (uint16 (Z.shiftl hi 8) = Z.shiftl hi 8) as ->.
  { rewrite Z.shiftl_mul_pow2 by lia. apply Z.mod_small.
    change (2 ^ 8) with 256. change (2 ^ 16) with 65536. lia. }
  rewrite Z.land_lor_distr_l.
  rewrite <- (Z.land_assoc _ 0xFF 0xFF00).
  change (Z.land 0xFF 0xFF00) with 0. rewrite Z.land_0_r, Z.lor_0_l.
  change 0xFF00 with (Z.shiftl 0xFF 8). rewrite <- Z.shiftl_land.
  rewrite (land_byte hi) by lia.
  apply lor_shifted_byte; assumption.
Qed.

Lemma cursor_position_from_registers_witness :
  cursorPosition
    (Out 0x3D5 0xD0 (Out 0x3D4 0xF (Out 0x3D5 0x07 (Out 0x3D4 0xE zero)))) =
    0x07 * 256 + 0xD0.
Proof.
  apply (cursor_position_from_registers zero 0x07 0xD0); lia.
Defined.

(** X3.  The cursor is shown exactly when bit 5 of what is written to CRT
    register [0x0A] is clear. *)
Theorem cursor_visible_bit (m : Device) (data : Z) :
  cursorVisible (Out 0x3D5 data (Out 0x3D4 0xA m)) =
    negb (Z.testbit data 5).
Proof.
  unfold Out. cbn -[Z.land Z.testbit].
  change 0x20 with (Z.shiftl 1 5) at 1.
  destruct (Z.testbit data 5) eqn:E.
  - cbn [negb]. apply Z.eqb_neq. intros H0.
    assert (Z.testbit (Z.land data (Z.shiftl 1 5)) 5 = true) as Hb.
    { rewrite Z.land_spec, E. reflexivity. }
    change (Z.shiftl 1 5) with 32 in *. rewrite H0 in Hb. discriminate.
  - cbn [negb]. apply Z.eqb_eq. apply Z.bits_inj'. intros n Hn.
    rewrite Z.land_spec, Z.bits_0.
    destruct (Z.eq_dec n 5) as [-> | Hne]; [rewrite E; reflexivity|].
    replace (Z.testbit (Z.shiftl 1 5) n) with false; [apply andb_false_r|].
    symmetry. rewrite Z.shiftl_spec by lia.
    destruct (Z.lt_ge_cases n 5) as [Hlt | Hge].
    + apply Z.testbit_neg_r. lia.
    + apply Z.bits_above_log2; cbn; lia.
Qed.

(** The colour control register reads back at port [0x3D9]; the mode
    control register, written at port [0x3D8], does not: that port reads
    zero. *)
Lemma color_reads_back_mode_does_not (m : Device) (data : Z) :
  (In 0x3D9 (Out 0x3D9 data m)).1 = data /\
  (In 0x3D8 (Out 0x3D8 data m)).1 = 0 /\
  modeCtrlReg (Out 0x3D8 data m) = data.
Proof. repeat split. Qed.

(** X5.  A write to the frame buffer changes one cell: an address whose
    offset differs from the one written, modulo 16 KiB, reads as
    before. *)
Theorem write_leaves_other_cells (m : Device) (a b d : Z) :
  (a - b) mod 0x4000 <> 0 ->
  ReadByte b (WriteByte a d m) = ReadByte b m.
Proof.
  intros Hne. unfold ReadByte, WriteByte. fields.
  apply list_lookup_total_insert_ne.
  rewrite !decode_mod. intros Heq. apply Hne.
  apply Z2Nat.inj in Heq;
    try (apply Z.mod_pos_bound; lia).
  unfold memoryBase in Heq. revert Heq.
  generalize (Z.mod_pos_bound (a - 0xB8000) 0x4000).
  generalize (Z.mod_pos_bound (b - 0xB8000) 0x4000).
  Z.div_mod_to_equations. lia.
Qed.

Lemma write_leaves_other_cells_witness :
  ReadByte 0xB8001 (WriteByte 0xB8000 0x41 zero) = ReadByte 0xB8001 zero.
Proof.
  apply (write_leaves_other_cells zero 0xB8000 0xB8001 0x41).
  discriminate.
Defined.

(** X6.  [Out] marks the memory dirty whatever the port, and never
    touches the frame buffer, the status register, the scanline counter
    and its time stamp, or the surface. *)
Theorem Out_frame (port data : Z) (m : Device) :
  dirtyMemory (Out port data m) = 1 /\
  mem (Out port data m) = mem m /\
  statusReg (Out port data m) = statusReg m /\
  currentScanline (Out port data m) = currentScanline m /\
  lastScanline (Out port data m) = lastScanline m /\
  surface (Out port data m) = surface m.
Proof.
  unfold Out.
  destruct (is_crt_index_port port); [repeat split|].
  destruct (is_crt_data_port port).
  - fields.
    destruct (crtAddr m =? 0xA); [repeat split|].
    destruct (crtAddr m =? 0xE); [repeat split|].
    destruct (crtAddr m =? 0xF); repeat split.
  - destruct (port =? 0x3D8); [repeat split|].
    destruct (port =? 0x3D9); repeat split.
Qed.

(** X7.  Reading a port other than [0x3DA] leaves the adapter as it
    is. *)
Theorem In_leaves_state (port : Z) (m : Device) :
  port <> 0x3DA -> (In port m).2 = m.
Proof.
  intros Hne. unfold In.
  destruct (is_crt_data_port port); [reflexivity|].
  destruct (port =? 0x3DA) eqn:E; [apply Z.eqb_eq in E; contradiction|].
  destruct (port =? 0x3D9); reflexivity.
Qed.

Lemma In_leaves_state_witness : (In 0x3D5 zero).2 = zero.
Proof. apply (In_leaves_state 0x3D5 zero). discriminate. Defined.

(** *** The values of the status register *)

Lemma In_statusReg (port : Z) (m : Device) :
  statusReg (In port m).2 = statusReg m \/
  statusReg (In port m).2 = Z.land (statusReg m) 0xFE.
Proof.
  unfold In.
  destruct (is_crt_data_port port); [left; reflexivity|].
  destruct (port =? 0x3DA); [right; reflexivity|].
  destruct (port =? 0x3D9); left; reflexivity.
Qed.

Lemma Install_statusReg {P D : Type} `{processor.Processor P D}
    (self : D) (rnd : list Z) (m : Device) (p : P) :
  statusReg (Install self rnd m p).1.2 = statusReg m.
Proof.
  unfold Install.
  destruct (processor.InstallMemoryDevice _ _ _ _) as [[e1|] p1];
    [reflexivity|].
  destruct (processor.InstallIODevice _ _ _ _) as [[e2|] p2]; reflexivity.
Qed.

(** X8.  The status register only ever holds the bits 0 and 3: in every
    state the adapter can reach it is 0, 1, 8 or 9. *)
Theorem status_register_values (m : Device) :
  reachable m ->
  statusReg m = 0 \/ statusReg m = 1 \/ statusReg m = 8 \/ statusReg m = 9.
Proof.
  induction 1 as [ | P D HP self rnd p m Hr IH | now m _ IH
                 | now cycles m Hr IH | port m _ IH | port data m _ IH
                 | addr data m _ IH | dirty cycles blink surf m _ IH ].
  - left. reflexivity.
  - rewrite Install_statusReg. exact IH.
  - left. reflexivity.
  - destruct (Z.lt_ge_cases 0 (elapsed_scanlines now m)) as [Hpos | Hle].
    + destruct (Step_advance now cycles m (reachable_scanline_ok m Hr) Hpos)
        as [_ ->].
      destruct (479 <? currentScanline (Step now cycles m)); cbn; auto.
    + destruct (Step_idle now cycles m Hle) as [_ ->]. exact IH.
  - destruct (In_statusReg port m) as [-> | ->]; [exact IH|].
    destruct IH as [-> | [-> | [-> | ->]]]; cbn; auto.
  - destruct (Out_frame port data m) as (_ & _ & -> & _). exact IH.
  - exact IH.
  - exact IH.
Qed.

Lemma status_register_values_witness :
  statusReg (Step 16000000 4 (Reset 0 zero)) = 0 \/
  statusReg (Step 16000000 4 (Reset 0 zero)) = 1 \/
  statusReg (Step 16000000 4 (Reset 0 zero)) = 8 \/
  statusReg (Step 16000000 4 (Reset 0 zero)) = 9.
Proof.
  apply (status_register_values (Step 16000000 4 (Reset 0 zero))).
  apply reach_Step, reach_Reset, reach_zero.
Defined.

(** *** Steps one after the other *)

(** [Step] in terms of the periods gone by, for a counter in range. *)
Lemma Step_lastScanline (now cycles : Z) (m : Device) :
  0 <= lastScanline m <= now -> now < 2 ^ 63 ->
  lastScanline (Step now cycles m) =
    lastScanline m + elapsed_scanlines now m * scanlineTiming.
Proof.
  intros Hl Hn.
  pose proof (elapsed_scanlines_periods now m Hl Hn) as Hper.
  unfold Step. fields. fold (elapsed_scanlines now m).
  assert (int64 (now - lastScanline m) = now - lastScanline m) as Hd
    by (apply int64_small; unfold is_int64; lia).
  rewrite Hper. unfold scanlineTiming in *.
  destruct (0 <? (now - lastScanline m) / 31469) eqn:E.
  - fields. rewrite Hd.
    match goal with
    | |- context [if ?b then _ else _] => destruct b
    end; fields;
      rewrite (Z.rem_mod_nonneg (now - lastScanline m) 31469) by lia;
      (rewrite int64_small;
       [ Z.div_mod_to_equations; lia
       | unfold is_int64; change (2 ^ 63) with 9223372036854775808 in *;
         Z.div_mod_to_equations; lia ]).
  - apply Z.ltb_ge in E.
    assert ((now - lastScanline m) / 31469 = 0) as ->
      by (Z.div_mod_to_equations; lia).
    fields. lia.
Qed.

Lemma Step_counter (now cycles : Z) (m : Device) :
  scanline_ok m ->
  0 <= lastScanline m <= now -> now < 2 ^ 63 ->
  currentScanline (Step now cycles m) =
    (currentScanline m + (now - lastScanline m) / scanlineTiming) mod 525.
Proof.
  intros Hok Hl Hn.
  pose proof (elapsed_scanlines_periods now m Hl Hn) as Hper.
  destruct (Z.lt_ge_cases 0 (elapsed_scanlines now m)) as [Hpos | Hle].
  - destruct (Step_advance now cycles m Hok Hpos) as [-> _].
    rewrite Hper. reflexivity.
  - destruct (Step_idle now cycles m Hle) as [-> _].
    rewrite <- Hper.
    assert (elapsed_scanlines now m = 0) as ->.
    { rewrite Hper in *. unfold scanlineTiming in *.
      Z.div_mod_to_equations. lia. }
    rewrite Z.add_0_r. symmetry. apply Z.mod_small. exact Hok.
Qed.

(** X9.  Two steps in a row count the scanlines of one: with a clock
    that runs forward, [Step] at [t1] followed by [Step] at [t2] leaves
    the scanline counter, the time stamp of the last scanline and the
    status register as a single [Step] at [t2] does.  No part of a
    scanline period is lost between calls. *)
Theorem Step_twice (t1 t2 c1 c2 c : Z) (m : Device) :
  scanline_ok m ->
  0 <= lastScanline m <= t1 -> t1 <= t2 -> t2 < 2 ^ 63 ->
  currentScanline (Step t2 c2 (Step t1 c1 m)) =
    currentScanline (Step t2 c m) /\
  lastScanline (Step t2 c2 (Step t1 c1 m)) = lastScanline (Step t2 c m) /\
  statusReg (Step t2 c2 (Step t1 c1 m)) = statusReg (Step t2 c m).
Proof.
  intros Hok Hl H12 H2.
  pose proof (Step_scanline_ok t1 c1 m Hok) as Hok1.
  pose proof (Step_lastScanline t1 c1 m Hl ltac:(lia)) as Hlast1.
  pose proof (elapsed_scanlines_periods t1 m Hl ltac:(lia)) as Hper1.
  assert (0 <= lastScanline (Step t1 c1 m) <= t1) as Hl1.
  { rewrite Hlast1, Hper1. unfold scanlineTiming.
    Z.div_mod_to_equations. lia. }
  assert ((t2 - lastScanline m) / scanlineTiming =
          (t1 - lastScanline m) / scanlineTiming
          + (t2 - lastScanline (Step t1 c1 m)) / scanlineTiming) as Hsum.
  { rewrite Hlast1, Hper1. unfold scanlineTiming.
    replace (t2 - (lastScanline m + (t1 - lastScanline m) / 31469 * 31469))
      with (t2 - lastScanline m
            + - ((t1 - lastScanline m) / 31469) * 31469) by lia.
    rewrite Z.div_add by lia. lia. }
  assert (currentScanline (Step t2 c2 (Step t1 c1 m)) =
          currentScanline (Step t2 c m)) as Hcounter.
  { rewrite (Step_counter t2 c2 (Step t1 c1 m)) by (trivial; lia).
    rewrite (Step_counter t1 c1 m) by (trivial; lia).
    rewrite (Step_counter t2 c m) by (trivial; lia).
    rewrite Hsum, Z.add_assoc, Z.add_mod_idemp_l by lia. reflexivity. }
  split; [exact Hcounter|]. split.
  - rewrite (Step_lastScanline t2 c2 (Step t1 c1 m)) by lia.
    rewrite (Step_lastScanline t2 c m) by lia.
    rewrite (elapsed_scanlines_periods t2 (Step t1 c1 m)) by lia.
    rewrite (elapsed_scanlines_periods t2 m) by lia.
    rewrite Hlast1 at 1. rewrite Hper1, Hsum. lia.
  - pose proof (elapsed_scanlines_periods t2 (Step t1 c1 m) ltac:(lia) H2)
      as Hper2.
    pose proof (elapsed_scanlines_periods t2 m ltac:(lia) H2) as Hper.
    destruct (Z.lt_ge_cases 0 (elapsed_scanlines t2 (Step t1 c1 m)))
      as [Hpos2 | Hle2].
    + destruct (Step_advance t2 c2 (Step t1 c1 m) Hok1 Hpos2) as [_ ->].
      assert (0 <= elapsed_scanlines t1 m).
      { rewrite Hper1. unfold scanlineTiming. Z.div_mod_to_equations. lia. }
      destruct (Step_advance t2 c m Hok) as [_ ->]; [lia|].
      rewrite Hcounter. reflexivity.
    + destruct (Step_idle t2 c2 (Step t1 c1 m) Hle2) as [Hc2 ->].
      assert (elapsed_scanlines t2 (Step t1 c1 m) = 0) as Hz.
      { rewrite Hper2 in *. unfold scanlineTiming in *.
        Z.div_mod_to_equations. lia. }
      assert (elapsed_scanlines t2 m = elapsed_scanlines t1 m) as Hsame
        by lia.
      destruct (Z.lt_ge_cases 0 (elapsed_scanlines t1 m)) as [Hpos1 | Hle1].
      * destruct (Step_advance t1 c1 m Hok Hpos1) as [_ ->].
        destruct (Step_advance t2 c m Hok) as [_ ->]; [lia|].
        rewrite <- Hcounter, Hc2. reflexivity.
      * destruct (Step_idle t1 c1 m Hle1) as [_ ->].
        destruct (Step_idle t2 c m) as [_ ->]; [lia | reflexivity].
Qed.

Lemma Step_twice_witness :
  currentScanline (Step 20000000 3 (Step 16000000 4 (Reset 0 zero))) =
    currentScanline (Step 20000000 7 (Reset 0 zero)) /\
  lastScanline (Step 20000000 3 (Step 16000000 4 (Reset 0 zero))) =
    lastScanline (Step 20000000 7 (Reset 0 zero)) /\
  statusReg (Step 20000000 3 (Step 16000000 4 (Reset 0 zero))) =
    statusReg (Step 20000000 7 (Reset 0 zero)).
Proof.
  apply (Step_twice 16000000 20000000 4 3 7 (Reset 0 zero)).
  - unfold scanline_ok. cbn. lia.
  - cbn. lia.
  - lia.
  - lia.
Defined.

(** *** The render task: one pixel *)

Lemma int_small (x : Z) : - 2 ^ 63 <= x < 2 ^ 63 -> int x = x.
Proof. intros H. apply wrap_signed_small; [lia | exact H]. Qed.

Lemma uint8_small (x : Z) : 0 <= x < 256 -> uint8 x = x.
Proof. intros H. apply Z.mod_small. exact H. Qed.

Lemma land_0xFF_range (x : Z) : 0 <= Z.land x 0xFF < 256.
Proof.
  change 0xFF with (Z.ones 8). rewrite Z.land_ones by lia.
  apply Z.mod_pos_bound. lia.
Qed.

Lemma red_component (c : Z) :
  uint8 (Z.shiftr (Z.land c 0xFF0000) 16) = Z.land (Z.shiftr c 16) 0xFF.
Proof.
  rewrite Z.shiftr_land. change (Z.shiftr 0xFF0000 16) with 0xFF.
  apply uint8_small, land_0xFF_range.
Qed.

Lemma green_component (c : Z) :
  uint8 (Z.shiftr (Z.land c 0x00FF00) 8) = Z.land (Z.shiftr c 8) 0xFF.
Proof.
  rewrite Z.shiftr_land. change (Z.shiftr 0x00FF00 8) with 0xFF.
  apply uint8_small, land_0xFF_range.
Qed.

Lemma blue_component (c : Z) : uint8 (Z.land c 0x0000FF) = Z.land c 0xFF.
Proof. apply uint8_small, land_0xFF_range. Qed.

Lemma put_at (pre mid rest : list Z) (x v i : Z) :
  i = Z.of_nat (length (pre ++ mid)) ->
  put (pre ++ mid ++ x :: rest) i v = Some (pre ++ mid ++ v :: rest).
Proof.
  intros ->. unfold put. rewrite !app_assoc.
  rewrite (length_app (pre ++ mid)). cbn [length].
  destruct (0 <=? Z.of_nat (length (pre ++ mid))) eqn:E0;
    [|apply Z.leb_gt in E0; lia].
  destruct (Z.of_nat (length (pre ++ mid))
            <? Z.of_nat (length (pre ++ mid) + S (length rest))) eqn:E1;
    [|apply Z.ltb_ge in E1; lia].
  cbn [andb]. rewrite Nat2Z.id. f_equal.
  rewrite insert_app_r_alt by lia. rewrite Nat.sub_diag. reflexivity.
Qed.

(** [blit32] at the end of [pre] overwrites the four bytes that
    follow. *)
Lemma blit32_app (pre old rest : list Z) (offset color : Z) :
  offset = Z.of_nat (length pre) ->
  length old = 4%nat ->
  Z.of_nat (length (pre ++ old ++ rest)) <= 2 ^ 63 ->
  blit32 (pre ++ old ++ rest) offset color = Some (pre ++ rgba color ++ rest).
Proof.
  intros -> Hold Hlen.
  destruct old as [|a [|b [|c [|d [|]]]]]; try discriminate Hold.
  rewrite !length_app in Hlen. cbn [length] in Hlen.
  unfold blit32. rewrite red_component, green_component, blue_component.
  rewrite !int_small by lia.
  set (r := Z.land (Z.shiftr color 16) 255).
  set (g := Z.land (Z.shiftr color 8) 255).
  set (bl := Z.land color 255).
  pose proof (put_at pre [] (b :: c :: d :: rest) a r (Z.of_nat (length pre)))
    as E0.
  pose proof (put_at pre [r] (c :: d :: rest) b g (Z.of_nat (length pre) + 1))
    as E1.
  pose proof (put_at pre [r; g] (d :: rest) c bl (Z.of_nat (length pre) + 2))
    as E2.
  pose proof (put_at pre [r; g; bl] rest d 0xFF (Z.of_nat (length pre) + 3))
    as E3.
  rewrite length_app in E0, E1, E2, E3. cbn [length app] in E0, E1, E2, E3.
  cbn [app]. rewrite E0, E1, E2, E3 by lia. reflexivity.
Qed.

(** X24.  [blit32] stores a colour as the four bytes red, green, blue
    and [0xFF] from the offset on, and touches no other byte of the
    surface; the three bytes of a 24-bit colour put together give the
    colour back. *)
Theorem blit32_stores (pixels : list Z) (offset color : Z) :
  0 <= offset ->
  offset + 3 < Z.of_nat (length pixels) ->
  Z.of_nat (length pixels) <= 2 ^ 63 ->
  exists r g b,
    blit32 pixels offset color =
      Some (take (Z.to_nat offset) pixels ++ [r; g; b; 0xFF]
            ++ drop (Z.to_nat offset + 4) pixels) /\
    is_byte r /\ is_byte g /\ is_byte b /\
    (0 <= color < 2 ^ 24 -> r * 2 ^ 16 + g * 2 ^ 8 + b = color).
Proof.
  intros Hoff Hend Hlen.
  exists (Z.land (Z.shiftr color 16) 0xFF), (Z.land (Z.shiftr color 8) 0xFF),
    (Z.land color 0xFF).
  split; [|split; [|split; [|split]]]; try apply land_0xFF_range.
  - rewrite <- (take_drop (Z.to_nat offset) pixels) at 1.
    rewrite <- (take_drop 4 (drop (Z.to_nat offset) pixels)) at 1.
    rewrite drop_drop.
    rewrite (Nat.add_comm (Z.to_nat offset) 4) at 1.
    replace (4 + Z.to_nat offset)%nat with (Z.to_nat offset + 4)%nat by lia.
    apply blit32_app.
    + rewrite length_take. lia.
    + rewrite length_take, length_drop. lia.
    + rewrite !length_app, !length_take, !length_drop. lia.
  - intros Hc. change 0xFF with (Z.ones 8).
    rewrite !Z.land_ones, !Z.shiftr_div_pow2 by lia.
    change (2 ^ 24) with 16777216 in Hc.
    change (2 ^ 16) with 65536. change (2 ^ 8) with 256.
    Z.div_mod_to_equations. lia.
Qed.

Lemma blit32_stores_witness :
  exists r g b,
    blit32 [1; 2; 3; 4; 5; 6] 1 0xAA5500 = Some [1; r; g; b; 0xFF; 6] /\
    is_byte r /\ is_byte g /\ is_byte b /\
    (0 <= 0xAA5500 < 2 ^ 24 -> r * 2 ^ 16 + g * 2 ^ 8 + b = 0xAA5500).
Proof.
  apply (blit32_stores [1; 2; 3; 4; 5; 6] 1 0xAA5500).
  - lia.
  - cbn. lia.
  - cbn. lia.
Defined.

(** *** The render task: the graphics modes *)

Lemma at_Some (l : list Z) (i : Z) :
  0 <= i < Z.of_nat (length l) -> at_ l i = Some (l !!! Z.to_nat i).
Proof.
  intros Hi. unfold at_.
  destruct (0 <=? i) eqn:E; [|apply Z.leb_gt in E; lia].
  apply list_lookup_lookup_total_lt. lia.
Qed.

(** A loop whose pass [j] rewrites the [k] bytes that follow what the
    passes before it have written. *)
Lemma loop_segments (k : nat) (seg : Z -> list Z)
    (body : Z -> list Z -> option (list Z)) (size : nat) :
  (forall j, length (seg j) = k) ->
  forall (n : nat) (i : Z) (pre old rest : list Z),
    (forall j pre' old' rest',
       i <= j < i + Z.of_nat n ->
       length pre' = (length pre + k * Z.to_nat (j - i))%nat ->
       length old' = k ->
       length (pre' ++ old' ++ rest') = size ->
       body j (pre' ++ old' ++ rest') = Some (pre' ++ seg j ++ rest')) ->
    length old = (n * k)%nat ->
    length (pre ++ old ++ rest) = size ->
    loop n i 1 body (pre ++ old ++ rest) =
      Some (pre ++ flat_map seg (seqZ i (Z.of_nat n)) ++ rest).
Proof.
  intros Hseg n. induction n as [|n IH]; intros i pre old rest Hbody Hold Hsize.
  - destruct old; [|discriminate Hold]. reflexivity.
  - cbn [loop].
    rewrite <- (take_drop k old), <- app_assoc.
    assert (length (take k old) = k) as Htake by (rewrite length_take; lia).
    assert (length (drop k old) = (n * k)%nat) as Hdrop
      by (rewrite length_drop; lia).
    rewrite (Hbody i pre (take k old) (drop k old ++ rest)); try lia.
    2: { rewrite (app_assoc (take k old)), take_drop. exact Hsize. }
    rewrite (app_assoc pre (seg i)).
    rewrite (IH (i + 1) (pre ++ seg i) (drop k old) rest).
    + rewrite (seqZ_cons i (Z.of_nat (S n))) by lia. cbn [flat_map].
      replace (Z.succ i) with (i + 1) by lia.
      replace (Z.pred (Z.of_nat (S n))) with (Z.of_nat n) by lia.
      rewrite <- !app_assoc. reflexivity.
    + intros j pre' old' rest' Hj Hpre Hold' Hsize'.
      apply Hbody; try lia.
      rewrite Hpre, length_app, Hseg.
      replace (Z.to_nat (j - i)) with (S (Z.to_nat (j - (i + 1)))) by lia.
      lia.
    + exact Hdrop.
    + rewrite <- Hsize, !length_app, Hseg, Hdrop, Hold. lia.
Qed.

Lemma land_1_odd (a : Z) : Z.land a 1 = if Z.odd a then 1 else 0.
Proof.
  change 1 with (Z.ones 1) at 1. rewrite Z.land_ones by lia.
  change (2 ^ 1) with 2. apply Zmod_odd.
Qed.

Lemma line_cell (x y d : Z) :
  0 <= y < 200 -> 0 <= x < 80 * d -> 0 < d ->
  0 <= y / 2 * 80 + y mod 2 * 8192 + x / d < 0x4000.
Proof.
  intros Hy Hx Hd.
  assert (0 <= x / d < 80).
  { split; [apply Z.div_pos; lia|]. apply Z.div_lt_upper_bound; lia. }
  Z.div_mod_to_equations. lia.
Qed.

(** A pixel of the high-resolution mode. *)
Lemma high_pixel (m : Device) (x y : Z) (dst : list Z) :
  length (mem m) = Z.to_nat memorySize ->
  0 <= x < 640 -> 0 <= y < 200 ->
  (let? b := at_ (mem m)
               (Z.shiftr y 1 * 80 + Z.land y 1 * 8192 + Z.shiftr x 3) in
   let? col :=
     at_ cgaColor (uint8 (Z.land (Z.shiftr b (7 - Z.land x 7)) 1 * 15)) in
   blit32 dst ((y * 640 + x) * 4) col)
  = blit32 dst ((y * 640 + x) * 4) (high_color m x y).
Proof.
  intros Hmem Hx Hy. unfold high_color.
  assert (Z.shiftr y 1 = y / 2) as -> by (apply Z.shiftr_div_pow2; lia).
  assert (Z.shiftr x 3 = x / 8) as -> by (apply Z.shiftr_div_pow2; lia).
  assert (Z.land y 1 = y mod 2) as -> by (apply (Z.land_ones y 1); lia).
  assert (Z.land x 7 = x mod 8) as -> by (apply (Z.land_ones x 3); lia).
  pose proof (line_cell x y 8 Hy) as Hcell.
  rewrite at_Some by (rewrite Hmem; unfold memorySize; lia).
  rewrite land_1_odd, <- Z.testbit_odd.
  destruct (Z.testbit _ _); reflexivity.
Qed.

Lemma length_flat_map_segments (f : Z -> list Z) (c : nat) (l : list Z) :
  (forall x, length (f x) = c) -> length (flat_map f l) = (length l * c)%nat.
Proof.
  intros Hf. induction l as [|x l IH]; [reflexivity|].
  cbn [flat_map length]. rewrite length_app, Hf, IH. lia.
Qed.

Lemma render_high_spec (m : Device) (dst : list Z) :
  length (mem m) = Z.to_nat memorySize ->
  length dst = Z.to_nat (640 * 200 * 4) ->
  render_high m dst =
    Some (flat_map
            (fun y => flat_map (fun x => rgba (high_color m x y)) (seqZ 0 640))
            (seqZ 0 200)).
Proof.
  intros Hmem Hdst. unfold render_high.
  assert (forall y,
            length (flat_map (fun x => rgba (high_color m x y)) (seqZ 0 640))
            = 2560%nat) as Hrow.
  { intros y. rewrite (length_flat_map_segments _ 4) by reflexivity.
    rewrite length_seqZ. reflexivity. }
  rewrite <- (app_nil_r dst), <- (app_nil_l (dst ++ [])).
  rewrite (loop_segments 2560
             (fun y =>
                flat_map (fun x => rgba (high_color m x y)) (seqZ 0 640))
             _ (Z.to_nat (640 * 200 * 4)) Hrow 200 0 [] dst []).
  - rewrite app_nil_r. reflexivity.
  - intros y pre old rest Hy Hpre Hold Hsize.
    cbn [length] in Hpre.
    apply (loop_segments 4 (fun x => rgba (high_color m x y))
             _ (Z.to_nat (640 * 200 * 4)) (fun _ => eq_refl) 640 0).
    + intros x pre' old' rest' Hx Hpre' Hold' Hsize'.
      rewrite high_pixel by (trivial; lia).
      apply blit32_app; [lia | exact Hold' | rewrite Hsize'; lia].
    + exact Hold.
    + exact Hsize.
  - lia.
  - rewrite app_nil_r. exact Hdst.
Qed.

Lemma blit32_twice (pre old rest : list Z) (offset color : Z) :
  offset = Z.of_nat (length pre) ->
  length old = 8%nat ->
  Z.of_nat (length (pre ++ old ++ rest)) <= 2 ^ 63 ->
  (let? dst := blit32 (pre ++ old ++ rest) offset color in
   blit32 dst (offset + 4) color)
  = Some (pre ++ (rgba color ++ rgba color) ++ rest).
Proof.
  intros Hoff Hold Hlen.
  rewrite <- (take_drop 4 old), <- (app_assoc (take 4 old)).
  assert (length (take 4 old) = 4%nat) as Htake
    by (rewrite length_take; lia).
  assert (length (drop 4 old) = 4%nat) as Hdrop
    by (rewrite length_drop; lia).
  assert (length (pre ++ take 4 old ++ drop 4 old ++ rest)
          = length (pre ++ old ++ rest)) as Hsame
    by (rewrite (app_assoc (take 4 old)), take_drop; reflexivity).
  rewrite blit32_app; [|exact Hoff|exact Htake|rewrite Hsame; exact Hlen].
  rewrite (app_assoc pre (rgba color)).
  rewrite blit32_app.
  - rewrite <- !app_assoc. reflexivity.
  - rewrite length_app. cbn [rgba length]. lia.
  - exact Hdrop.
  - rewrite !length_app in *. cbn [rgba length]. lia.
Qed.

(** A pixel of the four-colour mode. *)
Lemma low_pixel (m : Device) (backgroundColor x y : Z) (dst : list Z) :
  length (mem m) = Z.to_nat memorySize ->
  backgroundColor = cgaColor !!! Z.to_nat (colorCtrlReg m mod 16) ->
  0 <= x < 320 -> 0 <= y < 200 ->
  (let? pixel :=
     at_ (mem m) (Z.shiftr y 1 * 80 + Z.land y 1 * 8192 + Z.shiftr x 2) in
   let pixel :=
     match Z.land x 3 with
     | 0 => Z.land (Z.shiftr pixel 6) 3
     | 1 => Z.land (Z.shiftr pixel 4) 3
     | 2 => Z.land (Z.shiftr pixel 2) 3
     | 3 => Z.land pixel 3
     | _ => pixel
     end in
   let? col :=
     if negb (pixel =? 0) then
       at_ cgaColor
         (uint8 (uint8 (uint8 (pixel * 2)
                        + Z.land (Z.shiftr (colorCtrlReg m) 5) 1)
                 + uint8 (Z.shiftl (Z.land (Z.shiftr (colorCtrlReg m) 4) 1)
                            3)))
     else Some backgroundColor in
   let? dst := blit32 dst ((y * 640 + x * 2) * 4) col in
   blit32 dst ((y * 640 + x * 2) * 4 + 4) col)
  = (let? dst := blit32 dst ((y * 640 + x * 2) * 4) (low_color m x y) in
     blit32 dst ((y * 640 + x * 2) * 4 + 4) (low_color m x y)).
Proof.
  intros Hmem Hbg Hx Hy. unfold low_color.
  assert (Z.shiftr y 1 = y / 2) as -> by (apply Z.shiftr_div_pow2; lia).
  assert (Z.shiftr x 2 = x / 4) as -> by (apply Z.shiftr_div_pow2; lia).
  assert (Z.land y 1 = y mod 2) as -> by (apply (Z.land_ones y 1); lia).
  assert (Z.land x 3 = x mod 4) as -> by (apply (Z.land_ones x 2); lia).
  pose proof (line_cell x y 4 Hy) as Hcell.
  rewrite at_Some by (rewrite Hmem; unfold memorySize; lia).
  set (b := mem m !!! Z.to_nat (y / 2 * 80 + y mod 2 * 8192 + x / 4)).
  cbv beta iota zeta.
  set (p := (b / 4 ^ (3 - x mod 4)) mod 4).
  assert (match x mod 4 with
          | 0 => Z.land (Z.shiftr b 6) 3
          | 1 => Z.land (Z.shiftr b 4) 3
          | 2 => Z.land (Z.shiftr b 2) 3
          | 3 => Z.land b 3
          | _ => b
          end = p) as ->.
  { subst p.
    assert (forall n, 0 <= n -> Z.land (Z.shiftr b n) 3 = (b / 2 ^ n) mod 4)
      as Hbits.
    { intros n Hn. rewrite Z.shiftr_div_pow2 by exact Hn.
      apply (Z.land_ones _ 2). lia. }
    assert (x mod 4 = 0 \/ x mod 4 = 1 \/ x mod 4 = 2 \/ x mod 4 = 3)
      as [-> | [-> | [-> | ->]]]
      by (pose proof (Z.mod_pos_bound x 4); lia).
    - rewrite Hbits by lia. reflexivity.
    - rewrite Hbits by lia. reflexivity.
    - rewrite Hbits by lia. reflexivity.
    - change (4 ^ (3 - 3)) with 1. rewrite Z.div_1_r.
      apply (Z.land_ones _ 2). lia. }
  assert (0 <= p < 4) as Hp by (apply Z.mod_pos_bound; lia).
  assert (Z.land (Z.shiftr (colorCtrlReg m) 5) 1 = colorCtrlReg m / 32 mod 2)
    as ->.
  { rewrite Z.shiftr_div_pow2 by lia. apply (Z.land_ones _ 1). lia. }
  assert (Z.land (Z.shiftr (colorCtrlReg m) 4) 1 = colorCtrlReg m / 16 mod 2)
    as ->.
  { rewrite Z.shiftr_div_pow2 by lia. apply (Z.land_ones _ 1). lia. }
  set (pal := colorCtrlReg m / 32 mod 2).
  set (hi := colorCtrlReg m / 16 mod 2).
  assert (0 <= pal < 2) as Hpal by (apply Z.mod_pos_bound; lia).
  assert (0 <= hi < 2) as Hhi by (apply Z.mod_pos_bound; lia).
  rewrite Z.shiftl_mul_pow2 by lia. change (2 ^ 3) with 8.
  rewrite (uint8_small (p * 2)), (uint8_small (hi * 8)),
    (uint8_small (p * 2 + pal)), (uint8_small (p * 2 + pal + hi * 8)) by lia.
  rewrite <- Hbg.
  destruct (p =? 0) eqn:Ep; cbn [negb]; [reflexivity|].
  apply Z.eqb_neq in Ep.
  rewrite at_Some by (cbn [cgaColor length]; lia).
  replace (p * 2 + pal + hi * 8) with (2 * p + pal + 8 * hi) by lia.
  reflexivity.
Qed.

Lemma render_low_spec (m : Device) (backgroundColor : Z) (dst : list Z) :
  length (mem m) = Z.to_nat memorySize ->
  length dst = Z.to_nat (640 * 200 * 4) ->
  backgroundColor = cgaColor !!! Z.to_nat (colorCtrlReg m mod 16) ->
  render_low backgroundColor m dst =
    Some (flat_map
            (fun y =>
               flat_map
                 (fun x => rgba (low_color m x y) ++ rgba (low_color m x y))
                 (seqZ 0 320))
            (seqZ 0 200)).
Proof.
  intros Hmem Hdst Hbg. unfold render_low.
  assert (forall y,
            length (flat_map
                      (fun x =>
                         rgba (low_color m x y) ++ rgba (low_color m x y))
                      (seqZ 0 320))
            = 2560%nat) as Hrow.
  { intros y. rewrite (length_flat_map_segments _ 8) by reflexivity.
    rewrite length_seqZ. reflexivity. }
  rewrite <- (app_nil_r dst), <- (app_nil_l (dst ++ [])).
  rewrite (loop_segments 2560
             (fun y =>
                flat_map
                  (fun x => rgba (low_color m x y) ++ rgba (low_color m x y))
                  (seqZ 0 320))
             _ (Z.to_nat (640 * 200 * 4)) Hrow 200 0 [] dst []).
  - rewrite app_nil_r. reflexivity.
  - intros y pre old rest Hy Hpre Hold Hsize.
    cbn [length] in Hpre.
    apply (loop_segments 8
             (fun x => rgba (low_color m x y) ++ rgba (low_color m x y))
             _ (Z.to_nat (640 * 200 * 4)) (fun _ => eq_refl) 320 0).
    + intros x pre' old' rest' Hx Hpre' Hold' Hsize'.
      rewrite low_pixel by (trivial; lia).
      apply blit32_twice; [lia | exact Hold' | rewrite Hsize'; lia].
    + exact Hold.
    + exact Hsize.
  - lia.
  - rewrite app_nil_r. exact Hdst.
Qed.

(** *** The render task: a tick *)

Lemma border_red (c : Z) : uint8 (Z.land c 0xFF0000) = 0.
Proof.
  unfold uint8, wrap_unsigned. rewrite <- Z.land_ones by lia.
  rewrite <- Z.land_assoc. apply Z.land_0_r.
Qed.

Lemma border_green (c : Z) : uint8 (Z.land c 0x00FF00) = 0.
Proof.
  unfold uint8, wrap_unsigned. rewrite <- Z.land_ones by lia.
  rewrite <- Z.land_assoc. apply Z.land_0_r.
Qed.

Lemma background_color (m : Device) :
  at_ cgaColor (Z.land (colorCtrlReg m) 0xF) =
    Some (cgaColor !!! Z.to_nat (colorCtrlReg m mod 16)).
Proof.
  assert (Z.land (colorCtrlReg m) 0xF = colorCtrlReg m mod 16) as ->
    by (apply (Z.land_ones _ 4); lia).
  apply at_Some. cbn [cgaColor length].
  pose proof (Z.mod_pos_bound (colorCtrlReg m) 16). lia.
Qed.

Lemma redraw_due (m : Device) (blink : bool) :
  dirtyMemory m <> 0 \/ prevCursorState m <> blink ->
  negb (dirtyMemory m =? 0) || negb (eqb (prevCursorState m) blink) = true.
Proof.
  intros [H | H].
  - apply Z.eqb_neq in H. rewrite H. reflexivity.
  - apply orb_true_iff. right. apply negb_true_iff.
    apply eqb_false_iff. exact H.
Qed.

Section Font.

Variable cgaFont : list Z.

(** X25.  The border colour handed to the platform has no red and no
    green: in every call of [RenderGraphics] the render task makes, the
    red and the green component are zero and the blue component is the
    low byte of the background colour.  The two high bytes of the colour
    are masked but not shifted down before the conversion to [byte]. *)
Theorem border_red_green_zero (title : option bool) (blink : bool)
    (blinks : Z -> bool) (cliMode : bool) (m m' : Device)
    (calls : list call) :
  render cgaFont title blink blinks cliMode m = Some (calls, m') ->
  forall pixels r g b,
    List.In (RenderGraphics pixels r g b) calls ->
    r = 0 /\ g = 0 /\
    b = Z.land (cgaColor !!! Z.to_nat (colorCtrlReg m mod 16)) 0xFF.
Proof.
  intros Hrun pixels r g b Hin. unfold render in Hrun.
  destruct title as [expired|]; cbv beta iota zeta in Hrun; fields;
    rewrite background_color in Hrun;
    repeat match type of Hrun with
           | context [if ?c then _ else _] => destruct c eqn:?
           | context [match ?c with Some _ => _ | None => _ end] =>
               destruct c eqn:?
           end;
    try discriminate Hrun;
    injection Hrun as <- <-;
    cbn [app] in Hin;
    repeat match type of Hin with
           | List.In _ (_ :: _) => destruct Hin as [Hin | Hin]
           | List.In _ [] => destruct Hin
           end;
    try discriminate Hin;
    injection Hin as _ <- <- <-;
    rewrite border_red, border_green, blue_component; repeat split.
Qed.

(** X26.  A tick in the high-resolution graphics mode draws the whole
    surface: 200 lines of 640 pixels, four bytes a pixel, each pixel
    white or black as its bit of the frame buffer is set or clear.  The
    tick does not fail, clears the dirty flag and leaves the frame
    buffer alone. *)
Theorem render_high_resolution (title : option bool) (blink : bool)
    (blinks : Z -> bool) (cliMode : bool) (m : Device) :
  sized m ->
  Z.land (modeCtrlReg m) 2 <> 0 ->
  Z.land (modeCtrlReg m) 0x10 <> 0 ->
  dirtyMemory m <> 0 \/ prevCursorState m <> blink ->
  exists calls m',
    render cgaFont title blink blinks cliMode m =
      Some (calls ++ [RenderGraphics (surface m') 0 0
                        (Z.land (cgaColor !!! Z.to_nat (colorCtrlReg m mod 16))
                           0xFF)],
            m') /\
    surface m' =
      flat_map
        (fun y => flat_map (fun x => rgba (high_color m x y)) (seqZ 0 640))
        (seqZ 0 200) /\
    dirtyMemory m' = 0 /\
    prevCursorState m' = blink /\
    mem m' = mem m.
Proof.
  intros [Hmem Hsurf] Hgfx Hhigh Hdue.
  apply redraw_due in Hdue. apply Z.eqb_neq in Hgfx, Hhigh.
  unfold render.
  destruct title as [expired|]; cbv beta iota zeta; fields;
    rewrite Hdue, background_color, Hgfx, Hhigh; cbn [negb];
    rewrite border_red, border_green, blue_component;
    (rewrite render_high_spec; [|exact Hmem|exact Hsurf]);
    eexists _, (set_surface _ _); (split; [reflexivity|]); fields;
    (split; [reflexivity|]); repeat split.
Qed.

(** X27.  A tick in the four-colour graphics mode draws 200 lines of 320
    pixels, each two pixels of the surface wide: a pixel of value zero
    in the background colour, the others in the colour of the selected
    palette and intensity.  The tick does not fail, clears the dirty
    flag and leaves the frame buffer alone. *)
Theorem render_four_colours (title : option bool) (blink : bool)
    (blinks : Z -> bool) (cliMode : bool) (m : Device) :
  sized m ->
  Z.land (modeCtrlReg m) 2 <> 0 ->
  Z.land (modeCtrlReg m) 0x10 = 0 ->
  dirtyMemory m <> 0 \/ prevCursorState m <> blink ->
  exists calls m',
    render cgaFont title blink blinks cliMode m =
      Some (calls ++ [RenderGraphics (surface m') 0 0
                        (Z.land (cgaColor !!! Z.to_nat (colorCtrlReg m mod 16))
                           0xFF)],
            m') /\
    surface m' =
      flat_map
        (fun y =>
           flat_map
             (fun x => rgba (low_color m x y) ++ rgba (low_color m x y))
             (seqZ 0 320))
        (seqZ 0 200) /\
    dirtyMemory m' = 0 /\
    prevCursorState m' = blink /\
    mem m' = mem m.
Proof.
  intros [Hmem Hsurf] Hgfx Hlow Hdue.
  apply redraw_due in Hdue. apply Z.eqb_neq in Hgfx. apply Z.eqb_eq in Hlow.
  unfold render.
  destruct title as [expired|]; cbv beta iota zeta; fields;
    rewrite Hdue, background_color, Hgfx, Hlow; cbn [negb];
    rewrite border_red, border_green, blue_component;
    (rewrite render_low_spec; [|exact Hmem|exact Hsurf|reflexivity]);
    eexists _, (set_surface _ _); (split; [reflexivity|]); fields;
    (split; [reflexivity|]); repeat split.
Qed.

End Font.

Lemma sized_blank (mode : Z) : sized (blank mode).
Proof.
  split; unfold blank, zero; fields; apply length_replicate.
Qed.

Lemma render_high_resolution_witness :
  exists calls m',
    render [] None false (fun _ => false) false (blank 0x1A) =
      Some (calls ++ [RenderGraphics (surface m') 0 0 0], m') /\
    surface m' =
      flat_map
        (fun y =>
           flat_map (fun x => rgba (high_color (blank 0x1A) x y)) (seqZ 0 640))
        (seqZ 0 200) /\
    dirtyMemory m' = 0 /\
    prevCursorState m' = false /\
    mem m' = mem (blank 0x1A).
Proof.
  apply (render_high_resolution [] None false (fun _ => false) false
           (blank 0x1A)).
  - apply sized_blank.
  - unfold blank. fields. discriminate.
  - unfold blank. fields. first [discriminate | reflexivity].
  - left. unfold blank. fields. discriminate.
Defined.

Lemma render_four_colours_witness :
  exists calls m',
    render [] None false (fun _ => false) false (blank 0x0A) =
      Some (calls ++ [RenderGraphics (surface m') 0 0 0], m') /\
    surface m' =
      flat_map
        (fun y =>
           flat_map
             (fun x =>
                rgba (low_color (blank 0x0A) x y)
                ++ rgba (low_color (blank 0x0A) x y))
             (seqZ 0 320))
        (seqZ 0 200) /\
    dirtyMemory m' = 0 /\
    prevCursorState m' = false /\
    mem m' = mem (blank 0x0A).
Proof.
  apply (render_four_colours [] None false (fun _ => false) false
           (blank 0x0A)).
  - apply sized_blank.
  - unfold blank. fields. discriminate.
  - unfold blank. fields. first [discriminate | reflexivity].
  - left. unfold blank. fields. discriminate.
Defined.

(** *** The render task: the text mode *)

Lemma page_high_byte (b : Z) : uint8 (Z.shiftl b 8) = 0.
Proof.
  unfold uint8, wrap_unsigned. rewrite Z.shiftl_mul_pow2 by lia.
  apply Z.mod_mul. lia.
Qed.

Lemma videoPage_low_byte (m : Device) : videoPage m = crtReg m !!! 13%nat.
Proof. unfold videoPage. rewrite page_high_byte. reflexivity. Qed.

Lemma redrawn_refl (m : Device) : redrawn m m.
Proof. exists (surface m). split; [destruct m; reflexivity | reflexivity]. Qed.

Lemma redrawn_trans (m1 m2 m3 : Device) :
  redrawn m1 m2 -> redrawn m2 m3 -> redrawn m1 m3.
Proof.
  intros (p2 & -> & H2) (p3 & -> & H3). exists p3.
  split; [reflexivity|]. fields. congruence.
Qed.

Lemma redrawn_fields (m m' : Device) :
  redrawn m m' ->
  length (surface m') = length (surface m) /\
  mem m' = mem m /\
  modeCtrlReg m' = modeCtrlReg m /\
  cursorPosition m' = cursorPosition m.
Proof. intros (px & -> & Hpx). fields. repeat split. exact Hpx. Qed.

Lemma typed_cell (m : Device) (i : Z) :
  sized m -> typed m -> 0 <= i < 0x4000 ->
  at_ (mem m) i = Some (mem m !!! Z.to_nat i) /\
  is_byte (mem m !!! Z.to_nat i).
Proof.
  intros [Hmem _] [Hbytes _ _ _] Hi. unfold memorySize in Hmem. split.
  - apply at_Some. lia.
  - apply (proj1 (Forall_lookup_total _ _) Hbytes). lia.
Qed.

Lemma typed_videoPage (m : Device) : typed m -> is_byte (videoPage m).
Proof.
  intros [_ Hbytes Hlen _]. rewrite videoPage_low_byte.
  apply (proj1 (Forall_lookup_total _ _) Hbytes). lia.
Qed.

Lemma typed_blank (mode : Z) : typed (blank mode).
Proof.
  assert (forall n, Forall is_byte (replicate n 0)) as Hzero.
  { intros n. apply Forall_replicate. unfold is_byte. lia. }
  split; unfold blank, zero; fields.
  - apply Hzero.
  - apply Hzero.
  - apply length_replicate.
  - lia.
Qed.

(** A tick on the blank adapter in the high-resolution mode. *)
Lemma render_blank_high :
  exists pixels m',
    render [] None false (fun _ => false) false (blank 0x1A) =
      Some ([RenderGraphics pixels 0 0 0], m').
Proof.
  destruct (sized_blank 0x1A) as [Hmem Hsurf].
  unfold render. cbv beta iota zeta.
  rewrite background_color.
  change (negb (dirtyMemory (blank 0x1A) =? 0)) with true.
  cbn [orb]. fields.
  change (Z.land (modeCtrlReg (blank 0x1A)) 2 =? 0) with false.
  change (Z.land (modeCtrlReg (blank 0x1A)) 16 =? 0) with false.
  cbn [negb].
  rewrite render_high_spec; [|exact Hmem|exact Hsurf].
  rewrite border_red, border_green, blue_component.
  eexists _, _. reflexivity.
Qed.

Lemma border_red_green_zero_witness :
  exists calls m',
    render [] None false (fun _ => false) false (blank 0x1A) =
      Some (calls, m') /\
    (exists pixels, List.In (RenderGraphics pixels 0 0 0) calls) /\
    forall pixels r g b,
      List.In (RenderGraphics pixels r g b) calls ->
      r = 0 /\ g = 0 /\
      b = Z.land (cgaColor !!! Z.to_nat (colorCtrlReg (blank 0x1A) mod 16))
            0xFF.
Proof.
  destruct render_blank_high as (pixels & m' & Hrun).
  exists [RenderGraphics pixels 0 0 0], m'.
  split; [exact Hrun|]. split; [exists pixels; left; reflexivity|].
  exact (border_red_green_zero [] None false (fun _ => false) false
           (blank 0x1A) m' [RenderGraphics pixels 0 0 0] Hrun).
Defined.

(** *** The start of the text page *)

Lemma loop_commute {St : Type} (g : St -> St) (n : nat) (i step : Z)
    (body : Z -> St -> option St) (s : St) :
  (forall j s, body j (g s) = g <$> body j s) ->
  loop n i step body (g s) = g <$> loop n i step body s.
Proof.
  intros Hbody. revert i s. induction n as [|n IH]; intros i s.
  - reflexivity.
  - cbn [loop]. rewrite Hbody.
    destruct (body i s) as [s1|]; [|reflexivity].
    cbn [fmap option_fmap option_map]. apply IH.
Qed.

Section Font.

Variable cgaFont : list Z.

Lemma blitChar_crtReg (regs : list Z) (blink : bool) (ch attrib x y : Z)
    (m : Device) :
  blitChar cgaFont blink ch attrib x y (set_crtReg regs m) =
    set_crtReg regs <$> blitChar cgaFont blink ch attrib x y m.
Proof.
  unfold blitChar. fields.
  destruct (if negb (Z.land attrib 128 =? 0)
            then
              if negb (Z.land (modeCtrlReg m) 32 =? 0)
              then
                if blink
                then (Z.shiftr (Z.land attrib 112) 4,
                      Z.shiftr (Z.land attrib 112) 4)
                else (Z.shiftr (Z.land attrib 112) 4, Z.land attrib 15)
              else (uint8 (Z.shiftr (Z.land attrib 112) 4 + 8),
                    Z.land attrib 15)
            else (Z.shiftr (Z.land attrib 112) 4, Z.land attrib 15))
    as [bgi fgi].
  destruct (at_ cgaColor bgi) as [bgColor|]; [|reflexivity].
  destruct (at_ cgaColor fgi) as [fgColor|]; [|reflexivity].
  match goal with
  | |- context [loop 8 0 1 ?body (surface m)] =>
      destruct (loop 8 0 1 body (surface m)) as [px|]
  end; reflexivity.
Qed.

Lemma render_text_crtReg (v : Z) (blink : bool) (blinks : Z -> bool)
    (numCol : Z) (m : Device) :
  render_text cgaFont blink blinks numCol
    (set_crtReg (<[0xC%nat := v]> (crtReg m)) m) =
  set_crtReg (<[0xC%nat := v]> (crtReg m))
    <$> render_text cgaFont blink blinks numCol m.
Proof.
  unfold render_text.
  assert (videoPage (set_crtReg (<[12%nat := v]> (crtReg m)) m) = videoPage m)
    as ->.
  { rewrite !videoPage_low_byte. fields.
    apply list_lookup_total_insert_ne. discriminate. }
  set (g := set_crtReg (<[12%nat := v]> (crtReg m))).
  rewrite (loop_commute g).
  - match goal with
    | |- context [loop ?n 0 2 ?body m] =>
        destruct (loop n 0 2 body m) as [m1|]
    end; [|reflexivity].
    cbn [fmap option_fmap option_map]. subst g. fields.
    destruct (blink && cursorVisible m1); [|reflexivity].
    destruct ((Z.rem (cursorPosition m1) numCol <? 80)
              && (Z.quot (cursorPosition m1) numCol <? 25)); [|reflexivity].
    match goal with
    | |- context [at_ (mem m1) ?i] => destruct (at_ (mem m1) i) as [a|]
    end; [|reflexivity].
    apply blitChar_crtReg.
  - intros j s. subst g. fields.
    destruct (at_ (mem s) (videoPage m + j)) as [ch|]; [|reflexivity].
    destruct (at_ (mem s) (videoPage m + j + 1)) as [attrib|];
      [|reflexivity].
    apply blitChar_crtReg.
Qed.

(** X29.  The start of the text page is the CRT register [0xD] alone.
    The register [0xC], meant to be its high byte, is shifted as a [byte]
    and lost: whatever is stored in it, a tick makes the same calls to the
    platform and leaves the adapter in the same state. *)
Theorem text_page_ignores_high_byte (v : Z) (title : option bool)
    (blink : bool) (blinks : Z -> bool) (cliMode : bool) (m : Device) :
  render cgaFont title blink blinks cliMode
    (set_crtReg (<[0xC%nat := v]> (crtReg m)) m) =
  (fun '(calls, m') => (calls, set_crtReg (<[0xC%nat := v]> (crtReg m)) m'))
    <$> render cgaFont title blink blinks cliMode m.
Proof.
  unfold render.
  destruct title as [expired|]; cbv beta iota zeta; fields;
    (destruct (negb (dirtyMemory m =? 0)
               || negb (eqb (prevCursorState m) blink)); [|reflexivity]);
    rewrite background_color;
    (destruct (negb (Z.land (modeCtrlReg m) 2 =? 0));
     [destruct (negb (Z.land (modeCtrlReg m) 16 =? 0));
      unfold render_high, render_low; fields;
      match goal with
      | |- context [loop 200 0 1 ?body ?s] => destruct (loop 200 0 1 body s)
      end; reflexivity
     |]);
    (destruct cliMode;
     [destruct (negb (dirtyMemory m =? 0)); [|reflexivity];
      destruct (cursorVisible m);
      match goal with
      | |- context [if ?c then _ else _] => destruct c
      end; reflexivity
     |]);
    match goal with
    | |- ?lhs = ?rhs =>
        match lhs with
        | context [render_text cgaFont blink blinks ?n ?mL] =>
            match rhs with
            | context [render_text cgaFont blink blinks n ?mR] =>
                change mL with (set_crtReg (<[12%nat := v]> (crtReg mR)) mR);
                rewrite (render_text_crtReg v blink blinks n mR);
                destruct (render_text cgaFont blink blinks n mR)
            end
        end
    end; reflexivity.
Qed.

End Font.

(** *** The render task: the picture of the text mode *)

Lemma pixel_lookup (s : list Z) (n : Z) (i : nat) :
  (i < 4)%nat -> pixel s n !! i = s !! (Z.to_nat (4 * n) + i)%nat.
Proof.
  intros Hi. unfold pixel. rewrite lookup_take_lt by exact Hi.
  apply lookup_drop.
Qed.

Lemma pixel_ext (s s' : list Z) (n : Z) :
  (forall i, (i < 4)%nat ->
     s !! (Z.to_nat (4 * n) + i)%nat = s' !! (Z.to_nat (4 * n) + i)%nat) ->
  pixel s n = pixel s' n.
Proof.
  intros Hsame. apply list_eq. intros i.
  destruct (decide (i < 4)%nat) as [Hi | Hi].
  - rewrite !pixel_lookup by exact Hi. apply Hsame. exact Hi.
  - unfold pixel. rewrite !lookup_take_ge by lia. reflexivity.
Qed.

(** [blit32] in terms of pixels: it paints one and leaves the others. *)
Lemma blit32_pixel (s : list Z) (n color : Z) :
  0 <= n ->
  4 * n + 3 < Z.of_nat (length s) ->
  Z.of_nat (length s) <= 2 ^ 63 ->
  exists s',
    blit32 s (4 * n) color = Some s' /\
    length s' = length s /\
    pixel s' n = rgba color /\
    forall n', 0 <= n' -> n' <> n -> pixel s' n' = pixel s n'.
Proof.
  intros Hn Hend Hlen.
  set (pre := take (Z.to_nat (4 * n)) s).
  set (old := take 4 (drop (Z.to_nat (4 * n)) s)).
  set (rest := drop 4 (drop (Z.to_nat (4 * n)) s)).
  assert (pre ++ old ++ rest = s) as E
    by (subst pre old rest; rewrite !take_drop; reflexivity).
  assert (length pre = Z.to_nat (4 * n)) as Hpre
    by (subst pre; rewrite length_take; lia).
  assert (length old = 4%nat) as Hold
    by (subst old; rewrite length_take, length_drop; lia).
  exists (pre ++ rgba color ++ rest). split; [|split; [|split]].
  - rewrite <- E at 1. apply blit32_app; [lia | exact Hold |].
    rewrite E. exact Hlen.
  - rewrite <- E. rewrite !length_app, Hold. reflexivity.
  - unfold pixel.
    rewrite drop_app_length' by (symmetry; exact Hpre).
    apply take_app_length'. reflexivity.
  - intros n' Hn' Hne. rewrite <- E. apply pixel_ext. intros i Hi.
    destruct (Z.lt_ge_cases n' n) as [Hlt | Hge].
    + rewrite !lookup_app_l by lia. reflexivity.
    + rewrite !(lookup_app_r pre) by lia.
      rewrite !lookup_app_r by (cbn [rgba length]; lia).
      rewrite Hold. reflexivity.
Qed.

(** A loop with an invariant that follows its passes. *)
Lemma loop_inv {St : Type} (I : nat -> St -> Prop) (n : nat) (i step : Z)
    (body : Z -> St -> option St) (s : St) :
  I 0%nat s ->
  (forall k s, (k < n)%nat -> I k s ->
     exists s', body (i + step * Z.of_nat k) s = Some s' /\ I (S k) s') ->
  exists s', loop n i step body s = Some s' /\ I n s'.
Proof.
  revert I i s. induction n as [|n IH]; intros I i s Hs Hbody.
  - exists s. split; [reflexivity | exact Hs].
  - cbn [loop].
    destruct (Hbody 0%nat s) as (s1 & Hrun & Hs1); [lia | exact Hs |].
    replace (i + step * Z.of_nat 0) with i in Hrun by lia.
    rewrite Hrun. apply (IH (fun k => I (S k))); [exact Hs1|].
    intros k s2 Hk Hs2.
    replace (i + step + step * Z.of_nat k)
      with (i + step * Z.of_nat (S k)) by lia.
    apply Hbody; [lia | exact Hs2].
Qed.

Lemma land_pow2_eqb (a k : Z) :
  0 <= k -> (Z.land a (2 ^ k) =? 0) = negb (Z.testbit a k).
Proof.
  intros Hk. destruct (Z.testbit a k) eqn:E; cbn [negb].
  - apply Z.eqb_neq. intros H0.
    assert (Z.testbit (Z.land a (2 ^ k)) k = true) as Hb
      by (rewrite Z.land_spec, E, Z.pow2_bits_true by lia; reflexivity).
    rewrite H0, Z.bits_0 in Hb. discriminate Hb.
  - apply Z.eqb_eq. apply Z.bits_inj'. intros n Hn.
    rewrite Z.land_spec, Z.bits_0, Z.pow2_bits_eqb by lia.
    destruct (Z.eqb_spec k n) as [<- | Hne];
      [rewrite E; reflexivity | apply andb_false_r].
Qed.

Lemma glyph_mask (g j : Z) :
  0 <= j < 8 ->
  (Z.land g (uint8 (Z.shiftr 0x80 j)) =? 0) = negb (Z.testbit g (7 - j)).
Proof.
  intros Hj. rewrite <- land_pow2_eqb by lia. f_equal. f_equal.
  assert (j = 0 \/ j = 1 \/ j = 2 \/ j = 3 \/ j = 4 \/ j = 5 \/ j = 6
          \/ j = 7) as Hcases by lia.
  destruct Hcases as [-> | [-> | [-> | [-> | [-> | [-> | [-> | ->]]]]]]];
    reflexivity.
Qed.

(** The colours [blitChar] picks for an attribute. *)
Lemma attribute_colors (blink : bool) (mode attrib : Z) :
  let bg := Z.shiftr (Z.land attrib 0x70) 4 in
  let fg := Z.land attrib 0xF in
  exists bgi fgi,
    (if negb (Z.land attrib 0x80 =? 0)
     then
       if negb (Z.land mode 0x20 =? 0)
       then if blink then (bg, bg) else (bg, fg)
       else (uint8 (bg + 8), fg)
     else (bg, fg)) = (bgi, fgi) /\
    at_ cgaColor bgi =
      Some (cgaColor !!! Z.to_nat
              (attrib / 16 mod 8
               + (if Z.testbit attrib 7 && negb (Z.testbit mode 5)
                  then 8 else 0))) /\
    at_ cgaColor fgi =
      Some (cgaColor !!! Z.to_nat
              (if Z.testbit attrib 7 && Z.testbit mode 5 && blink
               then attrib / 16 mod 8 else attrib mod 16)).
Proof.
  intros bg fg.
  assert (bg = attrib / 16 mod 8) as Hbg.
  { subst bg. rewrite Z.shiftr_land. change (Z.shiftr 0x70 4) with (Z.ones 3).
    rewrite Z.land_ones, Z.shiftr_div_pow2 by lia. reflexivity. }
  assert (fg = attrib mod 16) as Hfg
    by (subst fg; apply (Z.land_ones attrib 4); lia).
  pose proof (Z.mod_pos_bound (attrib / 16) 8) as Hbgr.
  pose proof (Z.mod_pos_bound attrib 16) as Hfgr.
  rewrite Hbg, Hfg.
  change 0x80 with (2 ^ 7). change 0x20 with (2 ^ 5).
  rewrite !land_pow2_eqb, !negb_involutive by lia.
  destruct (Z.testbit attrib 7); [destruct (Z.testbit mode 5);
                                   [destruct blink|]|];
    cbn [andb negb]; eexists _, _; (split; [reflexivity|]);
    rewrite ?uint8_small, ?Z.add_0_r by lia;
    split; apply at_Some; cbn [cgaColor length]; lia.
Qed.

(** One line of a glyph: eight dots, each [cw] pixels wide, from column
    [xc] of line [Yl] on. *)
Lemma blit_glyph_line (cw glyphLine bgColor fgColor xc Yl : Z)
    (px : list Z) :
  cw = 1 \/ cw = 2 ->
  length px = Z.to_nat (640 * 200 * 4) ->
  0 <= xc -> xc + 8 * cw <= 640 -> 0 <= Yl < 200 ->
  exists px',
    loop 8 0 1
      (fun j pixels =>
         let? pixels0 :=
           blit32 pixels ((640 * Yl + xc + j * cw) * 4)
             (if Z.land glyphLine (uint8 (Z.shiftr 0x80 j)) =? 0
              then bgColor else fgColor) in
         if cw =? 2
         then
           blit32 pixels0 ((640 * Yl + xc + j * cw) * 4 + 4)
             (if Z.land glyphLine (uint8 (Z.shiftr 0x80 j)) =? 0
              then bgColor else fgColor)
         else Some pixels0)
      px = Some px' /\
    length px' = length px /\
    forall X Y, 0 <= X < 640 -> 0 <= Y ->
      pixel px' (640 * Y + X) =
        if decide (Y = Yl /\ xc <= X < xc + 8 * cw)
        then rgba (if Z.testbit glyphLine (7 - (X - xc) / cw)
                   then fgColor else bgColor)
        else pixel px (640 * Y + X).
Proof.
  intros Hcw Hlen Hxc Hend HYl.
  match goal with
  | |- context [loop 8 0 1 ?body px] =>
      destruct (loop_inv
                  (fun j px' =>
                     length px' = length px /\
                     forall X Y, 0 <= X < 640 -> 0 <= Y ->
                       pixel px' (640 * Y + X) =
                         if decide (Y = Yl /\ xc <= X < xc + Z.of_nat j * cw)
                         then rgba (if Z.testbit glyphLine (7 - (X - xc) / cw)
                                    then fgColor else bgColor)
                         else pixel px (640 * Y + X))
                  8 0 1 body px)
        as (px' & Hrun & Hpx' & Hpix)
  end.
  - split; [reflexivity|]. intros X Y HX HY.
    destruct (decide _) as [H | H]; [lia | reflexivity].
  - intros k s Hk [Hs Hpix]. cbv beta.
    set (j := 0 + 1 * Z.of_nat k).
    assert (j = Z.of_nat k) as Hj by lia.
    set (c := if Z.land glyphLine (uint8 (Z.shiftr 0x80 j)) =? 0
              then bgColor else fgColor).
    assert (c = if Z.testbit glyphLine (7 - j) then fgColor else bgColor)
      as Hc.
    { subst c. rewrite glyph_mask by lia.
      destruct (Z.testbit glyphLine (7 - j)); reflexivity. }
    clearbody c j. subst j.
    destruct Hcw as [-> | ->].
    + set (n0 := 640 * Yl + xc + Z.of_nat k * 1).
      replace (n0 * 4) with (4 * n0) by lia.
      destruct (blit32_pixel s n0 c) as (s1 & -> & Hs1 & Hnew & Hold);
        [lia | lia | lia |].
      change (1 =? 2) with false. cbv iota.
      exists s1. split; [reflexivity|]. split; [congruence|].
      intros X Y HX HY.
      destruct (Z.eq_dec (640 * Y + X) n0) as [E | E].
      * rewrite E, Hnew, Hc.
        destruct (decide _) as [H | H]; [|exfalso; lia].
        replace ((X - xc) / 1) with (Z.of_nat k)
          by (rewrite Z.div_1_r; lia).
        reflexivity.
      * rewrite Hold, Hpix by lia.
        repeat case_decide; try reflexivity; exfalso; lia.
    + set (n0 := 640 * Yl + xc + Z.of_nat k * 2).
      replace (n0 * 4) with (4 * n0) by lia.
      destruct (blit32_pixel s n0 c) as (s1 & -> & Hs1 & Hnew & Hold);
        [lia | lia | lia |].
      change (2 =? 2) with true. cbv iota.
      replace (4 * n0 + 4) with (4 * (n0 + 1)) by lia.
      destruct (blit32_pixel s1 (n0 + 1) c)
        as (s2 & -> & Hs2 & Hnew2 & Hold2); [lia | lia | lia |].
      exists s2. split; [reflexivity|]. split; [congruence|].
      intros X Y HX HY.
      destruct (Z.eq_dec (640 * Y + X) (n0 + 1)) as [E1 | E1];
        [|destruct (Z.eq_dec (640 * Y + X) n0) as [E | E]].
      * rewrite E1, Hnew2, Hc.
        destruct (decide _) as [H | H]; [|exfalso; lia].
        replace ((X - xc) / 2) with (Z.of_nat k)
          by (Z.div_mod_to_equations; lia).
        reflexivity.
      * rewrite Hold2 by lia. rewrite E, Hnew, Hc.
        destruct (decide _) as [H | H]; [|exfalso; lia].
        replace ((X - xc) / 2) with (Z.of_nat k)
          by (Z.div_mod_to_equations; lia).
        reflexivity.
      * rewrite Hold2, Hold, Hpix by lia.
        repeat case_decide; try reflexivity; exfalso; lia.
  - exists px'. split; [exact Hrun|]. split; [exact Hpx'|].
    intros X Y HX HY. rewrite Hpix by lia.
    destruct Hcw as [-> | ->];
      repeat case_decide; try reflexivity; exfalso; lia.
Qed.

Section Font.

Variable cgaFont : list Z.

Hypothesis font_size : length cgaFont = 2048%nat.

(** [blitChar] paints the cell of a character and leaves the rest of the
    surface. *)
Lemma blitChar_paints (blink : bool) (ch attrib x y : Z) (m : Device) :
  length (surface m) = Z.to_nat (640 * 200 * 4) ->
  is_byte ch ->
  0 <= y <= 192 ->
  0 <= x <= (if Z.land (modeCtrlReg m) 1 =? 0 then 312 else 632) ->
  exists px,
    blitChar cgaFont blink ch attrib x y m = Some (set_surface px m) /\
    length px = length (surface m) /\
    forall X Y, 0 <= X < 640 -> 0 <= Y ->
      pixel px (640 * Y + X) =
        let cw := if Z.land (modeCtrlReg m) 1 =? 0 then 2 else 1 in
        if decide (y <= Y < y + 8 /\ x * cw <= X < x * cw + 8 * cw)
        then rgba (glyph_color cgaFont blink (modeCtrlReg m) ch attrib
                     (Y - y) ((X - x * cw) / cw))
        else pixel (surface m) (640 * Y + X).
Proof.
  intros Hsurf Hch Hy Hx. unfold blitChar, glyph_color, is_byte in *.
  cbv zeta.
  pose proof (attribute_colors blink (modeCtrlReg m) attrib) as Hcol.
  cbv zeta in Hcol. destruct Hcol as (bgi & fgi & -> & -> & ->).
  cbv beta iota.
  set (bgColor := cgaColor !!! Z.to_nat _).
  set (fgColor := cgaColor !!! Z.to_nat _).
  destruct (Z.land (modeCtrlReg m) 1 =? 0); cbv iota;
    (match goal with
     | |- context [loop 8 0 1 ?body (surface m)] =>
         match goal with
         | |- context [decide (_ /\ ?xc <= _ < _ + 8 * ?cw)] =>
             destruct (loop_inv
                         (fun i px =>
                            length px = length (surface m) /\
                            forall X Y, 0 <= X < 640 -> 0 <= Y ->
                              pixel px (640 * Y + X) =
                                if decide (y <= Y < y + Z.of_nat i
                                           /\ xc <= X < xc + 8 * cw)
                                then
                                  rgba
                                    (if Z.testbit
                                          (cgaFont
                                             !!! Z.to_nat (ch * 8 + (Y - y)))
                                          (7 - (X - xc) / cw)
                                     then fgColor else bgColor)
                                else pixel (surface m) (640 * Y + X))
                         8 0 1 body (surface m))
               as (px & -> & Hpx & Hpix)
         end
     end;
     [ split; [reflexivity|]; intros X Y HX HY;
       case_decide; [exfalso; lia | reflexivity]
     | intros k s Hk [Hs Hpix]; cbv beta;
       rewrite at_Some by (rewrite font_size; lia); cbv beta iota;
       match goal with
       | |- context [loop 8 0 1 ?body s] =>
           match body with
           | context [(640 * ?Yl + ?xc + _ * ?cw) * 4] =>
               destruct (blit_glyph_line cw
                           (cgaFont
                              !!! Z.to_nat (ch * 8 + (0 + 1 * Z.of_nat k)))
                           bgColor fgColor xc Yl s)
                 as (s' & Hrun & Hs' & Hpix');
                 [auto | lia | lia | lia | lia |]
           end
       end;
       exists s'; split; [exact Hrun|]; split; [congruence|];
       intros X Y HX HY; rewrite Hpix' by lia; rewrite Hpix by lia;
       repeat case_decide; try reflexivity; try (exfalso; lia);
       replace (Y - y) with (0 + 1 * Z.of_nat k) by lia; reflexivity
     | exists px; split; [reflexivity|]; split; [exact Hpx|];
       intros X Y HX HY; rewrite Hpix by lia;
       repeat case_decide; try reflexivity; exfalso; lia ]).
Qed.

End Font.

(** The cell of a character on the surface. *)
Lemma cell_of_pixel (m : Device) (numCol width cw k X Y : Z) :
  layout m numCol width cw ->
  0 <= k -> 0 <= X < 640 -> 0 <= Y ->
  (Z.quot k numCol * 8 <= Y < Z.quot k numCol * 8 + 8
   /\ Z.rem k numCol * 8 * cw <= X < Z.rem k numCol * 8 * cw + 8 * cw)
  <-> Y / 8 * numCol + X / width = k.
Proof.
  intros [(_ & -> & -> & ->) | (_ & -> & -> & ->)] Hk HX HY;
    Z.quot_rem_to_equations; Z.div_mod_to_equations; lia.
Qed.

Lemma dot_of_pixel (m : Device) (numCol width cw k X Y : Z) :
  layout m numCol width cw ->
  0 <= k -> 0 <= X < 640 -> 0 <= Y ->
  Y / 8 * numCol + X / width = k ->
  Y - Z.quot k numCol * 8 = Y mod 8 /\
  (X - Z.rem k numCol * 8 * cw) / cw = X mod width / (width / 8).
Proof.
  intros [(_ & -> & -> & ->) | (_ & -> & -> & ->)] Hk HX HY Hcell.
  - change (16 / 8) with 2.
    Z.quot_rem_to_equations. Z.div_mod_to_equations. lia.
  - change (8 / 8) with 1.
    Z.quot_rem_to_equations. Z.div_mod_to_equations. lia.
Qed.

Lemma layout_exists (m : Device) :
  exists numCol width cw,
    layout m numCol width cw /\
    (if Z.land (modeCtrlReg m) 1 =? 0 then 40 else 80) = numCol /\
    (if Z.land (modeCtrlReg m) 1 =? 0 then 16 else 8) = width /\
    (if Z.land (modeCtrlReg m) 1 =? 0 then 2 else 1) = cw /\
    (if Z.land (modeCtrlReg m) 1 =? 0 then 312 else 632) = 640 / cw - 8.
Proof.
  unfold layout. destruct (Z.land (modeCtrlReg m) 1 =? 0).
  - exists 40, 16, 2. repeat split. left. repeat split.
  - exists 80, 8, 1. repeat split. right. repeat split.
Qed.

Lemma cell_in_rows (m : Device) (numCol width cw X Y : Z) :
  layout m numCol width cw ->
  0 <= X < 640 -> 0 <= Y < 200 ->
  0 <= Y / 8 * numCol + X / width < numCol * 25.
Proof.
  intros [(_ & -> & -> & ->) | (_ & -> & -> & ->)] HX HY;
    Z.div_mod_to_equations; lia.
Qed.

Section Font.

Variable cgaFont : list Z.

Hypothesis font_size : length cgaFont = 2048%nat.

Lemma text_color_cell (blinks : Z -> bool) (m : Device)
    (numCol width cw X Y : Z) :
  layout m numCol width cw ->
  text_color cgaFont blinks m X Y =
    glyph_color cgaFont (blinks (2 * (Y / 8 * numCol + X / width)))
      (modeCtrlReg m)
      (mem m !!! Z.to_nat (crtReg m !!! 13%nat
                           + 2 * (Y / 8 * numCol + X / width)))
      (mem m !!! Z.to_nat (crtReg m !!! 13%nat
                           + 2 * (Y / 8 * numCol + X / width) + 1))
      (Y mod 8) (X mod width / (width / 8)).
Proof.
  unfold text_color.
  intros [(-> & -> & -> & _) | (-> & -> & -> & _)]; reflexivity.
Qed.

(** The characters of the text mode, one cell after the other. *)
Lemma text_cells_paint (blinks : Z -> bool) (m : Device)
    (numCol width cw : Z) :
  sized m -> typed m ->
  layout m numCol width cw ->
  exists m',
    loop (Z.to_nat (numCol * 25)) 0 2
      (fun i m0 =>
         let? ch := at_ (mem m0) (videoPage m + i) in
         let? attrib := at_ (mem m0) (videoPage m + i + 1) in
         blitChar cgaFont (blinks i) ch attrib
           (Z.rem (Z.quot i 2) numCol * 8)
           (Z.quot (Z.quot i 2) numCol * 8) m0)
      m = Some m' /\
    redrawn m m' /\
    forall X Y, 0 <= X < 640 -> 0 <= Y < 200 ->
      pixel (surface m') (640 * Y + X) =
        rgba (text_color cgaFont blinks m X Y).
Proof.
  intros Hsized Htyped Hgeo.
  pose proof (typed_videoPage m Htyped) as Hvp. unfold is_byte in Hvp.
  rewrite videoPage_low_byte in *.
  set (vp := crtReg m !!! 13%nat) in *.
  match goal with
  | |- context [loop ?n 0 2 ?body m] =>
      destruct (loop_inv
                  (fun k s =>
                     redrawn m s /\
                     forall X Y, 0 <= X < 640 -> 0 <= Y < 200 ->
                       pixel (surface s) (640 * Y + X) =
                         if decide (Y / 8 * numCol + X / width < Z.of_nat k)
                         then rgba (text_color cgaFont blinks m X Y)
                         else pixel (surface m) (640 * Y + X))
                  n 0 2 body m)
        as (m' & Hrun & Hm' & Hpix)
  end.
  - split; [apply redrawn_refl|]. intros X Y HX HY.
    pose proof (cell_in_rows m numCol width cw X Y Hgeo HX HY).
    case_decide; [exfalso; lia | reflexivity].
  - intros k s Hk [Hs Hpix]. cbv beta.
    destruct (redrawn_fields m s Hs) as (Hsurf & Hmem & Hmode & _).
    rewrite Hmem.
    assert (0 <= Z.of_nat k < numCol * 25) as Hk' by lia.
    assert (numCol = 40 \/ numCol = 80) as Hcol
      by (destruct Hgeo as [(_ & -> & _) | (_ & -> & _)]; auto).
    assert (Z.quot (0 + 2 * Z.of_nat k) 2 = Z.of_nat k) as ->
      by (Z.quot_rem_to_equations; lia).
    destruct (typed_cell m (vp + (0 + 2 * Z.of_nat k)) Hsized Htyped)
      as [-> Hch]; [lia|].
    destruct (typed_cell m (vp + (0 + 2 * Z.of_nat k) + 1) Hsized Htyped)
      as [-> _]; [lia|].
    cbv beta iota.
    destruct (layout_exists s) as (nc & w & cw' & _ & _ & _ & Hcw & Hmax).
    match goal with
    | |- context [blitChar cgaFont ?b ?ch ?a ?x ?y s] =>
        destruct (blitChar_paints cgaFont font_size b ch a x y s)
          as (px & -> & Hpx & Hpix')
    end.
    + rewrite Hsurf. apply Hsized.
    + exact Hch.
    + destruct Hcol as [-> | ->]; Z.quot_rem_to_equations; lia.
    + rewrite Hmode.
      destruct Hgeo as [(-> & -> & _) | (-> & -> & _)];
        Z.quot_rem_to_equations; lia.
    + eexists. split; [reflexivity|]. split.
      { apply (redrawn_trans m s); [exact Hs|].
        exists px. split; [reflexivity | exact Hpx]. }
      fields. intros X Y HX HY. rewrite Hpix' by lia. cbv zeta.
      rewrite Hmode.
      assert ((if Z.land (modeCtrlReg m) 1 =? 0 then 2 else 1) = cw) as ->
        by (destruct Hgeo as [(-> & _ & _ & ->) | (-> & _ & _ & ->)];
            reflexivity).
      pose proof (cell_of_pixel m numCol width cw (Z.of_nat k) X Y Hgeo
                    ltac:(lia) HX ltac:(lia)) as Hcell.
      rewrite Hpix by lia.
      destruct (Z.eq_dec (Y / 8 * numCol + X / width) (Z.of_nat k))
        as [E | E].
      * destruct (dot_of_pixel m numCol width cw (Z.of_nat k) X Y Hgeo
                    ltac:(lia) HX ltac:(lia) E) as [Hrow Hdot].
        case_decide; [|exfalso; tauto].
        case_decide; [|exfalso; lia].
        rewrite (text_color_cell blinks m numCol width cw X Y Hgeo).
        rewrite Hrow, Hdot, E. fold vp.
        replace (0 + 2 * Z.of_nat k) with (2 * Z.of_nat k) by lia.
        reflexivity.
      * case_decide; [exfalso; tauto|].
        repeat case_decide; try reflexivity; exfalso; lia.
  - exists m'. split; [exact Hrun|]. split; [exact Hm'|].
    intros X Y HX HY. rewrite Hpix by lia.
    pose proof (cell_in_rows m numCol width cw X Y Hgeo HX HY).
    case_decide; [reflexivity | exfalso; lia].
Qed.

End Font.

Lemma redrawn_cursorVisible (m m' : Device) :
  redrawn m m' -> cursorVisible m' = cursorVisible m.
Proof. intros (px & -> & _). reflexivity. Qed.

Lemma redrawn_registers (m m' : Device) :
  redrawn m m' ->
  crtReg m' = crtReg m /\ dirtyMemory m' = dirtyMemory m /\
  prevCursorState m' = prevCursorState m.
Proof. intros (px & -> & _). repeat split. Qed.

Section Font.

Variable cgaFont : list Z.

Hypothesis font_size : length cgaFont = 2048%nat.

Lemma cursor_color_cell (m : Device) (numCol width cw X Y : Z) :
  layout m numCol width cw ->
  cursor_color cgaFont m X Y =
    glyph_color cgaFont false (modeCtrlReg m) 95
      (Z.lor
         (Z.land (mem m !!! Z.to_nat (crtReg m !!! 13%nat
                                      + 2 * cursorPosition m + 1)) 0x70)
         0xF)
      (Y mod 8) (X mod width / (width / 8)).
Proof.
  unfold cursor_color.
  intros [(-> & -> & -> & _) | (-> & -> & -> & _)]; reflexivity.
Qed.

Lemma screen_color_cell (blink : bool) (blinks : Z -> bool) (m : Device)
    (numCol width cw X Y : Z) :
  layout m numCol width cw ->
  screen_color cgaFont blink blinks m X Y =
    if blink && cursorVisible m && (cursorPosition m / numCol <? 25)
       && (Y / 8 * numCol + X / width =? cursorPosition m)
    then cursor_color cgaFont m X Y
    else text_color cgaFont blinks m X Y.
Proof.
  unfold screen_color.
  intros [(-> & -> & -> & _) | (-> & -> & -> & _)]; reflexivity.
Qed.

(** The text mode: the characters, then the cursor. *)
Lemma render_text_paints (blink : bool) (blinks : Z -> bool) (m : Device)
    (numCol width cw : Z) :
  sized m -> typed m ->
  layout m numCol width cw ->
  exists m',
    render_text cgaFont blink blinks numCol m = Some m' /\
    redrawn m m' /\
    forall X Y, 0 <= X < 640 -> 0 <= Y < 200 ->
      pixel (surface m') (640 * Y + X) =
        rgba (screen_color cgaFont blink blinks m X Y).
Proof.
  intros Hsized Htyped Hgeo. unfold render_text. cbv zeta.
  destruct (text_cells_paint cgaFont font_size blinks m numCol width cw
              Hsized Htyped Hgeo) as (m1 & -> & Hm1 & Hpix1).
  destruct (redrawn_fields m m1 Hm1) as (Hsurf & Hmem & Hmode & Hpos).
  rewrite (redrawn_cursorVisible m m1 Hm1), Hpos, Hmem.
  pose proof (typed_cursorPosition m Htyped) as Hcp.
  change (2 ^ 16) with 65536 in Hcp.
  pose proof (typed_videoPage m Htyped) as Hvp. unfold is_byte in Hvp.
  rewrite videoPage_low_byte in *.
  set (vp := crtReg m !!! 13%nat) in *.
  set (cp := cursorPosition m) in *.
  assert (numCol = 40 \/ numCol = 80) as Hcol
    by (destruct Hgeo as [(_ & -> & _) | (_ & -> & _)]; auto).
  assert (Z.quot cp numCol = cp / numCol /\ Z.rem cp numCol = cp mod numCol)
    as [Hq Hr].
  { destruct Hcol as [-> | ->];
      Z.quot_rem_to_equations; Z.div_mod_to_equations; lia. }
  assert (forall X Y, 0 <= X < 640 -> 0 <= Y < 200 ->
            blink && cursorVisible m && (cp / numCol <? 25) = false ->
            pixel (surface m1) (640 * Y + X) =
              rgba (screen_color cgaFont blink blinks m X Y)) as Hplain.
  { intros X Y HX HY Hoff.
    rewrite (screen_color_cell blink blinks m numCol width cw X Y Hgeo).
    fold cp. rewrite Hoff. cbn [andb]. apply Hpix1; assumption. }
  destruct (blink && cursorVisible m) eqn:Eshown.
  2: { exists m1. split; [reflexivity|]. split; [exact Hm1|].
       intros X Y HX HY. apply Hplain; trivial. }
  assert ((Z.rem cp numCol <? 80) = true) as ->.
  { apply Z.ltb_lt. rewrite Hr.
    destruct Hcol as [-> | ->]; Z.div_mod_to_equations; lia. }
  cbn [andb]. rewrite Hq.
  destruct (cp / numCol <? 25) eqn:Erow.
  2: { exists m1. split; [reflexivity|]. split; [exact Hm1|].
       intros X Y HX HY. apply Hplain; trivial. }
  apply Z.ltb_lt in Erow. rewrite Hr.
  assert (0 <= cp / numCol /\ 0 <= cp mod numCol < numCol
          /\ numCol * (cp / numCol) + cp mod numCol = cp)
    as (Hrow0 & Hcol0 & Hsum)
    by (destruct Hcol as [-> | ->]; Z.div_mod_to_equations; lia).
  replace (numCol * 2 * (cp / numCol) + cp mod numCol * 2 + 1)
    with (2 * cp + 1) by lia.
  destruct (typed_cell m (vp + (2 * cp + 1)) Hsized Htyped) as [-> _];
    [destruct Hcol as [-> | ->]; lia|].
  destruct (layout_exists m1) as (nc & w & cw' & _ & _ & _ & Hcw & Hmax).
  match goal with
  | |- context [blitChar cgaFont ?b ?ch ?a ?x ?y m1] =>
      destruct (blitChar_paints cgaFont font_size b ch a x y m1)
        as (px & -> & Hpx & Hpix')
  end.
  - rewrite Hsurf. apply Hsized.
  - unfold is_byte. lia.
  - lia.
  - rewrite Hmode.
    destruct Hgeo as [(-> & -> & _) | (-> & -> & _)]; lia.
  - eexists. split; [reflexivity|]. split.
    { apply (redrawn_trans m m1); [exact Hm1|].
      exists px. split; [reflexivity | exact Hpx]. }
    fields. intros X Y HX HY. rewrite Hpix' by lia. cbv zeta.
    rewrite Hmode.
    assert ((if Z.land (modeCtrlReg m) 1 =? 0 then 2 else 1) = cw) as ->
      by (destruct Hgeo as [(-> & _ & _ & ->) | (-> & _ & _ & ->)];
          reflexivity).
    rewrite (screen_color_cell blink blinks m numCol width cw X Y Hgeo).
    fold cp. rewrite Eshown. cbn [andb].
    assert ((cp / numCol <? 25) = true) as -> by (apply Z.ltb_lt; exact Erow).
    cbn [andb].
    pose proof (cell_of_pixel m numCol width cw cp X Y Hgeo
                  ltac:(lia) HX ltac:(lia)) as Hcell.
    rewrite Hq, Hr in Hcell.
    destruct (Z.eqb_spec (Y / 8 * numCol + X / width) cp) as [E | E].
    + destruct (dot_of_pixel m numCol width cw cp X Y Hgeo
                  ltac:(lia) HX ltac:(lia) E) as [Hrow Hdot].
      rewrite Hq in Hrow. rewrite Hr in Hdot.
      case_decide; [|exfalso; tauto].
      rewrite (cursor_color_cell m numCol width cw X Y Hgeo).
      rewrite Hrow, Hdot. fold vp cp.
      replace (vp + 2 * cp + 1) with (vp + (2 * cp + 1)) by lia.
      reflexivity.
    + case_decide; [exfalso; tauto|]. apply Hpix1; assumption.
Qed.

(** X28.  A tick in the text mode draws the screen and does not fail.
    With the arrays at the sizes of their types and a font of 256 glyphs,
    every cell it reads lies in the frame buffer and every pixel it
    writes on the surface, for 40 and for 80 columns, whatever the CRT
    registers and the cursor position say; afterwards every pixel of the
    surface shows its dot of the glyph of its character, in the colours
    of the attribute, and the cell under a shown cursor an underscore.
    The adapter after the tick is the adapter before it with the new
    surface, the dirty flag cleared, the blink state noted in
    [prevCursorState] and, when the ticker of the window title has
    fired, the cycle counter at zero after [SetTitle] has reported it;
    [SetTitle] is then the one call before [RenderGraphics], and
    otherwise there is none. *)
Theorem render_text_mode_picture (title : option bool) (blink : bool)
    (blinks : Z -> bool) (m : Device) :
  sized m ->
  typed m ->
  Z.land (modeCtrlReg m) 2 = 0 ->
  dirtyMemory m <> 0 \/ prevCursorState m <> blink ->
  exists calls m',
    render cgaFont title blink blinks false m =
      Some (calls ++ [RenderGraphics (surface m') 0 0
                        (Z.land (cgaColor !!! Z.to_nat (colorCtrlReg m mod 16))
                           0xFF)],
            m') /\
    (forall X Y, 0 <= X < 640 -> 0 <= Y < 200 ->
       pixel (surface m') (640 * Y + X) =
         rgba (screen_color cgaFont blink blinks m X Y)) /\
    length (surface m') = length (surface m) /\
    mem m' = mem m /\
    crtReg m' = crtReg m /\
    dirtyMemory m' = 0 /\
    prevCursorState m' = blink /\
    calls =
      match title with
      | Some expired =>
          [SetTitle (atomicCycleCounter m)
             (if expired then EmptyString else " (Press F12 for menu)")]
      | None => []
      end /\
    m' =
      set_surface (surface m')
        (set_prevCursorState blink
           (set_dirtyMemory 0
              match title with
              | Some _ => set_atomicCycleCounter 0 m
              | None => m
              end)).
Proof.
  intros Hsized Htyped Htext Hdue.
  apply redraw_due in Hdue. apply Z.eqb_eq in Htext.
  unfold render.
  destruct title as [expired|]; cbv beta iota zeta; fields;
    rewrite Hdue, background_color, Htext; cbn [negb];
    rewrite border_red, border_green, blue_component;
    (match goal with
     | |- context [render_text cgaFont blink blinks _ ?m0] =>
         destruct (layout_exists m0)
           as (numCol & width & cw & Hgeo & Hcol & _);
         fields; rewrite Hcol;
         destruct (render_text_paints blink blinks m0 numCol width cw)
           as (m' & Hrun & Hm' & Hpix);
           [split; fields; apply Hsized
           |split; fields; apply Htyped
           |exact Hgeo
           |]
     end);
    rewrite Hrun;
    destruct (redrawn_fields _ _ Hm') as (Hsurf & Hmem & _ & _);
    destruct (redrawn_registers _ _ Hm') as (Hregs & Hdirty & Hprev);
    destruct Hm' as (px & Epx & _);
    fields;
    eexists _, m'; (split; [reflexivity|]);
    (split; [exact Hpix|]);
    repeat split; try assumption;
    rewrite Epx; reflexivity.
Qed.

End Font.

Lemma render_text_mode_picture_witness :
  exists calls m',
    render (replicate 2048 0) (Some false) false (fun _ => false) false
      (set_atomicCycleCounter 4770 (blank 1)) =
      Some (calls ++ [RenderGraphics (surface m') 0 0 0], m') /\
    (forall X Y, 0 <= X < 640 -> 0 <= Y < 200 ->
       pixel (surface m') (640 * Y + X) =
         rgba (screen_color (replicate 2048 0) false (fun _ => false)
                 (set_atomicCycleCounter 4770 (blank 1)) X Y)) /\
    length (surface m') =
      length (surface (set_atomicCycleCounter 4770 (blank 1))) /\
    mem m' = mem (set_atomicCycleCounter 4770 (blank 1)) /\
    crtReg m' = crtReg (set_atomicCycleCounter 4770 (blank 1)) /\
    dirtyMemory m' = 0 /\
    prevCursorState m' = false /\
    calls = [SetTitle 4770 " (Press F12 for menu)"] /\
    m' =
      set_surface (surface m')
        (set_prevCursorState false
           (set_dirtyMemory 0
              (set_atomicCycleCounter 0
                 (set_atomicCycleCounter 4770 (blank 1))))).
Proof.
  apply (render_text_mode_picture (replicate 2048 0)
           (length_replicate 2048 0) (Some false) false (fun _ => false)
           (set_atomicCycleCounter 4770 (blank 1))).
  - split; fields; apply (sized_blank 1).
  - split; fields; apply (typed_blank 1).
  - reflexivity.
  - left. unfold blank. fields. discriminate.
Defined.

(** *** From the frame buffer to the screen *)

(** The part of a row of segments from one of them on. *)
Lemma drop_segments (f : Z -> list Z) (c : nat) (n i start : Z) :
  (forall x, length (f x) = c) ->
  0 <= i <= n ->
  drop (Z.to_nat i * c) (flat_map f (seqZ start n)) =
    flat_map f (seqZ (start + i) (n - i)).
Proof.
  intros Hf Hi.
  replace n with (i + (n - i)) at 1 by lia.
  rewrite seqZ_app by lia. rewrite flat_map_app.
  apply drop_app_length'.
  rewrite (length_flat_map_segments f c) by exact Hf.
  rewrite length_seqZ. reflexivity.
Qed.

Lemma pixel_of_picture (color : Z -> Z -> Z) (X Y : Z) :
  0 <= X < 640 -> 0 <= Y < 200 ->
  pixel
    (flat_map (fun y => flat_map (fun x => rgba (color x y)) (seqZ 0 640))
       (seqZ 0 200))
    (640 * Y + X) = rgba (color X Y).
Proof.
  intros HX HY. unfold pixel.
  set (row := fun y => flat_map (fun x => rgba (color x y)) (seqZ 0 640)).
  assert (forall y, length (row y) = 2560%nat) as Hrow.
  { intros y. subst row. cbv beta.
    rewrite (length_flat_map_segments _ 4) by reflexivity.
    rewrite length_seqZ. reflexivity. }
  replace (Z.to_nat (4 * (640 * Y + X)))
    with (Z.to_nat Y * 2560 + Z.to_nat X * 4)%nat by lia.
  rewrite <- drop_drop.
  rewrite (drop_segments row 2560 200 Y 0 Hrow) by lia.
  rewrite seqZ_cons by lia. cbn [flat_map].
  rewrite drop_app_le by (rewrite Hrow; lia).
  rewrite take_app_le
    by (rewrite length_drop, Hrow; lia).
  subst row. cbv beta.
  rewrite (drop_segments (fun x => rgba (color x (0 + Y))) 4 640 X 0)
    by (trivial; lia).
  rewrite seqZ_cons by lia. cbn [flat_map].
  rewrite take_app_length' by reflexivity.
  replace (0 + X) with X by lia. replace (0 + Y) with Y by lia.
  reflexivity.
Qed.

Section Font.

Variable cgaFont : list Z.

(** X4.  What the processor writes to the frame buffer is on the screen
    after the next tick.  In the high-resolution mode the byte written at
    the cell of the pixel in column [x] of line [y] sets the eight pixels
    of that cell: the pixel is white where bit [7 - x mod 8] of the byte
    is set and black where it is clear.  The write marks the memory
    dirty, so the tick redraws whatever the blink state. *)
Theorem written_byte_is_drawn (title : option bool) (blink : bool)
    (blinks : Z -> bool) (cliMode : bool) (m : Device) (x y d : Z) :
  sized m ->
  Z.land (modeCtrlReg m) 2 <> 0 ->
  Z.land (modeCtrlReg m) 0x10 <> 0 ->
  0 <= x < 640 -> 0 <= y < 200 ->
  exists calls m',
    render cgaFont title blink blinks cliMode
      (WriteByte (0xB8000 + (y / 2 * 80 + y mod 2 * 8192 + x / 8)) d m) =
      Some (calls, m') /\
    pixel (surface m') (640 * y + x) =
      if Z.testbit d (7 - x mod 8)
      then [0xFF; 0xFF; 0xFF; 0xFF] else [0; 0; 0; 0xFF].
Proof.
  intros [Hmem Hsurf] Hgfx Hhigh Hx Hy.
  apply Z.eqb_neq in Hgfx, Hhigh.
  pose proof (line_cell x y 8 Hy ltac:(lia) ltac:(lia)) as Hcell.
  set (a := y / 2 * 80 + y mod 2 * 8192 + x / 8) in *.
  set (m1 := WriteByte (0xB8000 + a) d m).
  assert (length (mem m1) = Z.to_nat memorySize) as Hmem1.
  { subst m1. unfold WriteByte. fields. rewrite length_insert. exact Hmem. }
  assert (high_color m1 x y
          = if Z.testbit d (7 - x mod 8) then 0xFFFFFF else 0) as Hcolor.
  { unfold high_color. fold a. subst m1. unfold WriteByte. fields.
    rewrite decode_lower by exact Hcell.
    rewrite list_lookup_total_insert_eq
      by (rewrite Hmem; unfold memorySize; lia).
    reflexivity. }
  unfold render.
  destruct title as [expired|]; cbv beta iota zeta; fields;
    change (dirtyMemory m1) with 1; cbn [Z.eqb negb orb]; fields;
    rewrite background_color;
    change (modeCtrlReg m1) with (modeCtrlReg m);
    rewrite Hgfx, Hhigh; cbn [negb];
    (rewrite render_high_spec; [|exact Hmem1|exact Hsurf]);
    eexists _, (set_surface _ _); (split; [reflexivity|]); fields;
    rewrite (pixel_of_picture (high_color _)) by assumption;
    change (high_color _ x y) with (high_color m1 x y);
    rewrite Hcolor; destruct (Z.testbit d (7 - x mod 8)); reflexivity.
Qed.

End Font.

Lemma written_byte_is_drawn_witness :
  exists calls m',
    render [] None false (fun _ => false) false
      (WriteByte (0xB8000 + (3 / 2 * 80 + 3 mod 2 * 8192 + 17 / 8)) 0x40
         (blank 0x1A)) = Some (calls, m') /\
    pixel (surface m') (640 * 3 + 17) =
      if Z.testbit 0x40 (7 - 17 mod 8)
      then [0xFF; 0xFF; 0xFF; 0xFF] else [0; 0; 0; 0xFF].
Proof.
  apply (written_byte_is_drawn [] None false (fun _ => false) false
           (blank 0x1A) 17 3 0x40).
  - apply sized_blank.
  - unfold blank. fields. discriminate.
  - unfold blank. fields. discriminate.
  - lia.
  - lia.
Defined.

End cga_props.

(** ** The debugger *)

Module debug_props.

Import debug.

(** Projections of updated records. *)
Ltac fields :=
  cbn [signChan historyChan numInstructionsLost lastInstruction breakOnIRET
       breakpoints codeOffset memPeripherals
       set_signChan set_historyChan set_numInstructionsLost
       set_lastInstruction set_breakOnIRET set_breakpoints set_codeOffset
       set_memPeripherals
       dev debugBreak traceInstructions r world log
       set_dev set_debugBreak set_r set_world set_log
       processor.CS processor.IP processor.Debug processor.set_Debug
       chan_cap chan_buf fst snd] in *.

(** Running the primitive actions of the monad. *)
Ltac run :=
  unfold Log, Break, Continue, modify_dev, when, on_world in *;
  unfold bind, gets, modify, ret, stuck in *;
  cbn beta iota in *; fields.

Section Debugger.

Context {D W P : Type}.
Context `{HMem : memory.Memory D W} `{HProc : processor.Processor P D}.
Context `{HHost : Host D W}.

Local Abbreviation State := (@debug.State D W).

Lemma check_breakpoints_spec (brs : list Z) (i : Z) (s : State) :
  exists s',
    check_breakpoints i brs s = Some (tt, s') /\
    dev s' = dev s /\
    world s' = world s /\
    traceInstructions s' = traceInstructions s /\
    processor.CS (r s') = processor.CS (r s) /\
    processor.IP (r s') = processor.IP (r s) /\
    (debugBreak s = true -> debugBreak s' = true) /\
    (processor.Debug (r s) = true -> processor.Debug (r s') = true) /\
    (List.In (processor.IP (r s)) brs ->
       debugBreak s' = true /\ processor.Debug (r s') = true).
Proof.
  revert i s. induction brs as [|br brs IH]; intros i s.
  - exists s. cbn. repeat split; trivial; contradiction.
  - cbn [check_breakpoints]. run.
    destruct (processor.IP (r s) =? br) eqn:E.
    + edestruct IH as (s' & -> & Hd & Hw & Ht & Hcs & Hip & Hb & Hdb & _).
      exists s'. fields. repeat split; auto.
    + edestruct IH as (s' & -> & Hd & Hw & Ht & Hcs & Hip & Hb & Hdb & Hin).
      exists s'. split; [reflexivity|].
      repeat (split; [solve [auto]|]).
      intros [Heq | Hin']; [lia | apply Hin; exact Hin'].
Qed.

Lemma Step_checks_spec (s : State) :
  let ip :=
    memory.NewPointer (processor.CS (r s)) (processor.IP (r s)) in
  exists s0,
    Step_checks s =
      Some ((ip, instructionToString (p_ReadByte ip (world s)).1), s0) /\
    processor.CS (r s0) = processor.CS (r s) /\
    processor.IP (r s0) = processor.IP (r s) /\
    traceInstructions s0 = traceInstructions s /\
    historyChan (dev s0) = historyChan (dev s) /\
    numInstructionsLost (dev s0) = numInstructionsLost (dev s) /\
    codeOffset (dev s0) = codeOffset (dev s) /\
    (debugBreak s = true -> debugBreak s0 = true) /\
    (List.In (processor.IP (r s)) (breakpoints (dev s)) ->
       debugBreak s0 = true /\ processor.Debug (r s0) = true) /\
    (0 < lastInstruction (dev s) -> lastInstruction (dev s) <> ip ->
       debugBreak s0 = true /\ processor.Debug (r s0) = true /\
       lastInstruction (dev s0) = 0).
Proof.
  intros ip. unfold Step_checks. run. fold ip.
  destruct (p_ReadByte ip (world s)) as [op w1] eqn:Eop.
  destruct (processor.Debug (r s)) eqn:Edbg; cbn beta iota; fields;
    (destruct (chan_recv (signChan (dev s))) as [[[] sc]|] eqn:Esig;
     cbn beta iota; fields);
    fold ip; rewrite Eop; cbn beta iota; fields;
    (destruct ((0 <? lastInstruction (dev s))
               && negb (lastInstruction (dev s) =? ip)) eqn:Elast;
     cbn beta iota; fields);
    (match goal with
     | |- context [?b && (op =? 207)] =>
         destruct (b && (op =? 207)) eqn:Eiret
     end; cbn beta iota; fields);
    (match goal with
     | |- context [check_breakpoints 0 ?brs ?st] =>
         destruct (check_breakpoints_spec brs 0 st)
           as (s0 & -> & Hd & Hw & Ht & Hcs & Hip & Hb & Hdb & Hin)
     end);
    exists s0; fields; rewrite Hd, Hcs, Hip, Ht; fields;
    (split; [reflexivity|]);
    do 8 (split; [solve [auto]|]);
    intros Hpos Hne.
  all: try (apply andb_false_iff in Elast;
            rewrite Z.ltb_ge, negb_false_iff, Z.eqb_eq in Elast; lia).
  all: auto.
Qed.

(** C4.  A breakpoint is matched against [IP] alone: whatever [CS]
    holds, a [Step] entered with [IP] equal to a breakpoint asserts the
    break (both [debugBreak] and the [Debug] flag of the registers), and
    the prompt is reached, so that the command [q] makes this very
    [Step] return [ErrQuit]. *)
Theorem breakpoint_matches_IP_only (s : State) (b cs cycles : Z)
    (input : list string) :
  List.In b (breakpoints (dev s)) ->
  (exists v s',
     Step_checks
       (set_r (processor.mkRegisters cs b (processor.Debug (r s))) s) =
       Some (v, s') /\
     debugBreak s' = true /\ processor.Debug (r s') = true) /\
  (exists s',
     Step cycles ("q" :: input)
       (set_r (processor.mkRegisters cs b (processor.Debug (r s))) s) =
       Some ((Some ErrQuit, input), s')).
Proof.
  intros Hin.
  set (s1 := set_r (processor.mkRegisters cs b (processor.Debug (r s))) s).
  destruct (Step_checks_spec s1)
    as (s0 & Hrun & _ & _ & _ & _ & _ & _ & _ & Hbrk & _).
  destruct (Hbrk Hin) as [Hb Hd].
  split.
  - eexists _, s0. split; [exact Hrun|]. split; assumption.
  - unfold Step. unfold bind at 1. rewrite Hrun.
    cbn [Step_repl]. unfold bind at 1. unfold bind at 1.
    unfold gets at 1. rewrite Hb.
    unfold bind at 1. unfold prompt. run.
    unfold command. change (String.eqb "q" "q") with true.
    cbn beta iota. eexists. reflexivity.
Qed.

(** *** Actions that keep a property of the state *)

Lemma preserves_ret {A : Type} (I : State -> Prop) (a : A) :
  preserves I (ret a).
Proof.
  intros s a' s' HI Hrun.
  assert (s' = s) as -> by (cbv in Hrun; congruence). exact HI.
Qed.

Lemma preserves_stuck {A : Type} (I : State -> Prop) :
  preserves I (stuck (A := A)).
Proof. intros s a s' _ [=]. Qed.

Lemma preserves_gets {A : Type} (I : State -> Prop) (f : State -> A) :
  preserves I (gets f).
Proof.
  intros s a' s' HI Hrun.
  assert (s' = s) as -> by (cbv in Hrun; congruence). exact HI.
Qed.

Lemma preserves_modify (I : State -> Prop) (f : State -> State) :
  (forall s, I s -> I (f s)) -> preserves I (modify f).
Proof.
  intros Hf s a' s' HI Hrun. unfold modify in Hrun.
  assert (s' = f s) as -> by congruence. apply Hf, HI.
Qed.

Lemma preserves_bind {A B : Type} (I : State -> Prop) (c : M A)
    (k : A -> M B) :
  preserves I c -> (forall a, preserves I (k a)) -> preserves I (bind c k).
Proof.
  intros Hc Hk s b s' HI Hrun. unfold bind in Hrun.
  destruct (c s) as [[a s1]|] eqn:E; [|discriminate].
  exact (Hk a s1 b s' (Hc s a s1 HI E) Hrun).
Qed.

Lemma preserves_when (I : State -> Prop) (b : bool) (c : M unit) :
  preserves I c -> preserves I (when b c).
Proof. intros Hc. destruct b; [exact Hc | apply preserves_ret]. Qed.

Lemma preserves_on_world {A : Type} (I : State -> Prop) (f : W -> A * W) :
  (forall s w, I s -> I (set_world w s)) -> preserves I (on_world f).
Proof.
  intros Hw s a s' HI Hrun. unfold on_world in Hrun.
  destruct (f (world s)) as [a' w]. inversion Hrun; subst s'.
  apply Hw, HI.
Qed.

(** *** The history channel *)

Local Abbreviation keeps c :=
  (preserves (D := D) (W := W) history_ok c).

Lemma history_ok_same (s s' : State) :
  historyChan (dev s') = historyChan (dev s) ->
  numInstructionsLost (dev s') = numInstructionsLost (dev s) ->
  history_ok s -> history_ok s'.
Proof.
  intros Hc Hn [H1 H2 H3]. split; rewrite ?Hc, ?Hn; assumption.
Qed.

Lemma preserves_modify_dev (f : @Device D -> @Device D) :
  history_free f -> keeps (modify_dev f).
Proof.
  intros Hf. apply preserves_modify. intros s.
  apply history_ok_same; fields; apply Hf.
Qed.

Lemma preserves_Log (e : LogEntry) : keeps (Log e).
Proof.
  apply preserves_modify. intros s. apply history_ok_same; reflexivity.
Qed.

Lemma preserves_Break : keeps Break.
Proof.
  apply preserves_modify. intros s. apply history_ok_same; reflexivity.
Qed.

Lemma preserves_Continue : keeps Continue.
Proof.
  apply preserves_modify. intros s. apply history_ok_same; reflexivity.
Qed.

Lemma preserves_world {A : Type} (f : W -> A * W) :
  keeps (on_world f).
Proof.
  apply preserves_on_world. intros s w.
  apply history_ok_same; reflexivity.
Qed.

Lemma uint64_range (x : Z) : 0 <= uint64 x < 2 ^ 64.
Proof. apply Z.mod_pos_bound. reflexivity. Qed.

Lemma preserves_history_recv : keeps history_recv.
Proof.
  intros s a s' [H1 H2 H3] Hrun. unfold history_recv in Hrun. run.
  unfold chan_recv in Hrun.
  destruct (chan_buf (historyChan (dev s))) as [|x buf] eqn:E;
    [discriminate|].
  inversion Hrun; subst s'. split; fields; trivial.
  cbn in H2. lia.
Qed.

Lemma preserves_history_send (inst : string) :
  keeps (history_send inst).
Proof.
  intros s a s' [H1 H2 H3] Hrun. unfold history_send in Hrun. run.
  unfold chan_send in Hrun.
  destruct (length (chan_buf (historyChan (dev s)))
            <? chan_cap (historyChan (dev s)))%nat eqn:E;
    [|discriminate].
  inversion Hrun; subst s'. apply Nat.ltb_lt in E.
  split; fields; trivial.
  rewrite length_app. cbn. lia.
Qed.

Create HintDb keeps discriminated.

Hint Resolve preserves_ret preserves_stuck preserves_gets preserves_Log
  preserves_Break preserves_Continue preserves_world
  preserves_history_recv preserves_history_send : keeps.

Ltac keeps_dev :=
  apply preserves_modify_dev; intros ?; split; reflexivity.

Ltac keeps_step :=
  first
    [ solve [eauto with keeps]
    | apply preserves_bind; [|intros ?]
    | apply preserves_when
    | keeps_dev
    | apply preserves_modify; intros ?; apply history_ok_same; reflexivity
    | match goal with
      | |- preserves _ (if ?b then _ else _) => destruct b
      | |- preserves _ (match ?x with _ => _ end) => destruct x
      end ].

Ltac keeps_auto := repeat keeps_step.

Lemma preserves_read_bytes (n : nat) (from : Z) : keeps (read_bytes n from).
Proof.
  revert from. induction n as [|n IH]; intros from; cbn [read_bytes];
    keeps_auto.
Qed.

Lemma preserves_renderVideo_row (cols : nat) (p : Z) :
  keeps (renderVideo_row cols p).
Proof.
  revert p. induction cols as [|n IH]; intros p; cbn [renderVideo_row];
    keeps_auto.
Qed.

Lemma preserves_renderVideo_rows (rows : nat) (p : Z) :
  keeps (renderVideo_rows rows p).
Proof.
  pose proof preserves_renderVideo_row.
  revert p. induction rows as [|n IH]; intros p; cbn [renderVideo_rows];
    keeps_auto.
Qed.

Lemma preserves_showBreakpoints_from (brs : list Z) (i : Z) :
  keeps (showBreakpoints_from i brs).
Proof.
  revert i. induction brs as [|br brs IH]; intros i;
    cbn [showBreakpoints_from]; keeps_auto.
Qed.

Lemma preserves_showHistory_loop (n : nat) (i : Z) :
  keeps (showHistory_loop n i).
Proof.
  revert i. induction n as [|n IH]; intros i; cbn [showHistory_loop];
    keeps_auto.
Qed.

Lemma preserves_showMemMap_loop (n : nat) (i startAddr : Z)
    (lastDeviceName : string) :
  keeps (showMemMap_loop n i startAddr lastDeviceName).
Proof.
  revert i startAddr lastDeviceName.
  induction n as [|n IH]; intros i startAddr lastDeviceName;
    cbn [showMemMap_loop]; keeps_auto.
Qed.

Lemma preserves_check_breakpoints (brs : list Z) (i : Z) :
  keeps (check_breakpoints i brs).
Proof.
  revert i. induction brs as [|br brs IH]; intros i;
    cbn [check_breakpoints]; keeps_auto.
Qed.

Lemma drained_range (buf : list string) (lost : Z) :
  0 <= lost < 2 ^ 64 -> 0 <= drained buf lost < 2 ^ 64.
Proof.
  revert lost. induction buf as [|x buf IH]; intros lost Hl; cbn.
  - exact Hl.
  - apply IH, uint64_range.
Qed.

Lemma preserves_drainHistory : keeps drainHistory.
Proof.
  apply preserves_modify. intros s [H1 H2 H3]. split; fields; trivial.
  - cbn. lia.
  - apply drained_range, H3.
Qed.

(** What [pushHistory] does to a history of at most 128 entries. *)
Lemma pushHistory_spec (inst : string) (s : State) :
  history_ok s ->
  exists s',
    pushHistory inst s = Some (tt, s') /\
    same_outside_history s s' /\
    chan_cap (historyChan (dev s')) = 128%nat /\
    ((length (chan_buf (historyChan (dev s))) < 128)%nat ->
       chan_buf (historyChan (dev s')) =
         chan_buf (historyChan (dev s)) ++ [inst] /\
       numInstructionsLost (dev s') = numInstructionsLost (dev s)) /\
    (length (chan_buf (historyChan (dev s))) = 128%nat ->
       chan_buf (historyChan (dev s')) =
         drop 1 (chan_buf (historyChan (dev s))) ++ [inst] /\
       numInstructionsLost (dev s') =
         uint64 (numInstructionsLost (dev s) + 1)).
Proof.
  intros [H1 H2 H3]. unfold pushHistory, history_recv, history_send. run.
  unfold chan_send at 1. rewrite H1.
  destruct (length (chan_buf (historyChan (dev s))) <? 128)%nat eqn:E.
  - apply Nat.ltb_lt in E. eexists. split; [reflexivity|]. fields.
    split; [repeat split|]. split; [reflexivity|].
    split; [intros _; split; reflexivity | intros Hfull; lia].
  - apply Nat.ltb_ge in E. unfold chan_recv.
    destruct (chan_buf (historyChan (dev s))) as [|x buf] eqn:Ebuf;
      [cbn in E; lia|].
    cbn beta iota. fields. unfold chan_send. fields. rewrite H1.
    cbn [length] in E, H2.
    assert (length buf = 127%nat) as Hlen by lia.
    rewrite Hlen. cbn [Nat.ltb Nat.leb]. cbn beta iota.
    eexists. split; [reflexivity|]. fields.
    split; [repeat split|]. split; [reflexivity|].
    split; [intros Hlt; cbn [length] in Hlt; lia|].
    intros _. split; reflexivity.
Qed.

Lemma preserves_pushHistory (inst : string) : keeps (pushHistory inst).
Proof.
  intros s a s' Hok Hrun.
  destruct (pushHistory_spec inst s Hok)
    as (s1 & Hrun1 & _ & Hcap & Hroom & Hfull).
  rewrite Hrun1 in Hrun. inversion Hrun; subst s1. clear Hrun.
  destruct Hok as [H1 H2 H3]. split; [exact Hcap | |].
  - destruct (Nat.eq_dec (length (chan_buf (historyChan (dev s)))) 128%nat)
      as [Hl | Hl].
    + destruct (Hfull Hl) as [-> _].
      rewrite length_app, length_drop. cbn. lia.
    + destruct Hroom as [-> _]; [lia|].
      rewrite length_app. cbn. lia.
  - destruct (Nat.eq_dec (length (chan_buf (historyChan (dev s)))) 128%nat)
      as [Hl | Hl].
    + destruct (Hfull Hl) as [_ ->]. apply uint64_range.
    + destruct Hroom as [_ ->]; [lia | exact H3].
Qed.

Hint Resolve preserves_read_bytes preserves_renderVideo_rows
  preserves_showBreakpoints_from preserves_showHistory_loop
  preserves_showMemMap_loop preserves_check_breakpoints
  preserves_drainHistory preserves_pushHistory : keeps.

Lemma preserves_command (ip : Z) (inst ln : string) :
  keeps (command ip inst ln).
Proof.
  unfold command, printRegisters, renderVideo, showHistory, showBreakpoints,
    showMemMap, setCodeOffset, showHistoryWithLength, setBreakpoint,
    removeBreakpoint, showMemory.
  keeps_auto.
Qed.

Lemma preserves_Step_checks : keeps Step_checks.
Proof. unfold Step_checks. keeps_auto. Qed.

Lemma preserves_Step_repl (input : list string) (ip : Z) (inst : string) :
  keeps (Step_repl ip inst input).
Proof.
  pose proof preserves_command.
  induction input as [|ln input IH]; cbn [Step_repl]; unfold prompt;
    keeps_auto.
Qed.

Lemma preserves_Step (cycles : Z) (input : list string) :
  keeps (Step cycles input).
Proof.
  pose proof preserves_Step_checks. pose proof preserves_Step_repl.
  unfold Step, Step_trace. keeps_auto.
Qed.

Lemma preserves_ReadByte (addr : Z) : keeps (ReadByte addr).
Proof. unfold ReadByte, owner. keeps_auto. Qed.

Lemma preserves_WriteByte (addr data : Z) : keeps (WriteByte addr data).
Proof. unfold WriteByte, owner. keeps_auto. Qed.

(** Every state the debugger can be in has at most 128 entries in its
    history. *)
Lemma reachable_history_ok (s : State) :
  reachable (P := P) s -> history_ok s.
Proof.
  induction 1 as [self p s Hdev | cycles input s s' res _ IH Hrun
                 | addr s s' v _ IH Hrun | addr data s s' _ IH Hrun
                 | s s' _ IH Hrun | s s' _ IH Hrun | regs w s _ IH
                 | s c _ IH Hsend].
  - unfold Install in Hdev.
    destruct (processor.InstallMemoryDevice self 0 1048575 p) as [[e|] p'];
      cbn in Hdev; split; rewrite Hdev; cbn; lia.
  - exact (preserves_Step cycles input s res s' IH Hrun).
  - exact (preserves_ReadByte addr s v s' IH Hrun).
  - exact (preserves_WriteByte addr data s tt s' IH Hrun).
  - exact (preserves_Break s tt s' IH Hrun).
  - exact (preserves_Continue s tt s' IH Hrun).
  - revert IH. apply history_ok_same; reflexivity.
  - revert IH. apply history_ok_same; reflexivity.
Qed.


(** *** Showing the history *)

(** The loop of [showHistory] prints the entries at the head of the
    channel and sends each of them to its back: after [k] rounds the
    history is turned by [k] places. *)
Lemma showHistory_loop_spec (n : nat) (i : Z) (s : State) :
  history_ok s ->
  0 <= i ->
  exists s',
    showHistory_loop n i s = Some (tt, s') /\
    chan_buf (historyChan (dev s')) =
      drop (Nat.min n (length (chan_buf (historyChan (dev s))) - Z.to_nat i))
        (chan_buf (historyChan (dev s)))
      ++ take (Nat.min n (length (chan_buf (historyChan (dev s)))
                          - Z.to_nat i))
           (chan_buf (historyChan (dev s))) /\
    numInstructionsLost (dev s') = numInstructionsLost (dev s) /\
    log s' =
      log s
      ++ map (fun e => Println [AStr e])
           (take (Nat.min n (length (chan_buf (historyChan (dev s)))
                             - Z.to_nat i))
              (chan_buf (historyChan (dev s)))).
Proof.
  revert i s. induction n as [|n IH]; intros i s Hok Hi.
  - exists s. cbn [showHistory_loop Nat.min]. rewrite drop_0, take_0.
    cbn [map]. rewrite !app_nil_r. repeat split; reflexivity.
  - cbn [showHistory_loop]. unfold history_recv, history_send. run.
    unfold chan_len.
    destruct (i <? Z.of_nat (length (chan_buf (historyChan (dev s)))))
      eqn:Ei.
    + apply Z.ltb_lt in Ei. unfold chan_recv.
      destruct Hok as [H1 H2 H3].
      destruct (chan_buf (historyChan (dev s))) as [|x rest] eqn:Eb;
        [cbn in Ei; lia|].
      cbn [length] in Ei, H2. cbn beta iota. fields.
      unfold chan_send. fields. rewrite H1.
      destruct (length rest <? 128)%nat eqn:El;
        [|apply Nat.ltb_ge in El; lia].
      cbn beta iota. fields.
      match goal with
      | |- context [showHistory_loop n (i + 1) ?st] =>
          destruct (IH (i + 1) st) as (s' & -> & Hbuf & Hlost & Hlog);
            [split; fields; [reflexivity | rewrite length_app; cbn; lia
                            | exact H3]
            | lia |]
      end.
      fields. exists s'. split; [reflexivity|].
      rewrite length_app in Hbuf, Hlog. cbn [length] in Hbuf, Hlog |- *.
      replace (length rest + 1 - Z.to_nat (i + 1))%nat
        with (length rest - Z.to_nat i)%nat in Hbuf, Hlog by lia.
      replace (S (length rest) - Z.to_nat i)%nat
        with (S (length rest - Z.to_nat i)) by lia.
      cbn [Nat.min drop take map].
      set (k := Nat.min n (length rest - Z.to_nat i)) in *.
      assert (k <= length rest)%nat as Hk by (subst k; lia).
      rewrite drop_app_le, take_app_le in Hbuf by exact Hk.
      rewrite take_app_le in Hlog by exact Hk.
      split; [|split].
      * rewrite Hbuf, <- app_assoc. reflexivity.
      * exact Hlost.
      * rewrite Hlog, <- app_assoc. reflexivity.
    + apply Z.ltb_ge in Ei. exists s.
      replace (length (chan_buf (historyChan (dev s))) - Z.to_nat i)%nat
        with 0%nat by lia.
      rewrite Nat.min_0_r, drop_0, take_0. cbn [map]. rewrite !app_nil_r.
      repeat split; reflexivity.
Qed.

(** The command [t] on a history of more than sixteen entries: the
    sixteen entries at the head are printed and moved behind the others.
    On a history in the order of the pushes these are the sixteen
    oldest. *)
Lemma showHistory_16_turns (s : State) :
  history_ok s ->
  (16 < length (chan_buf (historyChan (dev s))))%nat ->
  exists s',
    showHistory 16 s = Some (tt, s') /\
    chan_buf (historyChan (dev s')) =
      drop 16 (chan_buf (historyChan (dev s)))
      ++ take 16 (chan_buf (historyChan (dev s))) /\
    log s' =
      log s
      ++ Println [AStr "| Lost instructions:";
                  AInt (numInstructionsLost (dev s))]
         :: map (fun e => Println [AStr e])
              (take 16 (chan_buf (historyChan (dev s)))).
Proof.
  intros Hok Hlen. unfold showHistory. run.
  match goal with
  | |- context [showHistory_loop _ 0 ?st] =>
      destruct (showHistory_loop_spec (Z.to_nat 16) 0 st)
        as (s' & Hrun & Hbuf & _ & Hlog);
        [revert Hok; apply history_ok_same; reflexivity | lia |]
  end.
  fields. change (Z.to_nat 0) with 0%nat in Hbuf, Hlog.
  rewrite Nat.sub_0_r in Hbuf, Hlog.
  change (Z.to_nat 16) with 16%nat in Hrun, Hbuf, Hlog.
  rewrite Nat.min_l in Hbuf, Hlog by lia.
  exists s'. split; [exact Hrun|]. split; [exact Hbuf|].
  rewrite Hlog, <- app_assoc. reflexivity.
Qed.

(** *** The table of owners

    No method of the debugger writes to [memPeripherals]: the table stays
    as [Install] recorded it. *)

Local Abbreviation fixes t c :=
  (preserves (D := D) (W := W) (fun s => memPeripherals (dev s) = t) c).

Ltac table_step :=
  first
    [ solve [auto]
    | apply preserves_ret
    | apply preserves_gets
    | apply preserves_stuck
    | apply preserves_when
    | apply preserves_modify; intros ? Hs; exact Hs
    | apply preserves_on_world; intros ? ? Hs; exact Hs
    | apply preserves_bind; [|intros ?]
    | match goal with
      | |- preserves _ (if ?b then _ else _) => destruct b
      | |- preserves _ (match ?x with _ => _ end) => destruct x
      end ].

Ltac table_auto := repeat table_step.

Section Table.

Variable t : Z -> option D.

Lemma table_read_bytes (n : nat) (from : Z) : fixes t (read_bytes n from).
Proof.
  revert from. induction n as [|n IH]; intros from; cbn [read_bytes];
    table_auto.
Qed.

Lemma table_renderVideo_row (cols : nat) (p : Z) :
  fixes t (renderVideo_row cols p).
Proof.
  revert p. induction cols as [|n IH]; intros p; cbn [renderVideo_row];
    table_auto.
Qed.

Lemma table_renderVideo_rows (rows : nat) (p : Z) :
  fixes t (renderVideo_rows rows p).
Proof.
  pose proof table_renderVideo_row.
  revert p. induction rows as [|n IH]; intros p; cbn [renderVideo_rows];
    table_auto.
Qed.

Lemma table_showBreakpoints_from (brs : list Z) (i : Z) :
  fixes t (showBreakpoints_from i brs).
Proof.
  revert i. induction brs as [|br brs IH]; intros i;
    cbn [showBreakpoints_from]; table_auto.
Qed.

Lemma table_showHistory_loop (n : nat) (i : Z) :
  fixes t (showHistory_loop n i).
Proof.
  revert i. induction n as [|n IH]; intros i; cbn [showHistory_loop];
    table_auto.
Qed.

Lemma table_showMemMap_loop (n : nat) (i startAddr : Z)
    (lastDeviceName : string) :
  fixes t (showMemMap_loop n i startAddr lastDeviceName).
Proof.
  revert i startAddr lastDeviceName.
  induction n as [|n IH]; intros i startAddr lastDeviceName;
    cbn [showMemMap_loop]; table_auto.
Qed.

Lemma table_check_breakpoints (brs : list Z) (i : Z) :
  fixes t (check_breakpoints i brs).
Proof.
  revert i. induction brs as [|br brs IH]; intros i;
    cbn [check_breakpoints]; table_auto.
Qed.

Lemma table_command (ip : Z) (inst ln : string) : fixes t (command ip inst ln).
Proof.
  pose proof table_read_bytes. pose proof table_renderVideo_rows.
  pose proof table_showBreakpoints_from. pose proof table_showHistory_loop.
  pose proof table_showMemMap_loop.
  unfold command, printRegisters, renderVideo, showHistory, showBreakpoints,
    showMemMap, setCodeOffset, showHistoryWithLength, setBreakpoint,
    removeBreakpoint, showMemory, drainHistory.
  table_auto.
Qed.

Lemma table_Step_repl (input : list string) (ip : Z) (inst : string) :
  fixes t (Step_repl ip inst input).
Proof.
  pose proof table_command.
  induction input as [|ln input IH]; cbn [Step_repl]; unfold prompt;
    table_auto.
Qed.

Lemma table_Step (cycles : Z) (input : list string) :
  fixes t (Step cycles input).
Proof.
  pose proof table_check_breakpoints. pose proof table_Step_repl.
  unfold Step, Step_checks, Step_trace, pushHistory. table_auto.
Qed.

Lemma table_ReadByte (addr : Z) : fixes t (ReadByte addr).
Proof. unfold ReadByte, owner. table_auto. Qed.

Lemma table_WriteByte (addr data : Z) : fixes t (WriteByte addr data).
Proof. unfold WriteByte, owner. table_auto. Qed.

End Table.

(** *** Memory accesses through the debugger *)

Lemma Install_records (self : D) (p : P) (m : @Device D) (a : Z) :
  0 <= a < 0x100000 ->
  memPeripherals (Install self p m).1.2 a =
    Some (processor.GetMappedMemoryDevice a p).
Proof.
  intros Ha. unfold Install.
  assert (memory.Pointer a = a) as Hp.
  { unfold memory.Pointer, uint32, wrap_unsigned.
    apply Z.mod_small. change (2 ^ 32) with 4294967296. lia. }
  destruct (processor.InstallMemoryDevice self 0 1048575 p) as [[e|] p'];
    cbn [fst snd memPeripherals set_memPeripherals];
    rewrite Hp;
    destruct (0 <=? a) eqn:E1; destruct (a <? 1048576) eqn:E2;
    try reflexivity; lia.
Qed.

Lemma BIOS_error_byte : memory.NewPointer 0x40 0x15 = 0x415.
Proof. reflexivity. Qed.

(** C8.  With the table of owners as [Install] recorded it, a read
    through the debugger is the read of the recorded owner, and a write
    is the write of the recorded owner followed by a break exactly when
    the byte is not zero and the address is that of segment [0x40],
    offset [0x15]. *)
Theorem debugger_forwards (self : D) (p : P) (m0 : @Device D) (s : State)
    (a d : Z) :
  memPeripherals (dev s) = memPeripherals (Install self p m0).1.2 ->
  0 <= a < 0x100000 ->
  ReadByte a s =
    on_world (memory.ReadByte (processor.GetMappedMemoryDevice a p) a) s /\
  exists s',
    WriteByte a d s = Some (tt, s') /\
    world s' =
      memory.WriteByte (processor.GetMappedMemoryDevice a p) a d (world s)
    /\
    dev s' = dev s /\
    (d <> 0 /\ a = memory.NewPointer 0x40 0x15 ->
       debugBreak s' = true /\ processor.Debug (r s') = true /\
       log s' = log s ++ [Printf "BIOS Error: 0x%X" [AInt d]]) /\
    (~ (d <> 0 /\ a = memory.NewPointer 0x40 0x15) ->
       debugBreak s' = debugBreak s /\ r s' = r s /\ log s' = log s).
Proof.
  intros Htable Ha.
  assert (owner a s = Some (processor.GetMappedMemoryDevice a p, s))
    as Howner.
  { unfold owner.
    destruct (0 <=? a) eqn:E1; [|lia].
    destruct (a <? 1048576) eqn:E2; [|lia].
    cbn [andb]. run. rewrite Htable, Install_records by lia. reflexivity. }
  split.
  - unfold ReadByte. unfold bind. rewrite Howner. reflexivity.
  - unfold WriteByte. unfold bind at 1. rewrite Howner.
    run. rewrite BIOS_error_byte.
    destruct (d =? 0) eqn:Ed; destruct (a =? 0x415) eqn:Ea;
      cbn [negb andb]; eexists; (split; [reflexivity|]); fields;
      repeat split; try reflexivity; try lia.
    all: try (intros [Hd Haddr]; lia).
    all: try (intros Hnot; exfalso; apply Hnot; lia).
Qed.

(** *** Single-stepping *)

Lemma Step_repl_running (ip : Z) (inst : string) (input : list string)
    (s : State) :
  debugBreak s = false ->
  Step_repl ip inst input s = Some ((None, input), s).
Proof.
  intros Hb. destruct input; cbn [Step_repl]; run; rewrite Hb; reflexivity.
Qed.

(** The commands [s] and the empty line. *)
Lemma command_step (ip : Z) (inst ln : string) (s : State) :
  ln = "s" \/ ln = EmptyString ->
  command ip inst ln s =
    Some (None,
          set_dev (set_lastInstruction ip (dev s))
            (set_r (processor.set_Debug false (r s))
               (set_debugBreak false s))).
Proof. intros [-> | ->]; reflexivity. Qed.

(** *** A debugger that is not stopped *)

Lemma check_breakpoints_quiet (brs : list Z) (i : Z) (s : State) :
  ~ List.In (processor.IP (r s)) brs ->
  check_breakpoints i brs s = Some (tt, s).
Proof.
  revert i. induction brs as [|br brs IH]; intros i Hnot.
  - reflexivity.
  - cbn [check_breakpoints]. run.
    destruct (processor.IP (r s) =? br) eqn:E.
    + apply Z.eqb_eq in E. exfalso. apply Hnot. left. symmetry. exact E.
    + cbn beta iota. apply IH. intros Hin. apply Hnot. right. exact Hin.
Qed.

(** Nothing asks for a break: the top of [Step] fetches the opcode and
    changes nothing else. *)
Lemma Step_checks_quiet (s : State) :
  processor.Debug (r s) = false ->
  chan_buf (signChan (dev s)) = [] ->
  lastInstruction (dev s) = 0
  \/ lastInstruction (dev s) =
       memory.NewPointer (processor.CS (r s)) (processor.IP (r s)) ->
  breakOnIRET (dev s) = false
  \/ (p_ReadByte
        (memory.NewPointer (processor.CS (r s)) (processor.IP (r s)))
        (world s)).1 <> 0xCF ->
  ~ List.In (processor.IP (r s)) (breakpoints (dev s)) ->
  Step_checks s =
    Some ((memory.NewPointer (processor.CS (r s)) (processor.IP (r s)),
           instructionToString
             (p_ReadByte
                (memory.NewPointer (processor.CS (r s)) (processor.IP (r s)))
                (world s)).1),
          set_world
            (p_ReadByte
               (memory.NewPointer (processor.CS (r s)) (processor.IP (r s)))
               (world s)).2 s).
Proof.
  intros Hdbg Hsig Hlast Hiret Hbrs.
  set (ip := memory.NewPointer (processor.CS (r s)) (processor.IP (r s)))
    in *.
  unfold Step_checks. run. fold ip.
  rewrite Hdbg. cbn beta iota. unfold chan_recv. rewrite Hsig.
  cbn beta iota. fields. fold ip.
  destruct (p_ReadByte ip (world s)) as [op w1] eqn:Eop.
  cbn beta iota. fields.
  assert ((0 <? lastInstruction (dev s))
          && negb (lastInstruction (dev s) =? ip) = false) as ->.
  { destruct Hlast as [-> | ->]; [reflexivity|].
    rewrite Z.eqb_refl. apply andb_false_r. }
  cbn beta iota. fields.
  assert (breakOnIRET (dev s) && (op =? 0xCF) = false) as ->.
  { destruct Hiret as [-> | Hop]; [reflexivity|].
    apply andb_false_iff. right. apply Z.eqb_neq. exact Hop. }
  cbn beta iota. fields.
  rewrite check_breakpoints_quiet by (fields; exact Hbrs).
  reflexivity.
Qed.


(** X11.  At the end of the input stream a stopped debugger does not
    hang: the empty line [readLine] then returns is the single-step
    command, so [Step] clears the break, stores the address of [CS:IP] as
    the instruction to step from and returns. *)
Theorem Step_at_end_of_input (s : State) (cycles : Z) :
  history_ok s ->
  debugBreak s = true ->
  exists s',
    Step cycles [] s = Some ((None, []), s') /\
    debugBreak s' = false /\
    processor.Debug (r s') = false /\
    lastInstruction (dev s') =
      memory.NewPointer (processor.CS (r s)) (processor.IP (r s)).
Proof.
  intros Hok Hbrk.
  destruct (Step_checks_spec s)
    as (s0 & Hrun & Hcs & Hip & Htr & Hh & Hl & Hoff & Hb & _ & _).
  set (ip := memory.NewPointer (processor.CS (r s)) (processor.IP (r s)))
    in *.
  set (inst := instructionToString (p_ReadByte ip (world s)).1) in *.
  unfold Step. unfold bind at 1. rewrite Hrun.
  cbn [Step_repl]. unfold prompt. run. rewrite (Hb Hbrk).
  match goal with
  | |- context [command ip inst EmptyString ?st] =>
      rewrite (command_step ip inst EmptyString st (or_intror eq_refl))
  end.
  fields. unfold Step_trace. run.
  match goal with
  | |- context [if ?b then _ else _] => destruct b
  end.
  - match goal with
    | |- context [pushHistory ?e ?st] =>
        destruct (pushHistory_spec e st) as (s' & -> & Hs & _);
          [revert Hok; apply history_ok_same; fields; assumption|]
    end.
    destruct Hs as (_ & Hlast & _ & _ & _ & _ & Hdb & _ & Hr & _ & _).
    exists s'. split; [reflexivity|].
    rewrite Hdb, Hr, Hlast. repeat split.
  - eexists. split; [reflexivity|]. repeat split.
Qed.

(** X12.  The command [q] makes [Step] return [ErrQuit] with the rest
    of the input unread; the break stays asserted and the history is left
    alone: the instruction the user quits at is not traced. *)
Theorem Step_quit (s : State) (cycles : Z) (input : list string) :
  debugBreak s = true ->
  exists s',
    Step cycles ("q" :: input) s = Some ((Some ErrQuit, input), s') /\
    debugBreak s' = true /\
    historyChan (dev s') = historyChan (dev s) /\
    numInstructionsLost (dev s') = numInstructionsLost (dev s).
Proof.
  intros Hbrk.
  destruct (Step_checks_spec s)
    as (s0 & Hrun & Hcs & Hip & Htr & Hh & Hl & Hoff & Hb & _ & _).
  unfold Step. unfold bind at 1. rewrite Hrun.
  cbn [Step_repl]. unfold prompt. run. rewrite (Hb Hbrk).
  unfold command. change (String.eqb "q" "q") with true.
  cbn beta iota. eexists. split; [reflexivity|]. fields.
  repeat split; auto.
Qed.

(** *** The latch for [IRET] and the interrupt signal *)

Lemma Step_checks_latches (s : State) :
  let ip :=
    memory.NewPointer (processor.CS (r s)) (processor.IP (r s)) in
  let op := (p_ReadByte ip (world s)).1 in
  exists v s0,
    Step_checks s = Some (v, s0) /\
    (breakOnIRET (dev s) = true -> op = 0xCF ->
       debugBreak s0 = true /\ processor.Debug (r s0) = true /\
       breakOnIRET (dev s0) = false) /\
    (op <> 0xCF -> breakOnIRET (dev s0) = breakOnIRET (dev s)) /\
    (forall rest, chan_buf (signChan (dev s)) = tt :: rest ->
       debugBreak s0 = true /\ processor.Debug (r s0) = true /\
       chan_buf (signChan (dev s0)) = rest) /\
    (chan_buf (signChan (dev s)) = [] -> chan_buf (signChan (dev s0)) = []).
Proof.
  intros ip op. subst op. unfold Step_checks. run. fold ip.
  destruct (p_ReadByte ip (world s)) as [op w1] eqn:Eop.
  unfold chan_recv.
  destruct (processor.Debug (r s)) eqn:Edbg; cbn beta iota; fields;
    (destruct (chan_buf (signChan (dev s))) as [|[] sigs] eqn:Esig;
     cbn beta iota; fields);
    fold ip; rewrite Eop; cbn beta iota; fields;
    (destruct ((0 <? lastInstruction (dev s))
               && negb (lastInstruction (dev s) =? ip)) eqn:Elast;
     cbn beta iota; fields);
    (destruct (breakOnIRET (dev s)) eqn:Elatch; cbn [andb];
     [destruct (op =? 0xCF) eqn:Eiret|]; cbn beta iota; fields);
    (match goal with
     | |- context [check_breakpoints 0 ?brs ?st] =>
         destruct (check_breakpoints_spec brs 0 st)
           as (s0 & -> & Hd & Hw & Ht & Hcs & Hip & Hb & Hdb & Hin)
     end);
    eexists _, s0; (split; [reflexivity|]); rewrite Hd; fields;
    repeat split; auto;
    try discriminate;
    try (intros; apply Z.eqb_eq in Eiret; contradiction);
    try (intros; apply Z.eqb_neq in Eiret; contradiction);
    try congruence.
Qed.

(** X13.  The command [i] clears the break and arms a latch; the next
    [Step] that fetches the opcode [0xCF] ([IRET]) asserts the break and
    disarms the latch, and a [Step] that fetches another opcode leaves
    the latch armed. *)
Theorem break_on_IRET (s : State) (ip : Z) (inst : string) :
  exists s1,
    command ip inst "i" s = Some (None, s1) /\
    debugBreak s1 = false /\
    processor.Debug (r s1) = false /\
    breakOnIRET (dev s1) = true /\
    forall s2 : State,
      breakOnIRET (dev s2) = breakOnIRET (dev s1) ->
      exists v s3,
        Step_checks s2 = Some (v, s3) /\
        ((p_ReadByte
            (memory.NewPointer (processor.CS (r s2)) (processor.IP (r s2)))
            (world s2)).1 = 0xCF ->
         debugBreak s3 = true /\ processor.Debug (r s3) = true /\
         breakOnIRET (dev s3) = false) /\
        ((p_ReadByte
            (memory.NewPointer (processor.CS (r s2)) (processor.IP (r s2)))
            (world s2)).1 <> 0xCF ->
         breakOnIRET (dev s3) = true).
Proof.
  eexists. split; [reflexivity|]. fields.
  split; [reflexivity|]. split; [reflexivity|]. split; [reflexivity|].
  intros s2 Hlatch.
  destruct (Step_checks_latches s2) as (v & s3 & Hrun & Hiret & Hkeep & _).
  exists v, s3. split; [exact Hrun|]. split.
  - intros Hop. apply Hiret; assumption.
  - intros Hop. rewrite (Hkeep Hop). exact Hlatch.
Qed.

(** X14.  An interrupt signal that is waiting when [Step] is entered is
    taken off the signal channel and asserts the break. *)
Theorem signal_breaks (s : State) (rest : list unit) :
  chan_buf (signChan (dev s)) = tt :: rest ->
  exists v s',
    Step_checks s = Some (v, s') /\
    debugBreak s' = true /\
    processor.Debug (r s') = true /\
    chan_buf (signChan (dev s')) = rest.
Proof.
  intros Hsig.
  destruct (Step_checks_latches s) as (v & s' & Hrun & _ & _ & Htake & _).
  exists v, s'. split; [exact Hrun|]. exact (Htake rest Hsig).
Qed.

(** *** Commands on the history *)

(** X15.  The command [t N] with [N] at most zero, or at least the
    number of entries, prints the line of the lost instructions and then
    every entry of the history in the order of the channel, from its head
    on; it leaves the channel and the counter as they were.  Nothing is
    said of the age of the entries: the order of the channel is the order
    of the pushes only until a [t] has stopped short of the whole
    history. *)
Theorem show_whole_history (s : State) (hl : string) (num : Z) :
  history_ok s ->
  Sscanf_d hl = Some num ->
  num <= 0 \/ chan_len (historyChan (dev s)) <= num ->
  exists s',
    showHistoryWithLength hl s = Some (tt, s') /\
    chan_buf (historyChan (dev s')) = chan_buf (historyChan (dev s)) /\
    numInstructionsLost (dev s') = numInstructionsLost (dev s) /\
    log s' =
      log s
      ++ Println [AStr "| Lost instructions:";
                  AInt (numInstructionsLost (dev s))]
         :: map (fun e => Println [AStr e]) (chan_buf (historyChan (dev s))).
Proof.
  intros Hok Hscan Hnum. unfold showHistoryWithLength. rewrite Hscan.
  set (n := if num <=? 0 then 0xFFFFF else num).
  assert (length (chan_buf (historyChan (dev s))) <= Z.to_nat n)%nat as Hn.
  { destruct Hok as [_ Hlen _]. unfold chan_len in Hnum. subst n.
    destruct (num <=? 0) eqn:E; [lia|].
    apply Z.leb_gt in E. lia. }
  unfold showHistory. run.
  match goal with
  | |- context [showHistory_loop _ 0 ?st] =>
      destruct (showHistory_loop_spec (Z.to_nat n) 0 st)
        as (s' & Hrun & Hbuf & Hlost & Hlog);
        [revert Hok; apply history_ok_same; reflexivity | lia |]
  end.
  fields. change (Z.to_nat 0) with 0%nat in Hbuf, Hlog.
  rewrite Nat.sub_0_r, Nat.min_r in Hbuf, Hlog by exact Hn.
  rewrite drop_all, take_ge in Hbuf by lia.
  rewrite take_ge in Hlog by lia.
  exists s'. split; [exact Hrun|]. split; [exact Hbuf|].
  split; [exact Hlost|].
  rewrite Hlog, <- app_assoc. reflexivity.
Qed.

Lemma drained_count (buf : list string) (lost : Z) :
  drained buf lost = (lost + Z.of_nat (length buf)) mod 2 ^ 64 \/
  (buf = [] /\ drained buf lost = lost).
Proof.
  destruct buf as [|x buf]; [right; split; reflexivity|]. left.
  revert x lost. induction buf as [|y buf IH]; intros x lost.
  - cbn. reflexivity.
  - change (drained (x :: y :: buf) lost)
      with (drained (y :: buf) (uint64 (lost + 1))).
    rewrite IH. unfold uint64, wrap_unsigned.
    rewrite Z.add_mod_idemp_l by (cbn; lia).
    f_equal. cbn [length]. lia.
Qed.

(** X16.  The command [ct] empties the history and counts every entry
    it held as lost. *)
Theorem clear_trace (s : State) (ip : Z) (inst : string) :
  history_ok s ->
  exists s',
    command ip inst "ct" s = Some (None, s') /\
    chan_buf (historyChan (dev s')) = [] /\
    chan_cap (historyChan (dev s')) = 128%nat /\
    numInstructionsLost (dev s') =
      (numInstructionsLost (dev s)
       + chan_len (historyChan (dev s))) mod 2 ^ 64 /\
    debugBreak s' = debugBreak s.
Proof.
  intros [Hcap Hlen Hlost].
  eexists. split; [reflexivity|]. fields.
  split; [reflexivity|]. split; [exact Hcap|]. split; [|reflexivity].
  unfold chan_len.
  destruct (drained_count (chan_buf (historyChan (dev s)))
              (numInstructionsLost (dev s))) as [-> | [-> ->]];
    [reflexivity|].
  cbn [length]. rewrite Z.add_0_r. symmetry. apply Z.mod_small. exact Hlost.
Qed.

(** [pushHistory_each] keeps the history in order. *)
Lemma pushHistory_each_spec (insts : list string) (s : State) :
  history_ok s ->
  exists s',
    pushHistory_each insts s = Some (tt, s') /\
    history_ok s' /\
    same_outside_history s s' /\
    chan_buf (historyChan (dev s')) =
      drop (length (chan_buf (historyChan (dev s)) ++ insts) - 128)
        (chan_buf (historyChan (dev s)) ++ insts) /\
    numInstructionsLost (dev s') =
      (numInstructionsLost (dev s)
       + Z.of_nat (length (chan_buf (historyChan (dev s)) ++ insts) - 128))
      mod 2 ^ 64.
Proof.
  revert s. induction insts as [|inst insts IH]; intros s Hok.
  - exists s. split; [reflexivity|]. split; [exact Hok|].
    split; [repeat split|].
    destruct Hok as [_ Hlen Hlost]. rewrite app_nil_r.
    replace (length (chan_buf (historyChan (dev s))) - 128)%nat
      with 0%nat by lia.
    rewrite drop_0, Z.add_0_r. split; [reflexivity|].
    symmetry. apply Z.mod_small. exact Hlost.
  - cbn [pushHistory_each]. unfold bind.
    destruct (pushHistory_spec inst s Hok)
      as (s1 & Hrun & Hsame1 & Hcap1 & Hroom & Hfull).
    pose proof (preserves_pushHistory inst s tt s1 Hok Hrun) as Hok1.
    rewrite Hrun.
    destruct (IH s1 Hok1) as (s' & Hrun' & Hok' & Hsame' & Hbuf & Hlost).
    exists s'. split; [exact Hrun'|]. split; [exact Hok'|]. split.
    { destruct Hsame1 as (A1 & A2 & A3 & A4 & A5 & A6 & A7 & A8 & A9 & A10
                          & A11).
      destruct Hsame' as (B1 & B2 & B3 & B4 & B5 & B6 & B7 & B8 & B9 & B10
                          & B11).
      repeat split; congruence. }
    destruct Hok as [_ Hlen Hlost0].
    destruct (Nat.eq_dec (length (chan_buf (historyChan (dev s)))) 128%nat)
      as [Hl | Hl].
    + destruct (Hfull Hl) as [Hb1 Hn1].
      destruct (chan_buf (historyChan (dev s))) as [|x b] eqn:Eb;
        [cbn in Hl; lia|].
      cbn [drop] in Hb1. rewrite drop_0 in Hb1.
      rewrite Hb1 in Hbuf, Hlost. rewrite Hn1 in Hlost.
      rewrite <- app_assoc in Hbuf, Hlost. cbn [app] in Hbuf, Hlost.
      cbn [length] in Hl.
      rewrite !length_app in *. cbn [length] in *.
      replace (S (length b) + S (length insts) - 128)%nat
        with (S (length b + S (length insts) - 128)) by lia.
      split.
      * rewrite Hbuf. reflexivity.
      * rewrite Hlost. unfold uint64, wrap_unsigned.
        rewrite Z.add_mod_idemp_l by (cbn; lia). f_equal. lia.
    + destruct Hroom as [Hb1 Hn1]; [lia|].
      rewrite Hb1 in Hbuf, Hlost. rewrite Hn1 in Hlost.
      rewrite <- app_assoc in Hbuf, Hlost. cbn [app] in Hbuf, Hlost.
      split; assumption.
Qed.

(** X17.  Pushing the entries of a list one after the other leaves in
    the channel the last 128 entries of its former content followed by
    the list, in that order, and adds to the counter of lost instructions
    the number of entries before them, which fell off the head.  The
    statement is about places in the channel, not about the age of the
    entries. *)
Theorem history_keeps_last_128 (insts : list string) (s : State) :
  history_ok s ->
  exists s',
    pushHistory_each insts s = Some (tt, s') /\
    chan_buf (historyChan (dev s')) =
      drop (length (chan_buf (historyChan (dev s)) ++ insts) - 128)
        (chan_buf (historyChan (dev s)) ++ insts) /\
    numInstructionsLost (dev s') =
      (numInstructionsLost (dev s)
       + Z.of_nat (length (chan_buf (historyChan (dev s)) ++ insts) - 128))
      mod 2 ^ 64.
Proof.
  intros Hok.
  destruct (pushHistory_each_spec insts s Hok)
    as (s' & Hrun & _ & _ & Hbuf & Hlost).
  exists s'. split; [exact Hrun|]. split; assumption.
Qed.

(** *** Commands on the breakpoints *)

(** X18.  The command [rb N] checks its index against the number of
    breakpoints only: a negative index passes the check and [Step]
    panics on the index out of range. *)
Theorem removeBreakpoint_negative (s : State) (br : string) (i : Z) :
  Sscanf_d br = Some i ->
  i < 0 ->
  removeBreakpoint br s = None.
Proof.
  intros Hscan Hneg. unfold removeBreakpoint. rewrite Hscan. run.
  destruct (i <? Z.of_nat (length (breakpoints (dev s)))) eqn:E;
    [|apply Z.ltb_ge in E; lia].
  destruct (i <? 0) eqn:E0; [reflexivity | apply Z.ltb_ge in E0; lia].
Qed.

(** X19.  The command [rb N] with an index in range takes that
    breakpoint out and keeps the others in their order; with an index
    past the end, or with no number to scan, it changes nothing. *)
Theorem removeBreakpoint_removes (s : State) (br : string) :
  (forall i, Sscanf_d br = Some i ->
     0 <= i < Z.of_nat (length (breakpoints (dev s))) ->
     exists s' b,
       removeBreakpoint br s = Some (tt, s') /\
       breakpoints (dev s) !! Z.to_nat i = Some b /\
       breakpoints (dev s) =
         take (Z.to_nat i) (breakpoints (dev s'))
         ++ b :: drop (Z.to_nat i) (breakpoints (dev s')) /\
       S (length (breakpoints (dev s'))) = length (breakpoints (dev s))) /\
  (forall i, Sscanf_d br = Some i ->
     Z.of_nat (length (breakpoints (dev s))) <= i ->
     removeBreakpoint br s = Some (tt, s)) /\
  (Sscanf_d br = None -> removeBreakpoint br s = Some (tt, s)).
Proof.
  split; [|split].
  - intros i Hscan Hi. unfold removeBreakpoint. rewrite Hscan. run.
    destruct (i <? Z.of_nat (length (breakpoints (dev s)))) eqn:E;
      [|apply Z.ltb_ge in E; lia].
    destruct (i <? 0) eqn:E0; [apply Z.ltb_lt in E0; lia|].
    cbn beta iota. fields.
    destruct (lookup_lt_is_Some_2 (breakpoints (dev s)) (Z.to_nat i))
      as [b Hb]; [lia|].
    eexists _, b. split; [reflexivity|]. fields.
    split; [exact Hb|].
    set (brs := breakpoints (dev s)) in *.
    replace (Z.to_nat (i + 1)) with (S (Z.to_nat i)) by lia.
    assert (length (take (Z.to_nat i) brs) = Z.to_nat i) as Htake
      by (rewrite length_take; lia).
    split.
    + rewrite take_app_length' by (symmetry; exact Htake).
      rewrite drop_app_length' by (symmetry; exact Htake).
      rewrite <- (take_drop_middle brs (Z.to_nat i) b Hb) at 1.
      reflexivity.
    + rewrite length_app, length_take, length_drop. lia.
  - intros i Hscan Hi. unfold removeBreakpoint. rewrite Hscan. run.
    destruct (i <? Z.of_nat (length (breakpoints (dev s)))) eqn:E;
      [apply Z.ltb_lt in E; lia | reflexivity].
  - intros Hscan. unfold removeBreakpoint. rewrite Hscan. reflexivity.
Qed.

(** X20.  A breakpoint set with [b HEX] is appended to the list, and
    from then on a [Step] entered with [IP] equal to it asserts the
    break. *)
Theorem setBreakpoint_breaks (s : State) (br : string) (b : Z) :
  Sscanf_x br = Some b ->
  exists s1,
    setBreakpoint br s = Some (tt, s1) /\
    breakpoints (dev s1) = breakpoints (dev s) ++ [b] /\
    forall s2 : State,
      breakpoints (dev s2) = breakpoints (dev s1) ->
      processor.IP (r s2) = b ->
      exists v s3,
        Step_checks s2 = Some (v, s3) /\
        debugBreak s3 = true /\ processor.Debug (r s3) = true.
Proof.
  intros Hscan. unfold setBreakpoint. rewrite Hscan. run.
  eexists. split; [reflexivity|]. fields. split; [reflexivity|].
  intros s2 Hbrs Hip.
  destruct (Step_checks_spec s2)
    as (s3 & Hrun & _ & _ & _ & _ & _ & _ & _ & Hbrk & _).
  eexists _, s3. split; [exact Hrun|]. apply Hbrk.
  rewrite Hbrs, Hip. apply in_or_app. right. left. reflexivity.
Qed.

(** X21.  Setting a breakpoint and removing the one at the last index
    gives the list of breakpoints back. *)
Theorem set_then_remove_breakpoint (s : State) (br idx : string) (b : Z) :
  Sscanf_x br = Some b ->
  Sscanf_d idx = Some (Z.of_nat (length (breakpoints (dev s)))) ->
  exists s1 s2,
    setBreakpoint br s = Some (tt, s1) /\
    removeBreakpoint idx s1 = Some (tt, s2) /\
    breakpoints (dev s2) = breakpoints (dev s).
Proof.
  intros Hx Hd. unfold setBreakpoint, removeBreakpoint. rewrite Hx, Hd. run.
  eexists _, _. split; [reflexivity|]. fields.
  rewrite length_app. cbn [length].
  set (n := length (breakpoints (dev s))).
  destruct (Z.of_nat n <? Z.of_nat (n + 1)) eqn:E;
    [|apply Z.ltb_ge in E; lia].
  destruct (Z.of_nat n <? 0) eqn:E0; [apply Z.ltb_lt in E0; lia|].
  cbn beta iota. fields. split; [reflexivity|].
  rewrite Nat2Z.id.
  replace (Z.to_nat (Z.of_nat n + 1)) with (S n) by lia.
  subst n. rewrite take_app_length.
  rewrite drop_ge by (rewrite length_app; cbn; lia).
  apply app_nil_r.
Qed.

(** *** The video dump *)

Lemma ascii_code (n : Z) :
  0 <= n < 256 ->
  Z.of_N (Ascii.N_of_ascii (Ascii.ascii_of_N (Z.to_N n))) = n.
Proof.
  intros Hn. rewrite Ascii.N_ascii_embedding by lia. lia.
Qed.

(** X22.  [toASCII] yields one printable character for every byte: its
    code lies between [0x20] and [0x7E]. *)
Theorem toASCII_printable (b : Z) :
  0 <= b < 256 ->
  exists c,
    toASCII b = String c EmptyString /\
    0x20 <= Z.of_N (Ascii.N_of_ascii c) <= 0x7E.
Proof.
  intros Hb. unfold toASCII.
  destruct (b =? 0) eqn:E0; [eexists; split; [reflexivity | cbn; lia]|].
  destruct (b <? 0x20) eqn:E1; [eexists; split; [reflexivity | cbn; lia]|].
  destruct (0x7E <? b) eqn:E2; [eexists; split; [reflexivity | cbn; lia]|].
  eexists. split; [reflexivity|].
  rewrite ascii_code by exact Hb. lia.
Qed.

(** Two entries of the dump that show the byte at the same address. *)
Ltac same_address read :=
  match goal with
  | |- ?lhs = ?rhs =>
      match lhs with
      | context [read ?a] =>
          match rhs with
          | context [read ?b] =>
              first [ replace b with a by lia; reflexivity
                    | replace a with b by lia; reflexivity ]
          end
      end
  end.

(** What a row of the dump adds to the log, for memory that reads as
    [read], from the address [p] on. *)
Lemma renderVideo_row_spec (read : Z -> Z) (cols : nat) (p : Z) (s : State) :
  (forall a, p_ReadByte a (world s) = (read a, world s)) ->
  0 <= p -> p + 2 * Z.of_nat cols < 2 ^ 32 ->
  renderVideo_row cols p s =
    Some (p + 2 * Z.of_nat cols,
          set_log
            (log s
             ++ map (fun c : nat =>
                       Print [AStr (toASCII (read (p + 2 * Z.of_nat c))
                                    +:+ "<<<!")])
                  (seq 0 cols)) s).
Proof.
  revert p s. induction cols as [|n IH]; intros p s Hread Hp Hend.
  - cbn [renderVideo_row seq map]. rewrite app_nil_r.
    replace (p + 2 * Z.of_nat 0) with p by lia.
    destruct s. reflexivity.
  - cbn [renderVideo_row]. run. rewrite Hread. cbn beta iota. fields.
    assert (memory.Pointer (p + 2) = p + 2) as ->.
    { apply Z.mod_small. lia. }
    rewrite IH; [|exact Hread|lia|lia]. cbv [set_log set_world]. fields.
    replace (p + 2 + 2 * Z.of_nat n) with (p + 2 * Z.of_nat (S n)) by lia.
    do 3 f_equal.
    rewrite <- app_assoc. f_equal.
    change (seq 0 (S n)) with (0%nat :: seq 1 n).
    rewrite <- seq_shift, map_cons, map_map. cbn [app]. f_equal.
    + same_address read.
    + apply map_ext. intros c. same_address read.
Qed.

Lemma renderVideo_rows_spec (read : Z -> Z) (rows : nat) (p : Z) (s : State) :
  (forall a, p_ReadByte a (world s) = (read a, world s)) ->
  0 <= p -> p + 160 * Z.of_nat rows < 2 ^ 32 ->
  renderVideo_rows rows p s =
    Some (tt,
          set_log
            (log s
             ++ flat_map
                  (fun row : nat =>
                     Print [AStr "| <<<!"]
                     :: map (fun c : nat =>
                               Print
                                 [AStr (toASCII
                                          (read (p + 2 * (80 * Z.of_nat row
                                                          + Z.of_nat c)))
                                        +:+ "<<<!")])
                          (seq 0 80)
                     ++ [Print [AStr EmptyString]])
                  (seq 0 rows)) s).
Proof.
  revert p s. induction rows as [|n IH]; intros p s Hread Hp Hend.
  - cbn [renderVideo_rows seq flat_map]. rewrite app_nil_r.
    destruct s. reflexivity.
  - cbn [renderVideo_rows]. run.
    rewrite (renderVideo_row_spec read 80); [|exact Hread|lia|lia].
    cbn beta iota. fields.
    rewrite IH; [|exact Hread|lia|lia]. cbv [set_log set_world]. fields.
    generalize (seq 0 80). intros cols.
    do 3 f_equal.
    rewrite <- !app_assoc. f_equal.
    change (seq 0 (S n)) with (0%nat :: seq 1 n).
    rewrite <- seq_shift. cbn [flat_map app]. f_equal.
    rewrite <- !app_assoc. apply (f_equal2 (@app _)).
    + apply map_ext. intros c. same_address read.
    + cbn [app]. f_equal.
      rewrite !flat_map_concat_map, map_map. f_equal.
      apply map_ext. intros row. f_equal. apply (f_equal2 (@app _)); [|reflexivity].
      apply map_ext. intros c. same_address read.
Qed.

(** The dump for memory that reads as [read] and is left unchanged by a
    read: row [r], column [c] shows the byte at
    [0xB8000 + 2 * (80 * r + c)], each row between a leading bar and an
    empty entry. *)
Theorem renderVideo_dumps_cells (read : Z -> Z) (s : State) :
  (forall a, p_ReadByte a (world s) = (read a, world s)) ->
  renderVideo s =
    Some (tt,
          set_log
            (log s
             ++ flat_map
                  (fun row : nat =>
                     Print [AStr "| <<<!"]
                     :: map (fun c : nat =>
                               Print
                                 [AStr (toASCII
                                          (read (0xB8000
                                                 + 2 * (80 * Z.of_nat row
                                                        + Z.of_nat c)))
                                        +:+ "<<<!")])
                          (seq 0 80)
                     ++ [Print [AStr EmptyString]])
                  (seq 0 25)) s).
Proof.
  intros Hread. unfold renderVideo.
  apply renderVideo_rows_spec; [exact Hread | lia | cbn; lia].
Qed.


(** *** The reads of the dump *)

Lemma read_each_app (l1 l2 : list Z) (w : W) :
  read_each (l1 ++ l2) w =
    ((read_each l1 w).1 ++ (read_each l2 (read_each l1 w).2).1,
     (read_each l2 (read_each l1 w).2).2).
Proof.
  revert w. induction l1 as [|a l1 IH]; intros w.
  - cbn [app read_each fst snd]. destruct (read_each l2 w). reflexivity.
  - cbn [app read_each]. destruct (p_ReadByte a w) as [b w1].
    rewrite IH. destruct (read_each l1 w1) as [bs w2]. cbn [fst snd].
    destruct (read_each l2 w2) as [bs' w3]. reflexivity.
Qed.

Lemma read_each_length (l : list Z) (w : W) :
  length (read_each l w).1 = length l.
Proof.
  revert w. induction l as [|a l IH]; intros w; [reflexivity|].
  cbn [read_each]. destruct (p_ReadByte a w) as [b w1].
  specialize (IH w1). destruct (read_each l w1) as [bs w2].
  cbn [fst length] in *. rewrite IH. reflexivity.
Qed.

Lemma cells_from_length (p : Z) (n : nat) : length (cells_from p n) = n.
Proof. unfold cells_from. rewrite length_map, length_seq. reflexivity. Qed.

Lemma cells_from_S (p : Z) (n : nat) :
  cells_from p (S n) = p :: cells_from (p + 2) n.
Proof.
  unfold cells_from. change (seq 0 (S n)) with (0%nat :: seq 1 n).
  rewrite <- seq_shift, map_cons, map_map. f_equal; [lia|].
  apply map_ext. intros c. lia.
Qed.

Lemma cells_from_app (p : Z) (n k : nat) :
  cells_from p (n + k) =
    cells_from p n ++ cells_from (p + 2 * Z.of_nat n) k.
Proof.
  revert p. induction n as [|n IH]; intros p.
  - replace (p + 2 * Z.of_nat 0) with p by lia. reflexivity.
  - change (S n + k)%nat with (S (n + k)). rewrite !cells_from_S, IH.
    cbn [app]. do 3 f_equal. lia.
Qed.

(** A row of the dump reads the characters of its cells, and nothing
    else. *)
Lemma renderVideo_row_reads (cols : nat) (p : Z) (s : State) :
  0 <= p -> p + 2 * Z.of_nat cols < 2 ^ 32 ->
  renderVideo_row cols p s =
    Some (p + 2 * Z.of_nat cols,
          set_log
            (log s
             ++ map (fun b => Print [AStr (toASCII b +:+ "<<<!")])
                  (read_each (cells_from p cols) (world s)).1)
            (set_world (read_each (cells_from p cols) (world s)).2 s)).
Proof.
  revert p s. induction cols as [|n IH]; intros p s Hp Hend.
  - cbn [renderVideo_row cells_from seq map read_each fst snd].
    rewrite app_nil_r. replace (p + 2 * Z.of_nat 0) with p by lia.
    destruct s. reflexivity.
  - rewrite cells_from_S. cbn [renderVideo_row read_each]. run.
    destruct (p_ReadByte p (world s)) as [b w1]. cbn beta iota. fields.
    assert (memory.Pointer (p + 2) = p + 2) as ->.
    { apply Z.mod_small. lia. }
    rewrite IH by lia. fields.
    destruct (read_each (cells_from (p + 2) n) w1) as [bs w2].
    cbv [set_log set_world]. fields.
    replace (p + 2 + 2 * Z.of_nat n) with (p + 2 * Z.of_nat (S n)) by lia.
    rewrite <- app_assoc. reflexivity.
Qed.

(** The rows after the first one show the bytes after the first 80. *)
Lemma dump_rows_shift (row0 rest : list Z) (rows : list nat) :
  length row0 = 80%nat ->
  flat_map
    (fun row : nat =>
       Print [AStr "| <<<!"]
       :: map (fun b => Print [AStr (toASCII b +:+ "<<<!")])
            (take 80 (drop (80 * row) (row0 ++ rest)))
       ++ [Print [AStr EmptyString]])
    (map S rows) =
  flat_map
    (fun row : nat =>
       Print [AStr "| <<<!"]
       :: map (fun b => Print [AStr (toASCII b +:+ "<<<!")])
            (take 80 (drop (80 * row) rest))
       ++ [Print [AStr EmptyString]])
    rows.
Proof.
  intros Hlen. rewrite !flat_map_concat_map, map_map. f_equal.
  apply map_ext. intros row.
  replace (drop (80 * S row) (row0 ++ rest)) with (drop (80 * row) rest);
    [reflexivity|].
  replace (80 * S row)%nat with (length row0 + 80 * row)%nat by lia.
  rewrite drop_app_add'; reflexivity.
Qed.

Lemma renderVideo_rows_reads (rows : nat) (p : Z) (s : State) :
  0 <= p -> p + 160 * Z.of_nat rows < 2 ^ 32 ->
  renderVideo_rows rows p s =
    Some (tt,
          set_log
            (log s
             ++ flat_map
                  (fun row : nat =>
                     Print [AStr "| <<<!"]
                     :: map (fun b => Print [AStr (toASCII b +:+ "<<<!")])
                          (take 80
                             (drop (80 * row)
                                (read_each (cells_from p (80 * rows))
                                   (world s)).1))
                     ++ [Print [AStr EmptyString]])
                  (seq 0 rows))
            (set_world (read_each (cells_from p (80 * rows)) (world s)).2
               s)).
Proof.
  revert p s. induction rows as [|n IH]; intros p s Hp Hend.
  - cbn [renderVideo_rows Nat.mul cells_from seq map read_each flat_map
         fst snd].
    rewrite app_nil_r. destruct s. reflexivity.
  - cbn [renderVideo_rows]. run.
    rewrite renderVideo_row_reads by (fields; lia).
    cbn beta iota. fields. rewrite IH by lia. fields.
    replace (80 * S n)%nat with (80 + 80 * n)%nat by lia.
    rewrite cells_from_app, read_each_app.
    pose proof (read_each_length (cells_from p 80) (world s)) as Hlen.
    rewrite cells_from_length in Hlen.
    destruct (read_each (cells_from p 80) (world s)) as [row0 w1].
    cbn [fst snd] in *.
    destruct (read_each (cells_from _ (80 * n)) w1) as [rest w2].
    cbn [fst snd]. cbv [set_log set_world]. fields.
    change (seq 0 (S n)) with (0%nat :: seq 1 n).
    rewrite <- seq_shift. cbn [flat_map].
    rewrite Nat.mul_0_r, drop_0, take_app_length' by (symmetry; exact Hlen).
    rewrite dump_rows_shift by exact Hlen.
    rewrite <- ?app_assoc. cbn [app]. rewrite <- ?app_assoc. cbn [app].
    reflexivity.
Qed.

(** X23.  The command [v] dumps the text screen at [0xB8000] as 25 rows
    of 80 columns, whatever the mode and the page of the adapter.  It
    reads the 2000 even addresses from [0xB8000] on, in rising order, and
    nothing else: the store it leaves is the store those reads leave,
    whatever a read does to the store.  The attribute bytes, at the odd
    addresses, are not read.  Each row goes to the log as a leading bar,
    the 80 bytes read for it as characters, and an empty entry. *)
Theorem renderVideo_reads_characters (s : State) :
  renderVideo s =
    Some (tt,
          set_log
            (log s
             ++ flat_map
                  (fun row : nat =>
                     Print [AStr "| <<<!"]
                     :: map (fun b => Print [AStr (toASCII b +:+ "<<<!")])
                          (take 80
                             (drop (80 * row)
                                (read_each (cells_from 0xB8000 2000)
                                   (world s)).1))
                     ++ [Print [AStr EmptyString]])
                  (seq 0 25))
            (set_world (read_each (cells_from 0xB8000 2000) (world s)).2
               s)).
Proof.
  unfold renderVideo.
  rewrite renderVideo_rows_reads by lia. reflexivity.
Qed.

(** *** The memory map *)

Lemma device_name_log (l : list LogEntry) (s : State) (i : Z) :
  device_name (set_log l s) i = device_name s i.
Proof. reflexivity. Qed.

Lemma set_log_twice (l1 l2 : list LogEntry) (s : State) :
  set_log ((log s ++ l1) ++ l2) (set_log (log s ++ l1) s) =
  set_log (log s ++ l1 ++ l2) s.
Proof. rewrite <- app_assoc. reflexivity. Qed.

Lemma set_log_same (s : State) : set_log (log s ++ []) s = s.
Proof. rewrite app_nil_r. destruct s. reflexivity. Qed.

(** One pass of the loop of [showMemMap]. *)
Lemma showMemMap_pass (n : nat) (i startAddr : Z) (lastDeviceName : string)
    (s : State) :
  exists l startAddr',
    showMemMap_loop (S n) i startAddr lastDeviceName s =
      showMemMap_loop n (i + 1) startAddr' (device_name s i)
        (set_log (log s ++ l) s) /\
    ((negb (String.eqb lastDeviceName (device_name s i)) || (i =? 0xFFFFF))
     && (0 <? i) = false -> l = [] /\ startAddr' = startAddr) /\
    ((negb (String.eqb lastDeviceName (device_name s i)) || (i =? 0xFFFFF))
     && (0 <? i) = true ->
     startAddr' = i /\
     l = [if startAddr =? i - 1
          then Printf "0x%X: %s" [AInt startAddr; AStr lastDeviceName]
          else Printf "0x%X-0x%X: %s"
                 [AInt startAddr;
                  AInt (if i =? 0xFFFFF then i - 1 + 1 else i - 1);
                  AStr lastDeviceName]]).
Proof.
  cbn [showMemMap_loop]. run. fold (device_name s i).
  destruct ((negb (String.eqb lastDeviceName (device_name s i))
             || (i =? 0xFFFFF)) && (0 <? i)) eqn:Econd.
  - destruct (startAddr =? i - 1) eqn:Esingle; run;
      eexists _, _; (split; [reflexivity|]);
      (split; [discriminate|]); intros _; split; reflexivity.
  - exists [], startAddr. rewrite set_log_same.
    split; [reflexivity|]. split; [auto | discriminate].
Qed.

(** The passes up to an address, whatever they print. *)
Lemma showMemMap_passes (n rest : nat) (i startAddr : Z)
    (lastDeviceName : string) (s : State) :
  (0 < n)%nat ->
  exists l startAddr',
    showMemMap_loop (n + rest) i startAddr lastDeviceName s =
      showMemMap_loop rest (i + Z.of_nat n) startAddr'
        (device_name s (i + Z.of_nat n - 1)) (set_log (log s ++ l) s).
Proof.
  revert i startAddr lastDeviceName s.
  induction n as [|n IH]; intros i startAddr lastDeviceName s Hn; [lia|].
  cbn [Nat.add].
  destruct (showMemMap_pass (n + rest) i startAddr lastDeviceName s)
    as (l & start1 & -> & _).
  destruct n as [|n].
  - exists l, start1. cbn [Nat.add].
    replace (i + Z.of_nat 1) with (i + 1) by lia.
    replace (i + 1 - 1) with i by lia. reflexivity.
  - destruct (IH (i + 1) start1 (device_name s i) (set_log (log s ++ l) s))
      as (l' & start2 & ->); [lia|].
    exists (l ++ l'), start2.
    rewrite device_name_log. cbn [log set_log].
    rewrite <- app_assoc.
    replace (i + 1 + Z.of_nat (S n)) with (i + Z.of_nat (S (S n))) by lia.
    reflexivity.
Qed.

(** The passes over a stretch with one name print nothing. *)
Lemma showMemMap_quiet (n rest : nat) (i startAddr : Z) (name : string)
    (s : State) :
  (forall j, i <= j < i + Z.of_nat n -> device_name s j = name) ->
  i + Z.of_nat n <= 0xFFFFF ->
  showMemMap_loop (n + rest) i startAddr name s =
    showMemMap_loop rest (i + Z.of_nat n) startAddr name s.
Proof.
  revert i. induction n as [|n IH]; intros i Hname Hend.
  - cbn [Nat.add]. replace (i + Z.of_nat 0) with i by lia. reflexivity.
  - cbn [Nat.add].
    destruct (showMemMap_pass (n + rest) i startAddr name s)
      as (l & start1 & -> & Hquiet & _).
    rewrite (Hname i) in * by lia.
    destruct Hquiet as [-> ->].
    { rewrite String.eqb_refl. cbn [negb orb].
      destruct (Z.eqb_spec i 0xFFFFF) as [E | E]; [lia | reflexivity]. }
    rewrite set_log_same, IH.
    + replace (i + 1 + Z.of_nat n) with (i + Z.of_nat (S n)) by lia.
      reflexivity.
    + intros j Hj. apply Hname. lia.
    + lia.
Qed.

(** From the start of the last stretch to the end of the map. *)
Lemma showMemMap_tail (k : Z) (name : string) (s : State) :
  0 <= k < 0xFFFFE ->
  (forall j, k < j <= 0xFFFFE -> device_name s j = name) ->
  showMemMap_loop (Z.to_nat (0xFFFFE - k) + 1) (k + 1) k name s =
    Some (tt,
          set_log
            (log s ++ [Printf "0x%X-0x%X: %s"
                         [AInt k; AInt 0xFFFFF; AStr name]]) s).
Proof.
  intros Hk Hname.
  rewrite showMemMap_quiet by (intros; try apply Hname; lia).
  replace (k + 1 + Z.of_nat (Z.to_nat (0xFFFFE - k))) with 0xFFFFF by lia.
  destruct (showMemMap_pass 0 0xFFFFF k name s)
    as (l & start1 & -> & _ & Hprint).
  destruct Hprint as [-> ->].
  { change (0xFFFFF =? 0xFFFFF) with true. rewrite orb_true_r. reflexivity. }
  cbn [showMemMap_loop]. unfold ret.
  destruct (Z.eqb_spec k (0xFFFFF - 1)) as [E | E]; [lia|].
  reflexivity.
Qed.

(** X30.  The last line of the memory map runs to the last address under
    the name of the stretch before it: where the addresses from [k] to
    [0xFFFFE] have one name, and the address before [k] another, the
    command [p] ends with the line for [k] to [0xFFFFF] under that name,
    whoever owns [0xFFFFF].  A device that owns the last address alone is
    never listed; with one name for all addresses the line is all that is
    printed. *)
Theorem showMemMap_last_address (s : State) (k : Z) (name : string) :
  0 <= k < 0xFFFFE ->
  (forall j, k <= j <= 0xFFFFE -> device_name s j = name) ->
  (0 < k -> device_name s (k - 1) <> name) ->
  exists lines,
    showMemMap s =
      Some (tt,
            set_log
              (log s ++ lines
               ++ [Printf "0x%X-0x%X: %s"
                     [AInt k; AInt 0xFFFFF; AStr name]]) s) /\
    (k = 0 -> lines = []).
Proof.
  intros Hk Hname Hbefore. unfold showMemMap.
  destruct (Z.eq_dec k 0) as [-> | Hpos].
  - exists []. split; [|reflexivity].
    replace (Z.to_nat 0x100000)
      with (S (Z.to_nat (0xFFFFE - 0) + 1)) by lia.
    destruct (showMemMap_pass (Z.to_nat (0xFFFFE - 0) + 1) 0 0 EmptyString s)
      as (l & start1 & -> & Hquiet & _).
    destruct Hquiet as [-> ->]; [apply andb_false_r|].
    rewrite set_log_same, (Hname 0) by lia.
    apply showMemMap_tail; [lia|]. intros j Hj. apply Hname. lia.
  - replace (Z.to_nat 0x100000)
      with (Z.to_nat k + S (Z.to_nat (0xFFFFE - k) + 1))%nat by lia.
    destruct (showMemMap_passes (Z.to_nat k)
                (S (Z.to_nat (0xFFFFE - k) + 1)) 0 0 EmptyString s)
      as (l1 & start1 & ->); [lia|].
    replace (0 + Z.of_nat (Z.to_nat k)) with k by lia.
    set (s1 := set_log (log s ++ l1) s).
    destruct (showMemMap_pass (Z.to_nat (0xFFFFE - k) + 1) k start1
                (device_name s (k - 1)) s1)
      as (l2 & start2 & -> & _ & Hprint).
    subst s1. rewrite device_name_log in *.
    rewrite (Hname k) in * by lia.
    destruct Hprint as [-> ->].
    { apply String.eqb_neq in Hbefore; [|lia]. rewrite Hbefore.
      cbn [negb orb andb]. apply Z.ltb_lt. lia. }
    rewrite showMemMap_tail; [|lia|].
    + cbn [log set_log].
      match goal with
      | |- context [((log s ++ l1) ++ ?l2) ++ _] => exists (l1 ++ l2)
      end.
      split; [|intros; lia].
      rewrite <- !app_assoc. reflexivity.
    + intros j Hj. rewrite !device_name_log. apply Hname. lia.
Qed.
End Debugger.

End debug_props.

(** ** The two peripherals on the small machine *)

Module machine_props.

Import machine.

Local Open Scope string_scope.
Local Open Scope Z_scope.

Lemma bus_laws : processor.ProcessorLaws bus device.
Proof.
  split.
  - intros d from to b b' a Hinst Ha. cbn in Hinst |- *.
    unfold InstallMemoryDevice in Hinst.
    destruct (range_free (mmap b) from to); [|discriminate].
    injection Hinst as <-. cbn. unfold claim.
    destruct (from <=? a) eqn:E1; destruct (a <=? to) eqn:E2;
      try reflexivity; lia.
  - intros d from to b b' a Hinst. cbn in Hinst |- *.
    unfold InstallIODevice in Hinst.
    destruct (range_free (iomap b) from to); [|discriminate].
    injection Hinst as <-. reflexivity.
Qed.

#[export] Existing Instance bus_laws.

Lemma Install_claims_0xC0000_witness :
  exists m' p',
    cga.Install CGA (replicate (Z.to_nat cga.memorySize) 0x55) cga.zero
      with_ram = (None, m', p') /\
    processor.GetMappedMemoryDevice 0xC0000 p' = CGA.
Proof.
  assert ((cga.Install CGA (replicate (Z.to_nat cga.memorySize) 0x55)
             cga.zero with_ram).1.1 = None) as Hnil
    by (vm_compute; reflexivity).
  destruct (cga.Install CGA (replicate (Z.to_nat cga.memorySize) 0x55)
              cga.zero with_ram) as [[e m'] p'] eqn:E.
  cbn [fst] in Hnil. subst e.
  exists m', p'. split; [reflexivity|].
  exact (cga_props.Install_claims_0xC0000 CGA _ _ _ _ _ E).
Defined.
(** *** Runs of the debugger *)

Lemma installed_lost : debug.numInstructionsLost installed = 0.
Proof. vm_compute. reflexivity. Qed.

Lemma state_at_history_ok (cs ip : Z) (stopped : bool) (hist : list string)
    (brs : list Z) :
  (length hist <= 128)%nat ->
  debug.history_ok (state_at cs ip stopped hist brs).
Proof.
  intros Hlen. split; cbn.
  - reflexivity.
  - exact Hlen.
  - rewrite installed_lost. lia.
Qed.



(** The same run away from address zero: the break is asserted again. *)
Example single_step_at_BIOS_rearmed :
  debug.run (step_then_checks 0xF000 0x100 0xF000 0x101)
    (state_at 0xF000 0x100 true [] []) =
    Some ((memory.NewPointer 0xF000 0x101, "NOP (0xFF)"),
          debug.mkOutcome true true 0
            ["| [BIOS:0x100] NOP (0xFF)"] 0
            [debug.Printf "[%s:0x%X] DEBUG><<<!"
               [debug.AStr "BIOS"; debug.AInt 0x100];
             debug.Println [debug.AStr "NOP (0xFF)"]]).
Proof. vm_compute. reflexivity. Qed.

Lemma breakpoint_matches_IP_only_witness :
  List.In 0x100 (debug.breakpoints
                   (debug.dev (state_at 0x1234 0 false [] [0x100]))) /\
  (exists v s',
     debug.Step_checks
       (debug.set_r (processor.mkRegisters 0xF000 0x100 false)
          (state_at 0x1234 0 false [] [0x100])) = Some (v, s') /\
     debug.debugBreak s' = true /\ processor.Debug (debug.r s') = true) /\
  (exists s',
     debug.Step 1 ["q"]
       (debug.set_r (processor.mkRegisters 0xF000 0x100 false)
          (state_at 0x1234 0 false [] [0x100])) =
       Some ((Some debug.ErrQuit, []), s')).
Proof.
  split; [left; reflexivity|].
  apply (debug_props.breakpoint_matches_IP_only
           (state_at 0x1234 0 false [] [0x100]) 0x100 0xF000 1 []).
  left. reflexivity.
Defined.

(** C5 on a history of seventeen entries.  The command [t] prints the
    sixteen oldest entries, [e0] to [e15], and not the sixteen newest,
    [e1] to [e16]; it leaves the history rotated, with the newest entry
    [e16] in the place of the oldest. *)
Theorem show_history_prints_oldest :
  debug.run (debug.Step 1 ["t"; "q"]) (state_at 0xF000 0x100 true seventeen [])
  = Some ((Some debug.ErrQuit, []),
          debug.mkOutcome true true 0
            ("e16" :: take 16 seventeen) 0
            ([debug.Printf "[%s:0x%X] DEBUG><<<!"
                [debug.AStr "BIOS"; debug.AInt 0x100];
              debug.Println [debug.AStr "| Lost instructions:"; debug.AInt 0]]
             ++ map (fun e => debug.Println [debug.AStr e])
                  (take 16 seventeen)
             ++ [debug.Printf "[%s:0x%X] DEBUG><<<!"
                   [debug.AStr "BIOS"; debug.AInt 0x100]])%list) /\
  take 16 seventeen <> drop 1 seventeen /\
  "e16" :: take 16 seventeen <> seventeen.
Proof.
  split; [vm_compute; reflexivity|]. split; discriminate.
Qed.

Lemma debugger_forwards_witness :
  debug.ReadByte 0x415 (state_at 0xF000 0x100 false [] []) =
    debug.on_world
      (memory.ReadByte (processor.GetMappedMemoryDevice 0x415 with_ram)
         0x415)
      (state_at 0xF000 0x100 false [] []) /\
  exists s',
    debug.WriteByte 0x415 1 (state_at 0xF000 0x100 false [] []) =
      Some (tt, s') /\
    debug.world s' =
      memory.WriteByte (processor.GetMappedMemoryDevice 0x415 with_ram)
        0x415 1 (debug.world (state_at 0xF000 0x100 false [] [])) /\
    debug.dev s' = debug.dev (state_at 0xF000 0x100 false [] []) /\
    (1 <> 0 /\ 0x415 = memory.NewPointer 0x40 0x15 ->
       debug.debugBreak s' = true /\
       processor.Debug (debug.r s') = true /\
       debug.log s' =
         (debug.log (state_at 0xF000 0x100 false [] [])
          ++ [debug.Printf "BIOS Error: 0x%X" [debug.AInt 1]])%list) /\
    (~ (1 <> 0 /\ 0x415 = memory.NewPointer 0x40 0x15) ->
       debug.debugBreak s' =
         debug.debugBreak (state_at 0xF000 0x100 false [] []) /\
       debug.r s' = debug.r (state_at 0xF000 0x100 false [] []) /\
       debug.log s' = debug.log (state_at 0xF000 0x100 false [] [])).
Proof.
  apply (debug_props.debugger_forwards Debugger with_ram debug.zero
           (state_at 0xF000 0x100 false [] []) 0x415 1).
  - reflexivity.
  - lia.
Defined.

(** A write of a byte other than zero to [0040:0015] stops the machine;
    the byte reaches the memory behind the debugger. *)
Example BIOS_error_breaks :
  debug.run
    (debug.bind (debug.WriteByte 0x415 0x2D)
       (fun _ => debug.ReadByte 0x415))
    (state_at 0xF000 0x100 false [] []) =
    Some (0x2D,
          debug.mkOutcome true true 0 [] 0
            [debug.Printf "BIOS Error: 0x%X" [debug.AInt 0x2D]]).
Proof. vm_compute. reflexivity. Qed.

(** *** The history after a traced run *)

Lemma set_world_same (s : debug.State (D := device) (W := store)) :
  debug.set_world (debug.world s) s = s.
Proof. destruct s. reflexivity. Qed.

(** A traced run is made of steps of the processor and calls of
    [Step]. *)
Lemma trace_from_reachable (n : nat) (cs ip : Z) (s s' : debug.State) :
  debug.reachable (P := bus) s ->
  trace_from n cs ip s = Some (tt, s') ->
  debug.reachable (P := bus) s'.
Proof.
  revert ip s. induction n as [|n IH]; intros ip s Hs Hrun.
  - cbn in Hrun. inversion Hrun. subst s'. exact Hs.
  - cbn [trace_from] in Hrun. unfold debug.bind at 1 2, debug.modify in Hrun.
    pose proof (debug.reach_processor
                  (processor.mkRegisters cs ip false) (debug.world s) s Hs)
      as Hregs.
    rewrite set_world_same in Hregs.
    destruct (debug.Step 1 []
                (debug.set_r (processor.mkRegisters cs ip false) s))
      as [[res s1]|] eqn:E; [|discriminate Hrun].
    apply (IH (ip + 1) s1); [|exact Hrun].
    exact (debug.reach_Step 1 [] _ s1 res Hregs E).
Qed.

Lemma full_trace_reachable : debug.reachable (P := bus) full_trace.
Proof.
  assert (debug.reachable (P := bus) (state_at 0xF000 0 false [] []))
    as Hstart.
  { apply (debug.reach_Install Debugger with_ram). reflexivity. }
  unfold full_trace, debug.after.
  destruct (trace_from 128 0xF000 0 (state_at 0xF000 0 false [] []))
    as [[[] s']|] eqn:E; [|exact Hstart].
  exact (trace_from_reachable 128 0xF000 0 _ s' Hstart E).
Qed.


(** Membership in a list of strings, computed. *)
Lemma In_eqb (x : string) (l : list string) :
  In x l <-> existsb (String.eqb x) l = true.
Proof.
  rewrite existsb_exists. split.
  - intros Hin. exists x. split; [exact Hin | apply String.eqb_refl].
  - intros (y & Hin & E). apply String.eqb_eq in E. subst y. exact Hin.
Qed.


(** [pushHistory] on a full history: the entry at the head goes, the
    counter of lost instructions goes up by one. *)
Example push_on_full_history :
  debug.run (debug.pushHistory "new")
    (state_at 0xF000 0x100 false ("old" :: replicate 127 "x") []) =
    Some (tt,
          debug.mkOutcome false false 0
            (replicate 127 "x" ++ ["new"])%list 1 []).
Proof. vm_compute. reflexivity. Qed.

(** *** The debugger's commands on the small machine *)

(** The host that scans numbers, for the commands with an argument. *)
Local Abbreviation scanning := (host_scanning with_ram).


Lemma Step_at_end_of_input_witness :
  exists s',
    debug.Step 1 [] (state_at 0xF000 0x100 true [] []) =
      Some ((None, []), s') /\
    debug.debugBreak s' = false /\
    processor.Debug (debug.r s') = false /\
    debug.lastInstruction (debug.dev s') = memory.NewPointer 0xF000 0x100.
Proof.
  apply (debug_props.Step_at_end_of_input
           (state_at 0xF000 0x100 true [] []) 1).
  - apply state_at_history_ok. cbn. lia.
  - reflexivity.
Defined.

Lemma Step_quit_witness :
  exists s',
    debug.Step 1 ["q"; "s"] (state_at 0xF000 0x100 true seventeen []) =
      Some ((Some debug.ErrQuit, ["s"]), s') /\
    debug.debugBreak s' = true /\
    debug.historyChan (debug.dev s') = debug.mkChan 128 seventeen /\
    debug.numInstructionsLost (debug.dev s') = 0.
Proof.
  apply (debug_props.Step_quit
           (state_at 0xF000 0x100 true seventeen []) 1 ["s"]).
  reflexivity.
Defined.

Lemma break_on_IRET_witness :
  exists s1,
    debug.command (memory.NewPointer 0xF000 0x100) "NOP (0xFF)" "i"
      (state_at 0xF000 0x100 true [] []) = Some (None, s1) /\
    debug.debugBreak s1 = false /\
    debug.breakOnIRET (debug.dev s1) = true.
Proof.
  destruct (debug_props.break_on_IRET (state_at 0xF000 0x100 true [] [])
              (memory.NewPointer 0xF000 0x100) "NOP (0xFF)")
    as (s1 & Hrun & Hbrk & _ & Hlatch & _).
  exists s1. split; [exact Hrun|]. split; [exact Hbrk | exact Hlatch].
Defined.

Lemma signal_breaks_witness :
  exists v s',
    debug.Step_checks
      (debug.set_dev (debug.set_signChan (debug.mkChan 1 [tt]) installed)
         (state_at 0xF000 0x100 false [] [])) = Some (v, s') /\
    debug.debugBreak s' = true /\
    processor.Debug (debug.r s') = true /\
    debug.chan_buf (debug.signChan (debug.dev s')) = [].
Proof.
  apply (debug_props.signal_breaks
           (debug.set_dev (debug.set_signChan (debug.mkChan 1 [tt]) installed)
              (state_at 0xF000 0x100 false [] [])) []).
  reflexivity.
Defined.

Lemma show_whole_history_witness :
  exists s',
    debug.showHistoryWithLength (HHost := scanning) "0"
      (state_at 0xF000 0x100 true seventeen []) = Some (tt, s') /\
    debug.chan_buf (debug.historyChan (debug.dev s')) = seventeen /\
    debug.numInstructionsLost (debug.dev s') = 0 /\
    debug.log s' =
      debug.Println [debug.AStr "| Lost instructions:"; debug.AInt 0]
      :: map (fun e => debug.Println [debug.AStr e]) seventeen.
Proof.
  apply (debug_props.show_whole_history (HHost := scanning)
           (state_at 0xF000 0x100 true seventeen []) "0" 0).
  - apply state_at_history_ok. cbn. lia.
  - reflexivity.
  - left. lia.
Defined.

Lemma clear_trace_witness :
  exists s',
    debug.command (memory.NewPointer 0xF000 0x100) "NOP (0xFF)" "ct"
      (state_at 0xF000 0x100 true seventeen []) = Some (None, s') /\
    debug.chan_buf (debug.historyChan (debug.dev s')) = [] /\
    debug.chan_cap (debug.historyChan (debug.dev s')) = 128%nat /\
    debug.numInstructionsLost (debug.dev s') = 17 /\
    debug.debugBreak s' = true.
Proof.
  apply (debug_props.clear_trace
           (state_at 0xF000 0x100 true seventeen [])
           (memory.NewPointer 0xF000 0x100) "NOP (0xFF)").
  apply state_at_history_ok. cbn. lia.
Defined.

Lemma history_keeps_last_128_witness :
  exists s',
    debug.pushHistory_each ["a"; "b"]
      (state_at 0xF000 0x100 false ("old" :: replicate 127 "x") []) =
      Some (tt, s') /\
    debug.chan_buf (debug.historyChan (debug.dev s')) =
      (replicate 126 "x" ++ ["a"; "b"])%list /\
    debug.numInstructionsLost (debug.dev s') = 2.
Proof.
  apply (debug_props.history_keeps_last_128 ["a"; "b"]
           (state_at 0xF000 0x100 false ("old" :: replicate 127 "x") [])).
  apply state_at_history_ok. cbn. lia.
Defined.

Lemma removeBreakpoint_negative_witness :
  debug.removeBreakpoint (HHost := scanning) "-1"
    (state_at 0xF000 0x100 true [] [0x100; 0x200]) = None.
Proof.
  apply (debug_props.removeBreakpoint_negative (HHost := scanning)
           (state_at 0xF000 0x100 true [] [0x100; 0x200]) "-1" (-1)).
  - reflexivity.
  - lia.
Defined.

Lemma removeBreakpoint_removes_witness :
  exists s',
    debug.removeBreakpoint (HHost := scanning) "0"
      (state_at 0xF000 0x100 true [] [0x100; 0x200]) = Some (tt, s') /\
    debug.breakpoints (debug.dev s') = [0x200].
Proof.
  destruct (debug_props.removeBreakpoint_removes (HHost := scanning)
              (state_at 0xF000 0x100 true [] [0x100; 0x200]) "0")
    as (Hin & _ & _).
  destruct (Hin 0) as (s' & b & Hrun & _ & Hbrs & _).
  - reflexivity.
  - cbn. lia.
  - exists s'. split; [exact Hrun|].
    cbn in Hbrs. injection Hbrs as _ Hrest. symmetry. exact Hrest.
Defined.

Lemma setBreakpoint_breaks_witness :
  exists s1,
    debug.setBreakpoint (HHost := scanning) "1F0"
      (state_at 0xF000 0x100 true [] [0x100]) = Some (tt, s1) /\
    debug.breakpoints (debug.dev s1) = [0x100; 0x1F0].
Proof.
  destruct (debug_props.setBreakpoint_breaks (HHost := scanning)
              (state_at 0xF000 0x100 true [] [0x100]) "1F0" 0x1F0)
    as (s1 & Hrun & Hbrs & _).
  - reflexivity.
  - exists s1. split; [exact Hrun | exact Hbrs].
Defined.

Lemma set_then_remove_breakpoint_witness :
  exists s1 s2,
    debug.setBreakpoint (HHost := scanning) "1F0"
      (state_at 0xF000 0x100 true [] [0x100]) = Some (tt, s1) /\
    debug.removeBreakpoint (HHost := scanning) "1" s1 = Some (tt, s2) /\
    debug.breakpoints (debug.dev s2) = [0x100].
Proof.
  apply (debug_props.set_then_remove_breakpoint (HHost := scanning)
           (state_at 0xF000 0x100 true [] [0x100]) "1F0" "1" 0x1F0).
  - reflexivity.
  - reflexivity.
Defined.

Lemma toASCII_printable_witness :
  exists c,
    debug.toASCII 0x41 = String c EmptyString /\
    0x20 <= Z.of_N (Ascii.N_of_ascii c) <= 0x7E.
Proof.
  apply (debug_props.toASCII_printable 0x41). lia.
Defined.

Lemma renderVideo_dumps_cells_witness :
  exists s',
    debug.renderVideo (state_at 0xF000 0x100 true [] []) = Some (tt, s') /\
    length (debug.log s') = (25 * 82)%nat.
Proof.
  eexists. split.
  - apply (debug_props.renderVideo_dumps_cells
             (fun a => (read (mmap with_ram a) a blank_store).1)
             (state_at 0xF000 0x100 true [] [])).
    intros a. cbn [debug.p_ReadByte host_with_ram host debug.world state_at].
    destruct (mmap with_ram a); reflexivity.
  - cbn [debug.log debug.set_log state_at app].
    rewrite flat_map_concat_map.
    change (25 * 82)%nat with (length (seq 0 25) * 82)%nat.
    generalize (seq 0 25). intros rows.
    induction rows as [|row rows IH]; [reflexivity|].
    cbn [map concat]. rewrite length_app. cbn [length].
    rewrite length_app, length_map, length_seq. cbn [length].
    rewrite IH. lia.
Defined.

(** The owners on the bus with the conventional memory. *)
Lemma with_ram_owner (a : Z) :
  mmap with_ram a = if (0 <=? a) && (a <=? 0x9FFFF) then RAM else OpenBus.
Proof.
  unfold with_ram, InstallMemoryDevice.
  assert (range_free (mmap fresh) 0x0 0x9FFFF = true) as ->
    by (vm_compute; reflexivity).
  reflexivity.
Qed.

Lemma installed_device_name (cs ip : Z) (stopped : bool)
    (hist : list string) (brs : list Z) (j : Z) :
  0 <= j < 0x100000 ->
  debug.device_name (state_at cs ip stopped hist brs) j =
    if j <=? 0x9FFFF then "RAM" else "UNNAMED DEVICE".
Proof.
  intros Hj. unfold debug.device_name, state_at, installed, debug.Install.
  destruct (processor.InstallMemoryDevice Debugger 0 1048575 with_ram)
    as [[e|] p];
    cbn [debug.dev debug.memPeripherals debug.set_breakpoints
         debug.set_historyChan debug.set_signChan debug.set_memPeripherals
         fst snd].
  all: destruct ((0 <=? j) && (j <? 1048576)) eqn:E;
    [|apply andb_false_iff in E; destruct E as [E | E];
      [apply Z.leb_gt in E | apply Z.ltb_ge in E]; lia].
  all: assert (memory.Pointer j = j) as ->
      by (apply Z.mod_small; change (2 ^ 32) with 4294967296; lia).
  all: change (processor.GetMappedMemoryDevice j with_ram)
    with (mmap with_ram j).
  all: rewrite with_ram_owner.
  all: destruct (Z.leb_spec 0 j); [|lia].
  all: destruct (Z.leb_spec j 0x9FFFF); reflexivity.
Qed.

Lemma showMemMap_last_address_witness :
  exists lines,
    debug.showMemMap (state_at 0xF000 0x100 true [] []) =
      Some (tt,
            debug.set_log
              (lines
               ++ [debug.Printf "0x%X-0x%X: %s"
                     [debug.AInt 0xA0000; debug.AInt 0xFFFFF;
                      debug.AStr "UNNAMED DEVICE"]])%list
              (state_at 0xF000 0x100 true [] [])) /\
    (0xA0000 = 0 -> lines = []).
Proof.
  apply (debug_props.showMemMap_last_address
           (state_at 0xF000 0x100 true [] []) 0xA0000 "UNNAMED DEVICE").
  - lia.
  - intros j Hj. rewrite installed_device_name by lia.
    destruct (Z.leb_spec j 0x9FFFF); [lia | reflexivity].
  - intros _. rewrite installed_device_name by lia. discriminate.
Defined.

Lemma renderVideo_reads_characters_witness :
  exists s',
    debug.renderVideo (HHost := host_recording) recording_start =
      Some (tt, s') /\
    debug.world s' = debug.cells_from 0xB8000 2000 /\
    length (debug.log s') = (25 * 82)%nat.
Proof.
  eexists. split.
  - apply (debug_props.renderVideo_reads_characters
             (HHost := host_recording) recording_start).
  - split; vm_compute; reflexivity.
Defined.

End machine_props.
